(** * Media Press: a shallow embedding of [press.py]

    The development follows the source file top-down: the Python built-ins
    the program relies on, the dictionaries and records it passes around,
    a small state-and-exception monad for its effects (log, console,
    sub-processes, image library, file system), the producers and the
    scheduler, and finally the properties proved about them.

    Conventions.
    - A Python [str] is a [string] whose characters are read as code points
      below 256 (Latin-1): every built-in below ([str.strip], [str.isdigit],
      [str.lower], [str.splitlines], [repr]) is given on that range exactly
      as CPython defines it.  Message literals are kept as the source
      spells them.
    - A Python [int] is a [Z]; a Python [float] is an IEEE-754 binary64
      value, [spec_float] with precision 53 and maximal exponent 1024.
    - A [dict] is an association list in insertion order with unique keys. *)

From Stdlib Require Import ZArith String Ascii List Bool Lia.
From Stdlib Require Import DecimalString DecimalZ.
From Stdlib Require Import Floats.SpecFloat.
Import ListNotations.

Open Scope string_scope.
Open Scope Z_scope.

(* ================================================================== *)
(** * Exceptions and fallible values *)

(** The exception classes the program can meet.  Every one of them derives
    from [Exception]; [str(e)] is carried along as [exn_msg]. *)
Inductive exn_class :=
| FileNotFoundError
| CalledProcessError
| UnidentifiedImageError
| ValueError
| KeyError
| IndexError
| TypeError
| ZeroDivisionError
| OverflowError
| OSError.

Record exn := Exn {
  exn_cls : exn_class;
  exn_msg : string;          (* str(e) *)
  exn_stderr : string        (* e.stderr of a CalledProcessError *)
}.

Definition mk_exn (c : exn_class) (msg : string) : exn := Exn c msg EmptyString.

Inductive result (A : Type) :=
| Ret (a : A)
| Raise (e : exn).
Arguments Ret {A} a.
Arguments Raise {A} e.

(* ================================================================== *)
(** * Python built-ins on strings *)

Definition code (c : ascii) : N := N_of_ascii c.

(** [str.isspace] per character: U+0009..U+000D, U+001C..U+001F, U+0020,
    U+0085 and U+00A0 are the white-space code points below 256. *)
Definition py_isspace_char (c : ascii) : bool :=
  let n := code c in
  ((9 <=? n) && (n <=? 13) || (28 <=? n) && (n <=? 32)
   || (n =? 133) || (n =? 160))%N.

(** Line boundaries of [str.splitlines] below 256. *)
Definition py_islinebreak_char (c : ascii) : bool :=
  let n := code c in
  ((10 <=? n) && (n <=? 13) || (28 <=? n) && (n <=? 30) || (n =? 133))%N.

(** Characters [int] accepts as decimal digits (category Nd). *)
Definition py_isdecimal_char (c : ascii) : bool :=
  let n := code c in ((48 <=? n) && (n <=? 57))%N.

(** [str.isdigit] per character: the decimal digits and the characters of
    numeric type Digit, which below 256 are the superscripts U+00B2, U+00B3
    and U+00B9. *)
Definition py_isdigit_char (c : ascii) : bool :=
  let n := code c in
  (py_isdecimal_char c || (n =? 178) || (n =? 179) || (n =? 185))%N.

Fixpoint str_forallb (p : ascii -> bool) (s : string) : bool :=
  match s with
  | EmptyString => true
  | String c s' => p c && str_forallb p s'
  end.

Fixpoint str_existsb (p : ascii -> bool) (s : string) : bool :=
  match s with
  | EmptyString => false
  | String c s' => p c || str_existsb p s'
  end.

Definition str_nonempty (s : string) : bool :=
  match s with EmptyString => false | String _ _ => true end.

(** [s.isdigit()]: at least one character, and all of them digits. *)
Definition py_isdigit (s : string) : bool :=
  str_nonempty s && str_forallb py_isdigit_char s.

Fixpoint py_lstrip (s : string) : string :=
  match s with
  | EmptyString => EmptyString
  | String c s' => if py_isspace_char c then py_lstrip s' else s
  end.

Fixpoint py_rstrip (s : string) : string :=
  match s with
  | EmptyString => EmptyString
  | String c s' =>
      match py_rstrip s' with
      | EmptyString => if py_isspace_char c then EmptyString
                       else String c EmptyString
      | t => String c t
      end
  end.

(** [s.strip()] *)
Definition py_strip (s : string) : string := py_rstrip (py_lstrip s).

(** [s.split(sep)] for a one-character separator: the pieces between the
    separators, empty pieces included; never the empty list. *)
Fixpoint py_split (sep : ascii) (s : string) : list string :=
  match s with
  | EmptyString => [EmptyString]
  | String c s' =>
      if Ascii.eqb c sep then EmptyString :: py_split sep s'
      else match py_split sep s' with
           | [] => [String c EmptyString]
           | t :: ts => String c t :: ts
           end
  end.

(** The last element of [s.splitlines()] when [s] ends with a character
    that is not a line boundary: what follows the last boundary. *)
Fixpoint last_line (s : string) : string :=
  match s with
  | EmptyString => EmptyString
  | String c s' =>
      if str_existsb py_islinebreak_char s' then last_line s'
      else if py_islinebreak_char c then s' else s
  end.

(** [sub in s] *)
Fixpoint py_contains (sub s : string) : bool :=
  String.prefix sub s ||
  match s with
  | EmptyString => false
  | String _ s' => py_contains sub s'
  end.

Definition py_lower_char (c : ascii) : ascii :=
  let n := code c in
  if ((65 <=? n) && (n <=? 90)
      || (192 <=? n) && (n <=? 222) && negb (n =? 215))%N
  then ascii_of_N (n + 32) else c.

(** [s.lower()] *)
Fixpoint py_lower (s : string) : string :=
  match s with
  | EmptyString => EmptyString
  | String c s' => String (py_lower_char c) (py_lower s')
  end.

(** [sep.join(xs)] *)
Fixpoint py_join (sep : string) (xs : list string) : string :=
  match xs with
  | [] => EmptyString
  | [x] => x
  | x :: rest => x ++ sep ++ py_join sep rest
  end.

(** [str(n)] for an [int]. *)
Definition py_str_int (n : Z) : string := NilEmpty.string_of_int (Z.to_int n).

Definition hex_digit (n : N) : ascii :=
  ascii_of_N (if (n <? 10)%N then 48 + n else 87 + n).

Definition py_isprintable_char (c : ascii) : bool :=
  let n := code c in
  ((32 <=? n) && (n <=? 126) || (161 <=? n) && negb (n =? 173))%N.

Definition py_repr_char (quote : ascii) (c : ascii) : string :=
  if Ascii.eqb c quote || Ascii.eqb c "\"%char
  then String "\" (String c EmptyString)
  else if (code c =? 9)%N then "\t"
  else if (code c =? 10)%N then "\n"
  else if (code c =? 13)%N then "\r"
  else if py_isprintable_char c then String c EmptyString
  else String "\" (String "x" (String (hex_digit (code c / 16))
                               (String (hex_digit (code c mod 16)) EmptyString))).

Fixpoint str_concat_map (f : ascii -> string) (s : string) : string :=
  match s with
  | EmptyString => EmptyString
  | String c s' => f c ++ str_concat_map f s'
  end.

(** [repr(s)] for a [str]: single quotes unless the text holds a single
    quote and no double quote. *)
Definition py_repr (s : string) : string :=
  let has q := str_existsb (Ascii.eqb q) s in
  let quote := if has "'"%char && negb (has "034"%char) then "034"%char
               else "'"%char in
  String quote (str_concat_map (py_repr_char quote) s ++ String quote EmptyString).

(** [repr(xs)] / [str(xs)] for a list of [str]. *)
Definition py_repr_list (xs : list string) : string :=
  "[" ++ py_join ", " (map py_repr xs) ++ "]".

Fixpoint in_list (x : string) (xs : list string) : bool :=
  match xs with
  | [] => false
  | y :: ys => String.eqb x y || in_list x ys
  end.

(** Value of a string of ASCII decimal digits, most significant first. *)
Fixpoint digits_value (acc : Z) (s : string) : Z :=
  match s with
  | EmptyString => acc
  | String c s' => digits_value (10 * acc + (Z.of_N (code c) - 48)) s'
  end.

(** [int(s)] on a stripped token.  [max_str_digits] is the interpreter's
    limit on the length of a decimal literal ([sys.get_int_max_str_digits()],
    4300 by default since CPython 3.11; 0 means no limit). *)
Definition py_int (max_str_digits : nat) (s : string) : result Z :=
  if str_nonempty s && str_forallb py_isdecimal_char s
     && ((max_str_digits =? 0)%nat || (String.length s <=? max_str_digits)%nat)
  then Ret (digits_value 0 s)
  else Raise (mk_exn ValueError
                ("invalid literal for int() with base 10: " ++ py_repr s)).

(* ================================================================== *)
(** * Dictionaries *)

(** A [dict] with [str] keys: insertion order is kept, a key occurs once. *)
Definition dict (V : Type) := list (string * V).

Fixpoint dict_get {V} (k : string) (d : dict V) : option V :=
  match d with
  | [] => None
  | (k', v) :: d' => if String.eqb k' k then Some v else dict_get k d'
  end.

(** [d[k] = v]: an existing key keeps its place, a new one goes last. *)
Fixpoint dict_set {V} (k : string) (v : V) (d : dict V) : dict V :=
  match d with
  | [] => [(k, v)]
  | (k', v') :: d' =>
      if String.eqb k' k then (k', v) :: d' else (k', v') :: dict_set k v d'
  end.

(** [d.update(other)] *)
Definition dict_update {V} (d other : dict V) : dict V :=
  fold_left (fun acc kv => dict_set (fst kv) (snd kv) acc) other d.

(** [list(d.keys())] *)
Definition dict_keys {V} (d : dict V) : list string := map fst d.

(** [{key: val for key, val in d.items() if key in selected}] *)
Definition dict_select {V} (selected : list string) (d : dict V) : dict V :=
  filter (fun kv => in_list (fst kv) selected) d.

(* ================================================================== *)
(** * Python arithmetic on [int] and [float] *)

Definition prec : Z := 53.
Definition emax : Z := 1024.

Definition py_float := spec_float.

(** An [int] as an exact (not yet rounded) binary value. *)
Definition exact_of_int (n : Z) : spec_float :=
  match n with
  | Z0 => S754_zero false
  | Zpos p => S754_finite false p 0
  | Zneg p => S754_finite true p 0
  end.

Definition is_infinite (f : spec_float) : bool :=
  match f with S754_infinity _ => true | _ => false end.

(** [float(n)]: round to nearest even, [OverflowError] beyond the range. *)
Definition float_of_int (n : Z) : result py_float :=
  let f := binary_normalize prec emax n 0 false in
  if is_infinite f
  then Raise (mk_exn OverflowError "int too large to convert to float")
  else Ret f.

(** [a / b] on two [int]s: the correctly rounded quotient. *)
Definition py_truediv (a b : Z) : result py_float :=
  if b =? 0 then Raise (mk_exn ZeroDivisionError "division by zero")
  else
    let q := SFdiv prec emax (exact_of_int a) (exact_of_int b) in
    if is_infinite q
    then Raise (mk_exn OverflowError
                  "integer division result too large for a float")
    else Ret q.

(** [n * x] for an [int] [n] and a [float] [x]. *)
Definition py_mul_int_float (n : Z) (x : py_float) : result py_float :=
  match float_of_int n with
  | Ret f => Ret (SFmul prec emax f x)
  | Raise e => Raise e
  end.

(** [int(x)] for a [float]: truncation toward zero. *)
Definition py_int_of_float (x : py_float) : result Z :=
  match x with
  | S754_zero _ => Ret 0
  | S754_finite s m e =>
      let a := match e with
               | Z0 => Zpos m
               | Zpos k => Z.shiftl (Zpos m) (Zpos k)
               | Zneg k => Z.shiftr (Zpos m) (Zpos k)
               end in
      Ret (if s then - a else a)
  | S754_infinity _ =>
      Raise (mk_exn OverflowError "cannot convert float infinity to integer")
  | S754_nan =>
      Raise (mk_exn ValueError "cannot convert float NaN to integer")
  end.

(** [int(h * (w / sw))], the height expression of the resize loops:
    [w] is [base_width * density], [h] and [sw] the source's height and
    width. *)
Definition scaled_height (h w sw : Z) : result Z :=
  match py_truediv w sw with
  | Raise e => Raise e
  | Ret ratio =>
      match py_mul_int_float h ratio with
      | Raise e => Raise e
      | Ret x => py_int_of_float x
      end
  end.

(* ================================================================== *)
(** * Images *)

(** Pixel content is kept symbolic: where the data was decoded from and
    which library operations it went through. *)
Inductive pixels :=
| Decoded (path : string)
| Converted (mode : string) (p : pixels)
| Lanczos (w h : Z) (p : pixels).

Record Image := {
  width : Z;
  height : Z;
  mode : string;
  content : pixels
}.

Inductive save_params :=
| Quality (q : Z)      (* {'quality': q} *)
| Optimize.            (* {'optimize': True} *)

(** [FORMAT_MAPPING] *)
Definition FORMAT_MAPPING : dict string :=
  [("webp", "WEBP"); ("jpg", "JPEG"); ("jpeg", "JPEG"); ("png", "PNG")].

(** [VIDEO_CODECS] *)
Definition VIDEO_CODECS : dict string :=
  [("mp4", "libx264"); ("webm", "libvpx-vp9")].

(** [AUDIO_CODECS] *)
Definition AUDIO_CODECS : dict string :=
  [("mp3", "libmp3lame"); ("aac", "aac"); ("opus", "libopus")].

Definition SUPPORTED_IMAGE_FORMATS : list string :=
  [".webp"; ".jpg"; ".jpeg"; ".png"; ".tiff"; ".heic"].

Definition SUPPORTED_AV_FORMATS : list string :=
  [".mp4"; ".mov"; ".webm"; ".mkv"; ".avi"; ".m4v"; ".m4a"; ".mp3"; ".aac";
   ".wav"; ".flac"].

Definition SIPS_CMD : string := "sips".

(** [d[k]], raising [KeyError] on a missing key. *)
Definition dict_index {V} (d : dict V) (k : string) : result V :=
  match dict_get k d with
  | Some v => Ret v
  | None => Raise (mk_exn KeyError (py_repr k))
  end.

(** [d.get(k, default)] *)
Definition dict_get_default {V} (d : dict V) (k : string) (default : V) : V :=
  match dict_get k d with Some v => v | None => default end.

(* ================================================================== *)
(** * Paths, settings and configuration *)

(** A [pathlib.Path] to a file: its directory, stem and suffix. *)
Record FilePath := {
  parent : string;
  stem : string;
  suffix : string
}.

(** [p / name], for a [name] that is one path component: [pathlib]
    drops [.] components, doubled and trailing separators of a [name]
    that holds separators, which the concatenation keeps. *)
Definition path_join (p name : string) : string := p ++ "/" ++ name.

(** [file_path.name] *)
Definition name (p : FilePath) : string := stem p ++ suffix p.

(** [str(file_path)] *)
Definition path_str (p : FilePath) : string := path_join (parent p) (name p).

(** [file_path.with_suffix(s)] *)
Definition with_suffix (p : FilePath) (s : string) : FilePath :=
  {| parent := parent p; stem := stem p; suffix := s |}.

(** The bundle [upload_files] builds from the request form. *)
Record Settings := {
  image_format : string;
  video_format : string;
  compression_mode : string;
  custom_sizes : string;
  sizes_to_process : list string;
  include_retina : bool
}.

(** What the producers read from [config.yml]; an absent key is [None]. *)
Record Profile := {
  sizes : dict Z;                  (* profile.get('sizes', {}) *)
  heights_map : dict Z             (* profile.get('heights_map', {}) *)
}.

Record Config := {
  image_profile : Profile;         (* image_profiles.default *)
  video_profile : Profile;         (* video_profiles.default *)
  image_standard_quality : option Z;
  image_max_quality : option Z;
  video_standard_crf : option Z;
  video_standard_preset : option string;
  video_max_crf : option Z;
  video_max_preset : option string
}.

Definition get_default {A} (o : option A) (default : A) : A :=
  match o with Some a => a | None => default end.

(* ================================================================== *)
(** * The world the program acts on *)

(** What [subprocess.run(..., check=True)] did: it returned a completed
    process, or raised ([CalledProcessError] on a non-zero exit status,
    [FileNotFoundError] on a missing binary, ...). *)
Inductive proc_outcome :=
| Completed (stdout stderr : string)
| Failed (e : exn).

Definition command := list string.

Inductive fs_event :=
| Mkdir (path : string)
| Saved (path : string) (img : Image) (format : string) (params : save_params)
| Unlinked (path : string).

(** A [concurrent.futures.Future] as the poller sees it: whether the job
    has ended, and what [result()] gives once it has ([Ret tt], or the
    exception captured from the job). *)
Record Future := {
  done : bool;
  outcome : result unit
}.

Record World := {
  processing_log : list string;                 (* the global list *)
  active_futures : dict Future;                 (* the global dict *)
  console : list string;                        (* what [print] wrote *)
  invocations : list (command * proc_outcome);  (* sub-processes, in order *)
  fs : list fs_event                            (* file-system writes *)
}.

(** The globals as the module initialises them. *)
Definition empty_world : World :=
  {| processing_log := []; active_futures := []; console := [];
     invocations := []; fs := [] |}.

(** Everything outside the program: constants resolved at start-up, the
    interpreter, and the behaviour of the tools and libraries it calls. *)
Record Runtime := {
  FFMPEG_CMD : string;
  FFPROBE_CMD : string;
  darwin : bool;                          (* sys.platform == "darwin" *)
  int_max_str_digits : nat;
  OUTPUT_DIR : option string;             (* app.config.get('OUTPUT_DIR') *)
  config : Config;
  subprocess_run : list (command * proc_outcome) -> command -> proc_outcome;
  image_open : string -> result Image;    (* Image.open *)
  convert_error : Image -> string -> option exn;
  resize_error : Image -> Z -> Z -> option exn;
  save_error : string -> option exn;
  mkdir_error : string -> option exn;
  path_exists : list (command * proc_outcome) -> string -> bool;
  format_exc : exn -> string              (* traceback.format_exc() *)
}.

(* ================================================================== *)
(** * State and exceptions *)

Definition M (A : Type) : Type := World -> result A * World.

Definition ret {A} (a : A) : M A := fun w => (Ret a, w).

Definition raise {A} (e : exn) : M A := fun w => (Raise e, w).

Definition bind {A B} (m : M A) (k : A -> M B) : M B :=
  fun w => match m w with
           | (Ret a, w') => k a w'
           | (Raise e, w') => (Raise e, w')
           end.

Notation "x <- m ;; k" := (bind m (fun x => k))
  (at level 61, m at next level, right associativity).
Notation "m ;;; k" := (bind m (fun _ => k))
  (at level 61, right associativity).

(** [try: m  except Exception as e: h e] *)
Definition try_except {A} (m : M A) (h : exn -> M A) : M A :=
  fun w => match m w with
           | (Ret a, w') => (Ret a, w')
           | (Raise e, w') => h e w'
           end.

(** [try: m  finally: fin] *)
Definition try_finally {A} (m : M A) (fin : M unit) : M A :=
  fun w => match m w with
           | (r, w') => match fin w' with
                        | (Ret _, w'') => (r, w'')
                        | (Raise e, w'') => (Raise e, w'')
                        end
           end.

(** Lift a pure fallible value. *)
Definition lift {A} (r : result A) : M A := fun w => (r, w).

(** [for x in xs: body x] *)
Fixpoint for_each {A} (xs : list A) (body : A -> M unit) : M unit :=
  match xs with
  | [] => ret tt
  | x :: xs' => body x ;;; for_each xs' body
  end.

Definition nl : string := String "010" EmptyString.

Definition set_processing_log (l : list string) (w : World) : World :=
  {| processing_log := l; active_futures := active_futures w;
     console := console w; invocations := invocations w; fs := fs w |}.

Definition set_active_futures (d : dict Future) (w : World) : World :=
  {| processing_log := processing_log w; active_futures := d;
     console := console w; invocations := invocations w; fs := fs w |}.

Definition set_console (l : list string) (w : World) : World :=
  {| processing_log := processing_log w; active_futures := active_futures w;
     console := l; invocations := invocations w; fs := fs w |}.

Definition set_invocations (l : list (command * proc_outcome)) (w : World)
    : World :=
  {| processing_log := processing_log w; active_futures := active_futures w;
     console := console w; invocations := l; fs := fs w |}.

Definition set_fs (l : list fs_event) (w : World) : World :=
  {| processing_log := processing_log w; active_futures := active_futures w;
     console := console w; invocations := invocations w; fs := l |}.

Definition print (message : string) : M unit :=
  fun w => (Ret tt, set_console (console w ++ [message]) w).

(** [processing_log.append(message)] *)
Definition log_append (message : string) : M unit :=
  fun w => (Ret tt, set_processing_log (processing_log w ++ [message]) w).

Definition record_invocation (c : command) (o : proc_outcome) : M unit :=
  fun w => (Ret tt, set_invocations (invocations w ++ [(c, o)]) w).

Definition record_fs (ev : fs_event) : M unit :=
  fun w => (Ret tt, set_fs (fs w ++ [ev]) w).

(** [log_message(message, level='info')] *)
Definition log_message (message : string) (level : string) : M unit :=
  if String.eqb level "info" then print message ;;; log_append message
  else if String.eqb level "debug" then print message
  else ret tt.

Definition info : string := "info".
Definition debug : string := "debug".

Section Program.

Variable rt : Runtime.

(** [subprocess.run(command, check=True, capture_output=True, ...)] *)
Definition subprocess_run_checked (c : command) : M proc_outcome :=
  fun w => let o := subprocess_run rt (invocations w) c in
           bind (record_invocation c o) (fun _ => ret o) w.

(** [e.stderr.strip().splitlines()[-1] if e.stderr else 'Unknown error'] *)
Definition last_diagnostic (stderr : string) : result string :=
  if str_nonempty stderr then
    let t := py_strip stderr in
    if str_nonempty t then Ret (last_line t)
    else Raise (mk_exn IndexError "list index out of range")
  else Ret "Unknown error".

(** [run_command(command, log_prefix)] *)
Definition run_command (cmd : command) (log_prefix : string) : M string :=
  match cmd with
  | [] => raise (mk_exn IndexError "list index out of range")
  | c0 :: args =>
      let cmd := if String.eqb c0 (FFMPEG_CMD rt)
                 then ([c0] ++ ["-loglevel"; "error"] ++ args)%list
                 else cmd in
      o <- subprocess_run_checked cmd ;;
      match o with
      | Completed stdout stderr =>
          log_message (log_prefix ++ " ✓ Completed") info ;;;
          log_message ("[DEBUG] Command: " ++ py_join " " cmd ++ nl
                       ++ "Output:" ++ nl ++ py_strip stderr) debug ;;;
          ret stdout
      | Failed e =>
          match exn_cls e with
          | FileNotFoundError =>
              log_message ("🚨 CRITICAL ERROR: Not found `" ++ c0 ++ "`.")
                          info ;;;
              raise e
          | CalledProcessError =>
              d <- lift (last_diagnostic (exn_stderr e)) ;;
              log_message (log_prefix ++ " 🚨 ERROR: " ++ d) info ;;;
              log_message ("[DEBUG_ERROR] Command: " ++ py_join " " cmd ++ nl
                           ++ "Full Error:" ++ nl ++ exn_stderr e) debug ;;;
              raise e
          | _ => raise e
          end
      end
  end.

(** [with prepare_image_path(original_path) as p: body p] *)
Definition prepare_image_path {A} (original_path : FilePath)
    (body : string -> M A) : M A :=
  if String.eqb (py_lower (suffix original_path)) ".heic" && darwin rt then
    let temp_png_path := path_str (with_suffix original_path ".temp.png") in
    log_message ("  > Conversion HEIC -> PNG (via sips): "
                 ++ name original_path) info ;;;
    try_finally
      (run_command [SIPS_CMD; "-s"; "format"; "png"; path_str original_path;
                    "--out"; temp_png_path] "    " ;;;
       body temp_png_path)
      (fun w => if path_exists rt (invocations w) temp_png_path
                then record_fs (Unlinked temp_png_path) w
                else (Ret tt, w))
  else body (path_str original_path).

(** The command [has_video_stream] builds. *)
Definition probe_cmd (file_path : FilePath) : command :=
  [FFPROBE_CMD rt; "-v"; "error"; "-select_streams"; "v:0"; "-show_entries";
   "stream=codec_type"; "-of"; "json"; path_str file_path].

(** [has_video_stream(file_path)] *)
Definition has_video_stream (file_path : FilePath) : M bool :=
  let cmd := probe_cmd file_path in
  try_except
    (output <- run_command cmd "  🕵️ Checking the video stream:" ;;
     ret (py_contains "video" output))
    (fun _ => ret false).

(** [path.mkdir(exist_ok=True)] *)
Definition mkdir (path : string) : M unit :=
  match mkdir_error rt path with
  | Some e => raise e
  | None => record_fs (Mkdir path)
  end.

(** The command [process_audio_only] builds. *)
Definition audio_cmd (file_path : FilePath) (output_dir : string)
    (codec : string) : command :=
  let target_format := "mp3" in
  let base_name := stem file_path in
  let file_output_folder := path_join output_dir base_name in
  [FFMPEG_CMD rt; "-i"; path_str file_path; "-c:a"; codec; "-q:a"; "2";
   path_join file_output_folder (base_name ++ "." ++ target_format); "-y"].

(** [process_audio_only(file_path, settings)] *)
Definition process_audio_only (file_path : FilePath) (settings : Settings)
    : M unit :=
  let output_dir := OUTPUT_DIR rt in
  try_except
    (let target_format := "mp3" in
     let base_name := stem file_path in
     log_message ("🎵 Audio processing: " ++ name file_path) info ;;;
     match output_dir with
     | None =>
         raise (mk_exn TypeError
           "unsupported operand type(s) for /: 'NoneType' and 'str'")
     | Some output_dir =>
         let file_output_folder := path_join output_dir base_name in
         mkdir file_output_folder ;;;
         codec <- lift (dict_index AUDIO_CODECS target_format) ;;
         run_command (audio_cmd file_path output_dir codec)
                     ("  ✓ Conversion to " ++ target_format ++ ":") ;;;
         log_message ("✅ Audio " ++ name file_path ++ " completed.") info
     end)
    (fun e =>
       log_message ("🚨 Audio processing error " ++ name file_path ++ ": "
                    ++ exn_msg e) info ;;;
       log_message (format_exc rt e) debug).

(** The dict comprehension of [get_custom_sizes], token by token. *)
Fixpoint custom_sizes_of (tokens : list string) (acc : dict Z)
    : result (dict Z) :=
  match tokens with
  | [] => Ret acc
  | s :: rest =>
      if py_isdigit (py_strip s) then
        match py_int (int_max_str_digits rt) (py_strip s) with
        | Ret v =>
            custom_sizes_of rest
              (dict_set ("custom_" ++ py_strip s ++ "px") v acc)
        | Raise e => Raise e
        end
      else custom_sizes_of rest acc
  end.

(** [get_custom_sizes(custom_sizes_str)] *)
Definition get_custom_sizes (custom_sizes_str : string) : M (dict Z) :=
  if str_nonempty custom_sizes_str then
    match custom_sizes_of (py_split "," custom_sizes_str) [] with
    | Ret d => ret d
    | Raise e =>
        match exn_cls e with
        | ValueError =>
            log_message "🚨 Error: Invalid custom size format." info ;;;
            ret []
        | _ => raise e
        end
    end
  else ret [].

(** [Image.open(path).convert(mode)] *)
Definition open_and_convert (path mode : string) : M Image :=
  img <- lift (image_open rt path) ;;
  match convert_error rt img mode with
  | Some e => raise e
  | None => ret {| width := width img; height := height img; mode := mode;
                   content := Converted mode (content img) |}
  end.

(** [img.resize((w, h), Image.Resampling.LANCZOS)] *)
Definition resize (img : Image) (w h : Z) : M Image :=
  if (w <? 1) || (h <? 1)
  then raise (mk_exn ValueError "height and width must be > 0")
  else match resize_error rt img w h with
       | Some e => raise e
       | None =>
           ret {| width := w; height := h; mode := mode img;
                  content := if (w =? width img) && (h =? height img)
                             then content img
                             else Lanczos w h (content img) |}
       end.

(** [img.save(path, format, **save_params)] *)
Definition save (img : Image) (path format : string) (params : save_params)
    : M unit :=
  match save_error rt path with
  | Some e => raise e
  | None => record_fs (Saved path img format params)
  end.

(** [save_params] of either tier: PNG asks for optimisation instead of a
    quality. *)
Definition params_for (target_format : string) (quality : Z) : save_params :=
  if String.eqb target_format "png" then Optimize else Quality quality.

(** The name of a resized variant; [infix] is empty for the standard tier
    and [_compressed] for the compressed one. *)
Definition variant_name (base_name size_label : string) (density : Z)
    (infix target_format : string) : string :=
  base_name ++ "_" ++ size_label ++ "@" ++ py_str_int density ++ "x"
  ++ infix ++ "." ++ target_format.

Definition full_size_name (base_name infix target_format : string) : string :=
  base_name ++ "_full_size" ++ infix ++ "." ++ target_format.

(** The body of the two resize loops of [process_image]. *)
Definition render_variant (img : Image) (file_output_folder base_name
    target_format infix : string) (quality : Z) (size_label : string)
    (base_width density : Z) : M unit :=
  let new_width := base_width * density in
  new_height <- lift (scaled_height (height img) (base_width * density)
                                    (width img)) ;;
  resized_img <- resize img new_width new_height ;;
  let new_file_name :=
    variant_name base_name size_label density infix target_format in
  let save_params := params_for target_format quality in
  format <- lift (dict_index FORMAT_MAPPING target_format) ;;
  save resized_img (path_join file_output_folder new_file_name) format
       save_params.

Definition render_sizes (img : Image) (file_output_folder base_name
    target_format infix : string) (quality : Z) (sizes_to_process : dict Z)
    (densities : list Z) : M unit :=
  for_each sizes_to_process (fun kv =>
    for_each densities (fun density =>
      render_variant img file_output_folder base_name target_format infix
                     quality (fst kv) (snd kv) density)).

Definition render_full_size (img : Image) (file_output_folder base_name
    target_format infix : string) (quality : Z) : M unit :=
  let save_params := params_for target_format quality in
  format <- lift (dict_index FORMAT_MAPPING target_format) ;;
  save img (path_join file_output_folder
                      (full_size_name base_name infix target_format))
       format save_params.

Definition when (b : bool) (m : M unit) : M unit := if b then m else ret tt.

Definition nonempty {A} (l : list A) : bool :=
  match l with [] => false | _ => true end.

(** What [process_image] does with the decoded bitmap. *)
Definition render_image (img : Image) (file_output_folder base_name
    target_format compression_mode : string) (sizes_to_process : dict Z)
    (densities : list Z) (include_full_size : bool) : M unit :=
  mkdir file_output_folder ;;;
  let std_quality := get_default (image_standard_quality (config rt)) 85 in
  when (nonempty sizes_to_process)
    (render_sizes img file_output_folder base_name target_format
                  EmptyString std_quality sizes_to_process densities ;;;
     log_message "  ✓ Resized versions created" info) ;;;
  when include_full_size
    (render_full_size img file_output_folder base_name target_format
                      EmptyString std_quality ;;;
     log_message ("  ✓ Created: "
                  ++ full_size_name base_name EmptyString target_format)
                 info) ;;;
  when (String.eqb compression_mode "max_compression")
    (let comp_quality := get_default (image_max_quality (config rt)) 75 in
     log_message ("  ↳ Creating compressed versions (quality: "
                  ++ py_str_int comp_quality ++ ")") info ;;;
     when (nonempty sizes_to_process)
       (render_sizes img file_output_folder base_name target_format
                     "_compressed" comp_quality sizes_to_process densities) ;;;
     when include_full_size
       (render_full_size img file_output_folder base_name target_format
                         "_compressed" comp_quality) ;;;
     log_message "    ✓ Compressed versions created" info).

(** The body of the [with] block of [process_image]; the value tells
    whether control reached the end of the block ([false]: the function
    returned from inside it). *)
Definition with_block (file_path : FilePath) (file_output_folder
    target_format compression_mode : string) (sizes_to_process : dict Z)
    (densities : list Z) (include_full_size : bool)
    (image_to_process : string) : M bool :=
  decoded <-
    try_except
      (img <- open_and_convert image_to_process
                (if String.eqb target_format "png" then "RGBA" else "RGB") ;;
       ret (Some img))
      (fun e =>
         match exn_cls e with
         | UnidentifiedImageError =>
             log_message ("🚨 Error: Unable to recognize '"
                          ++ name file_path ++ "'.") info ;;;
             ret None
         | _ => raise e
         end) ;;
  match decoded with
  | None => ret false                       (* [return] *)
  | Some img =>
      render_image img file_output_folder (stem file_path) target_format
                   compression_mode sizes_to_process densities
                   include_full_size ;;;
      ret true
  end.

(** The [try] block of [process_image]. *)
Definition process_image_body (output_dir : string) (file_path : FilePath)
    (profile : Profile) (settings : Settings) : M unit :=
  let target_format := image_format settings in
  let compression_mode := compression_mode settings in
  let selected_sizes_keys := sizes_to_process settings in
  let sizes_to_process := dict_select selected_sizes_keys (sizes profile) in
  custom_sizes <- get_custom_sizes (custom_sizes settings) ;;
  let sizes_to_process := dict_update sizes_to_process custom_sizes in
  log_message ("  > Selected dimensions for processing: "
               ++ py_repr_list (dict_keys sizes_to_process)) info ;;;
  let densities := if include_retina settings then [1; 2] else [1] in
  let include_full_size := in_list "full_size" selected_sizes_keys in
  let file_output_folder := path_join output_dir (stem file_path) in
  log_message ("🖼️ Image processing: " ++ name file_path) info ;;;
  finished <-
    prepare_image_path file_path
      (with_block file_path file_output_folder target_format compression_mode
                  sizes_to_process densities include_full_size) ;;
  when finished (log_message ("✅ Done: " ++ name file_path) info).

(** [process_image(file_path, profile, settings)] *)
Definition process_image (file_path : FilePath) (profile : Profile)
    (settings : Settings) : M unit :=
  match OUTPUT_DIR rt with
  | None =>
      log_message "🚨 Critical ERROR: Working folder for results not set."
                  info
  | Some output_dir =>
      try_except
        (process_image_body output_dir file_path profile settings)
        (fun e =>
           match exn_cls e with
           | CalledProcessError =>
               log_message ("🚨 Error: Failed to convert'"
                            ++ name file_path ++ "'.") info
           | _ =>
               log_message ("🚨 Unknown processing error "
                            ++ name file_path ++ ": " ++ exn_msg e) info ;;;
               log_message (format_exc rt e) debug
           end)
  end.

(** The commands of [process_video]. *)
Definition poster_cmd (file_path : FilePath) (file_output_folder : string)
    : command :=
  [FFMPEG_CMD rt; "-i"; path_str file_path; "-ss"; "00:00:01"; "-vframes";
   "1"; "-vf"; "scale=640:-1"; "-q:v"; "2";
   path_join file_output_folder (stem file_path ++ "_poster.webp"); "-y"].

Definition rendition_cmd (file_path : FilePath) (file_output_folder
    target_format video_codec audio_codec preset : string) (crf : Z)
    (infix size_label : string) (height : Z) : command :=
  [FFMPEG_CMD rt; "-i"; path_str file_path; "-vf";
   "scale=-2:" ++ py_str_int height; "-c:v"; video_codec; "-preset"; preset;
   "-crf"; py_str_int crf; "-c:a"; audio_codec; "-b:a"; "128k";
   path_join file_output_folder
     (stem file_path ++ "_" ++ size_label ++ infix ++ "." ++ target_format);
   "-y"].

Definition full_size_cmd (file_path : FilePath) (file_output_folder
    target_format video_codec audio_codec preset : string) (crf : Z)
    (infix : string) : command :=
  [FFMPEG_CMD rt; "-i"; path_str file_path; "-c:v"; video_codec; "-preset";
   preset; "-crf"; py_str_int crf; "-c:a"; audio_codec; "-b:a"; "192k";
   path_join file_output_folder
     (stem file_path ++ "_full_size" ++ infix ++ "." ++ target_format);
   "-y"].

(** One tier of [process_video]: the sized renditions, then full size. *)
Definition render_video_tier (file_path : FilePath) (file_output_folder
    target_format video_codec audio_codec preset : string) (crf : Z)
    (infix indent word : string) (heights_to_process : dict Z)
    (include_full_size : bool) : M unit :=
  when (nonempty heights_to_process)
    (for_each heights_to_process (fun kv =>
       run_command
         (rendition_cmd file_path file_output_folder target_format
                        video_codec audio_codec preset crf infix
                        (fst kv) (snd kv))
         (indent ++ "✓ " ++ word ++ " created " ++ py_str_int (snd kv) ++ "p")
       ;;; ret tt)) ;;;
  when include_full_size
    (run_command
       (full_size_cmd file_path file_output_folder target_format video_codec
                      audio_codec preset crf infix)
       (indent ++ "✓ " ++ word ++ " created full_size") ;;; ret tt).

(** The [try] block of [process_video]. *)
Definition process_video_body (output_dir : string) (file_path : FilePath)
    (profile : Profile) (settings : Settings) : M unit :=
  let target_format := video_format settings in
  let compression_mode := compression_mode settings in
  let selected_sizes_keys := sizes_to_process settings in
  let heights_to_process :=
    dict_select selected_sizes_keys (heights_map profile) in
  custom_sizes <- get_custom_sizes (custom_sizes settings) ;;
  let heights_to_process := dict_update heights_to_process custom_sizes in
  log_message ("  > Selected video sizes: "
               ++ py_repr_list (dict_keys heights_to_process)) info ;;;
  let include_full_size := in_list "full_size" (sizes_to_process settings) in
  let file_output_folder := path_join output_dir (stem file_path) in
  mkdir file_output_folder ;;;
  let video_codec := dict_get_default VIDEO_CODECS target_format "libx264" in
  let audio_codec :=
    if String.eqb target_format "webm" then "libopus" else "aac" in
  log_message ("🎬 Video processing: " ++ name file_path) info ;;;
  run_command (poster_cmd file_path file_output_folder)
              "  ✓ Creating a poster:" ;;;
  let std_crf := get_default (video_standard_crf (config rt)) 23 in
  let std_preset := get_default (video_standard_preset (config rt)) "medium" in
  log_message ("  ↳ Creating standard versions (crf=" ++ py_str_int std_crf
               ++ ", preset=" ++ std_preset ++ ")") info ;;;
  render_video_tier file_path file_output_folder target_format video_codec
    audio_codec std_preset std_crf EmptyString "    " "Version"
    heights_to_process include_full_size ;;;
  when (String.eqb compression_mode "max_compression")
    (let max_crf := get_default (video_max_crf (config rt)) 28 in
     let max_preset := get_default (video_max_preset (config rt)) "slow" in
     log_message ("  ↳ Creating compressed versions (crf="
                  ++ py_str_int max_crf ++ ", preset=" ++ max_preset ++ ")")
                 info ;;;
     render_video_tier file_path file_output_folder target_format video_codec
       audio_codec max_preset max_crf "_compressed" "      "
       "Compressed version" heights_to_process include_full_size) ;;;
  log_message ("✅ Video " ++ name file_path ++ " processed.") info.

(** [process_video(file_path, profile, settings)] *)
Definition process_video (file_path : FilePath) (profile : Profile)
    (settings : Settings) : M unit :=
  match OUTPUT_DIR rt with
  | None =>
      log_message "🚨 Critical ERROR: Working folder for results not set."
                  info
  | Some output_dir =>
      try_except
        (process_video_body output_dir file_path profile settings)
        (fun e =>
           log_message ("🚨 Video processing error " ++ name file_path
                        ++ ": " ++ exn_msg e) info ;;;
           log_message (format_exc rt e) debug)
  end.

(** [start_processing_job(file_path, user_settings)].  The two profile
    arguments are read from a configuration that was loaded and whose
    [image_profiles] and [video_profiles] sections are mappings; with an
    empty [config.yml] or a null section the argument expression raises
    [AttributeError] before any producer is called, which [Config] does
    not represent. *)
Definition start_processing_job (file_path : FilePath)
    (user_settings : Settings) : M unit :=
  let ext := py_lower (suffix file_path) in
  if in_list ext SUPPORTED_IMAGE_FORMATS then
    process_image file_path (image_profile (config rt)) user_settings
  else if in_list ext SUPPORTED_AV_FORMATS then
    has_video <- has_video_stream file_path ;;
    if has_video then
      process_video file_path (video_profile (config rt)) user_settings
    else process_audio_only file_path user_settings
  else
    log_message ("🤔 Skipping an unsupported file: " ++ name file_path) info.

End Program.

Arguments run_command rt cmd log_prefix : simpl never.
Arguments get_custom_sizes rt custom_sizes_str : simpl never.

(* ================================================================== *)
(** * The scheduler's endpoints *)

(** [del d[k]] *)
Fixpoint dict_del {V} (k : string) (d : dict V) : result (dict V) :=
  match d with
  | [] => Raise (mk_exn KeyError (py_repr k))
  | (k', v) :: d' =>
      if String.eqb k' k then Ret d'
      else match dict_del k d' with
           | Ret d'' => Ret ((k', v) :: d'')
           | Raise e => Raise e
           end
  end.

(** [active_futures[job_id].result()] *)
Definition future_result (job_id : string) : M unit :=
  fun w => match dict_index (active_futures w) job_id with
           | Ret f => (outcome f, w)
           | Raise e => (Raise e, w)
           end.

(** [del active_futures[job_id]] *)
Definition del_future (job_id : string) : M unit :=
  fun w => match dict_del job_id (active_futures w) with
           | Ret d => (Ret tt, set_active_futures d w)
           | Raise e => (Raise e, w)
           end.

(** One turn of the loop of [processing_status]. *)
Definition reap (job_id : string) : M unit :=
  try_except (future_result job_id)
    (fun e => log_message ("🚨 Task " ++ job_id ++ " ended with an error: "
                           ++ exn_msg e) info) ;;;
  del_future job_id.

(** The body of [processing_status]; the value is [active_jobs]. *)
Definition processing_status : M Z :=
  fun w =>
    let completed_jobs :=
      map fst (filter (fun kv => done (snd kv)) (active_futures w)) in
    bind (for_each completed_jobs reap)
      (fun _ w' => (Ret (Z.of_nat (List.length (active_futures w'))), w'))
      w.

(** The value of [status]: the log snapshot. *)
Definition status : M (list string) :=
  fun w => (Ret (processing_log w), w).

Definition session_sentinel : string := "--- New processing session ---".

(** [clear_log] *)
Definition clear_log : M unit :=
  fun w => (Ret tt, set_processing_log [session_sentinel] w).

(* ================================================================== *)
(** * Vocabulary of the statements *)

(** ** The log *)

(** The two ways the program touches [processing_log]. *)
Inductive log_call :=
| LogMessage (message level : string)
| ClearLog.

Definition run_log_call (c : log_call) : M unit :=
  match c with
  | LogMessage message level => log_message message level
  | ClearLog => clear_log
  end.

Fixpoint run_log_calls (cs : list log_call) (w : World) : World :=
  match cs with
  | [] => w
  | c :: cs' => run_log_calls cs' (snd (run_log_call c w))
  end.

(** ** Custom sizes *)

(** The tokens of the field that pass the test of the comprehension. *)
Definition digit_tokens (custom_sizes_str : string) : list string :=
  filter py_isdigit (map py_strip (py_split "," custom_sizes_str)).

Definition int_accepts (max_str_digits : nat) (s : string) : bool :=
  match py_int max_str_digits s with Ret _ => true | Raise _ => false end.

Definition custom_label (token : string) : string :=
  "custom_" ++ token ++ "px".

(** A dictionary whose custom entries hold the value of their token. *)
Definition coherent (rt : Runtime) (d : dict Z) : Prop :=
  forall t v, dict_get (custom_label t) d = Some v ->
              py_int (int_max_str_digits rt) t = Ret v.

(** ** Image variants *)

(** The variants one image job can write. *)
Inductive Variant :=
| Resized (size_label : string) (density : Z) (compressed : bool)
| FullSize (compressed : bool).

Definition infix_of (compressed : bool) : string :=
  if compressed then "_compressed" else EmptyString.

Definition artifact_name (base_name target_format : string) (v : Variant)
    : string :=
  match v with
  | Resized size_label density compressed =>
      variant_name base_name size_label density (infix_of compressed)
                   target_format
  | FullSize compressed =>
      full_size_name base_name (infix_of compressed) target_format
  end.

(** The artifacts of one video job: the poster, one rendition per height
    label and tier, one full-size copy per tier. *)
Inductive VideoVariant :=
| Poster
| Rendition (size_label : string) (compressed : bool)
| FullVideo (compressed : bool).

(** The file names [process_video] builds for them. *)
Definition video_artifact_name (base_name target_format : string)
    (v : VideoVariant) : string :=
  match v with
  | Poster => base_name ++ "_poster.webp"
  | Rendition size_label compressed =>
      base_name ++ "_" ++ size_label ++ infix_of compressed ++ "."
      ++ target_format
  | FullVideo compressed =>
      base_name ++ "_full_size" ++ infix_of compressed ++ "."
      ++ target_format
  end.

Fixpoint str_ends_with (tail s : string) : bool :=
  String.eqb tail s
  || match s with
     | EmptyString => false
     | String _ s' => str_ends_with tail s'
     end.

(** A height label that is none of the words the video names are built
    from. *)
Definition plain_label (size_label : string) : bool :=
  negb (String.eqb size_label "full_size")
  && negb (String.eqb size_label "poster")
  && negb (str_ends_with "_compressed" size_label).

Definition plain_variant (v : VideoVariant) : bool :=
  match v with
  | Rendition size_label _ => plain_label size_label
  | _ => true
  end.

(** The artifacts of a video job in the order it produces them. *)
Definition video_tier_variants (labels : list string)
    (include_full_size compressed : bool) : list VideoVariant :=
  (map (fun size_label => Rendition size_label compressed) labels
   ++ (if include_full_size then [FullVideo compressed] else []))%list.

Definition video_variants (labels : list string)
    (include_full_size max_compression : bool) : list VideoVariant :=
  (Poster :: video_tier_variants labels include_full_size false
   ++ (if max_compression
       then video_tier_variants labels include_full_size true else []))%list.

(** The height the specification's formula gives: [h * w / sw] rounded to
    the nearest integer, ties to even as Python's [round] does. *)
Definition spec_rounded_height (h w sw : Z) : Z :=
  let q := (h * w) / sw in
  let r := (h * w) mod sw in
  if 2 * r <? sw then q
  else if sw <? 2 * r then q + 1
  else if Z.even q then q else q + 1.

(** The value of [Image.open(path).convert(mode)]. *)
Definition decoded (rt : Runtime) (path mode : string) : result Image :=
  match image_open rt path with
  | Raise e => Raise e
  | Ret img =>
      match convert_error rt img mode with
      | Some e => Raise e
      | None => Ret {| width := width img; height := height img;
                       mode := mode; content := Converted mode (content img) |}
      end
  end.

(** The path [prepare_image_path] hands to the decoder. *)
Definition image_to_process (rt : Runtime) (file_path : FilePath) : string :=
  if String.eqb (py_lower (suffix file_path)) ".heic" && darwin rt
  then path_str (with_suffix file_path ".temp.png")
  else path_str file_path.

Definition decode_mode (settings : Settings) : string :=
  if String.eqb (image_format settings) "png" then "RGBA" else "RGB".

Definition is_error_line (line : string) : bool := String.prefix "🚨" line.

(** The quality of a tier, with the defaults of [process_image]. *)
Definition tier_quality (rt : Runtime) (compressed : bool) : Z :=
  if compressed then get_default (image_max_quality (config rt)) 75
  else get_default (image_standard_quality (config rt)) 85.

Definition tier_of (v : Variant) : bool :=
  match v with Resized _ _ c => c | FullSize c => c end.

(** What [img.resize((w, h))] holds when it succeeds. *)
Definition resampled (img : Image) (w h : Z) : Image :=
  {| width := w; height := h; mode := mode img;
     content := if (w =? width img) && (h =? height img) then content img
                else Lanczos w h (content img) |}.

(** The file-system events of rendering [img]: the asset's folder, and
    one file per variant. *)
Definition is_rendering (rt : Runtime) (img : Image) (folder base_name
    target_format : string) (sizes_to_process : dict Z) (densities : list Z)
    (ev : fs_event) : Prop :=
  match ev with
  | Mkdir path => path = folder
  | Unlinked _ => False
  | Saved path im format params =>
      exists v,
        path = path_join folder (artifact_name base_name target_format v)
        /\ dict_get target_format FORMAT_MAPPING = Some format
        /\ params = params_for target_format (tier_quality rt (tier_of v))
        /\ match v with
           | FullSize _ => im = img
           | Resized size_label density _ =>
               exists base_width new_height,
                 In (size_label, base_width) sizes_to_process
                 /\ In density densities
                 /\ scaled_height (height img) (base_width * density)
                                  (width img) = Ret new_height
                 /\ im = resampled img (base_width * density) new_height
           end
  end.

(** The file one pass of a resize loop writes: the bitmap [img] resampled
    to the width asked for and the height computed from the dimensions of
    [img], under the name and with the parameters of the tier. *)
Definition variant_event (rt : Runtime) (img : Image) (folder base_name
    target_format : string) (compressed : bool) (size_label : string)
    (base_width density : Z) : list fs_event :=
  match scaled_height (height img) (base_width * density) (width img),
        dict_get target_format FORMAT_MAPPING with
  | Ret new_height, Some format =>
      [Saved (path_join folder
                (variant_name base_name size_label density
                              (infix_of compressed) target_format))
             (resampled img (base_width * density) new_height)
             format
             (params_for target_format (tier_quality rt compressed))]
  | _, _ => []
  end.

(** The files of the resize loops of one tier, in the order of the
    loops. *)
Definition resized_events (rt : Runtime) (img : Image) (folder base_name
    target_format : string) (compressed : bool) (sizes_to_process : dict Z)
    (densities : list Z) : list fs_event :=
  flat_map (fun kv =>
    flat_map (fun density =>
                variant_event rt img folder base_name target_format
                              compressed (fst kv) (snd kv) density)
             densities) sizes_to_process.

(** The full-size file of one tier: the bitmap [img] itself. *)
Definition full_size_event (rt : Runtime) (img : Image) (folder base_name
    target_format : string) (compressed : bool) : list fs_event :=
  match dict_get target_format FORMAT_MAPPING with
  | Some format =>
      [Saved (path_join folder
                (full_size_name base_name (infix_of compressed)
                                target_format))
             img format
             (params_for target_format (tier_quality rt compressed))]
  | None => []
  end.

Definition tier_events (rt : Runtime) (img : Image) (folder base_name
    target_format : string) (compressed : bool) (sizes_to_process : dict Z)
    (densities : list Z) (include_full_size : bool) : list fs_event :=
  (resized_events rt img folder base_name target_format compressed
                  sizes_to_process densities
   ++ (if include_full_size
       then full_size_event rt img folder base_name target_format compressed
       else []))%list.

(** Whenever [m] returns normally it has appended exactly the events
    [evs], and they are [n]. *)
Definition renders (evs : list fs_event) (n : nat) {A} (m : M A) : Prop :=
  forall w a, fst (m w) = Ret a ->
    fs (snd (m w)) = (fs w ++ evs)%list /\ List.length evs = n.

(** [m] only appends to the file system, and only events in [E]. *)
Definition emits (E : fs_event -> Prop) {A} (m : M A) : Prop :=
  forall w, exists evs,
    fs (snd (m w)) = (fs w ++ evs)%list /\ Forall E evs.

(** [m] is blind to the world it starts in: its value and the events it
    appends are the same wherever it runs, and it touches nothing else. *)
Definition oblivious {A} (m : M A) : Prop :=
  exists r evs, forall w, m w = (r, set_fs (fs w ++ evs) w).

(** ** Transcoder invocations *)

(** [run_command] passes [-loglevel error] to the transcoder. *)
Definition with_loglevel (rt : Runtime) (c : command) : command :=
  match c with
  | [] => []
  | c0 :: args =>
      if String.eqb c0 (FFMPEG_CMD rt)
      then ([c0] ++ ["-loglevel"; "error"] ++ args)%list else c
  end.

(** Running commands one after the other until one fails. *)
Fixpoint run_until_failure (rt : Runtime)
    (history : list (command * proc_outcome)) (cmds : list command)
    : list (command * proc_outcome) :=
  match cmds with
  | [] => []
  | c :: rest =>
      let o := subprocess_run rt history c in
      match o with
      | Completed _ _ =>
          (c, o) :: run_until_failure rt (history ++ [(c, o)]) rest
      | Failed _ => [(c, o)]
      end
  end.

(** The file a transcoder command writes: the argument before the
    closing [-y]. *)
Fixpoint output_argument (c : command) : option string :=
  match c with
  | [] => None
  | out :: rest =>
      match rest with
      | [y] => if String.eqb y "-y" then Some out else None
      | _ => output_argument rest
      end
  end.

Definition failed (o : proc_outcome) : bool :=
  match o with Failed _ => true | Completed _ _ => false end.

Definition all_completed (tr : list (command * proc_outcome)) : bool :=
  forallb (fun co => negb (failed (snd co))) tr.

(** [m] runs the commands [cs] in order, stops at the first that fails,
    and raises exactly then; otherwise it returns a value in [V]. *)
Definition runs (rt : Runtime) {A} (cs : list command) (m : M A)
    (V : A -> Prop) : Prop :=
  forall w,
    let tr := run_until_failure rt (invocations w) cs in
    invocations (snd (m w)) = (invocations w ++ tr)%list
    /\ if all_completed tr then exists a, fst (m w) = Ret a /\ V a
       else exists e, fst (m w) = Raise e.

(** The dictionary [get_custom_sizes] returns. *)
Definition custom_sizes_dict (rt : Runtime) (custom_sizes_str : string)
    : dict Z :=
  if str_nonempty custom_sizes_str then
    match custom_sizes_of rt (py_split "," custom_sizes_str) [] with
    | Ret d => d
    | Raise _ => []
    end
  else [].

Definition video_heights (rt : Runtime) (profile : Profile)
    (settings : Settings) : dict Z :=
  dict_update (dict_select (sizes_to_process settings) (heights_map profile))
              (custom_sizes_dict rt (custom_sizes settings)).

Definition video_tier_cmds (rt : Runtime) (file_path : FilePath)
    (folder target_format preset : string) (crf : Z) (infix : string)
    (heights : dict Z) (include_full_size : bool) : list command :=
  let video_codec := dict_get_default VIDEO_CODECS target_format "libx264" in
  let audio_codec :=
    if String.eqb target_format "webm" then "libopus" else "aac" in
  (map (fun kv => rendition_cmd rt file_path folder target_format video_codec
                                audio_codec preset crf infix (fst kv) (snd kv))
       heights
   ++ (if include_full_size
       then [full_size_cmd rt file_path folder target_format video_codec
                           audio_codec preset crf infix]
       else []))%list.

(** Every command [process_video] would run if none failed, in order:
    the poster, the standard tier, the compressed tier. *)
Definition video_cmds (rt : Runtime) (output_dir : string)
    (file_path : FilePath) (profile : Profile) (settings : Settings)
    : list command :=
  let folder := path_join output_dir (stem file_path) in
  let heights := video_heights rt profile settings in
  let full := in_list "full_size" (sizes_to_process settings) in
  let fmt := video_format settings in
  (poster_cmd rt file_path folder
   :: video_tier_cmds rt file_path folder fmt
        (get_default (video_standard_preset (config rt)) "medium")
        (get_default (video_standard_crf (config rt)) 23)
        EmptyString heights full
   ++ (if String.eqb (compression_mode settings) "max_compression"
       then video_tier_cmds rt file_path folder fmt
              (get_default (video_max_preset (config rt)) "slow")
              (get_default (video_max_crf (config rt)) 28)
              "_compressed" heights full
       else []))%list.

(** The line the handler of [process_video] logs. *)
Definition video_error_line (file_path : FilePath) (e : exn) : string :=
  "🚨 Video processing error " ++ name file_path ++ ": " ++ exn_msg e.

(** ** The scheduler over time *)

(** What happens to [active_futures] between two looks at it. *)
Inductive sched_event :=
| Submit (job_id : string) (f : Future)   (* active_futures[job_id] = f *)
| Finish (job_id : string)                (* the job's thread ends *)
| Poll.                                   (* GET /processing_status *)

Definition finish_job (job_id : string) (d : dict Future) : dict Future :=
  map (fun kv => if String.eqb (fst kv) job_id
                 then (fst kv, {| done := true; outcome := outcome (snd kv) |})
                 else kv) d.

Definition run_sched_event (ev : sched_event) (w : World) : World :=
  match ev with
  | Submit job_id f =>
      set_active_futures (dict_set job_id f (active_futures w)) w
  | Finish job_id =>
      set_active_futures (finish_job job_id (active_futures w)) w
  | Poll => snd (processing_status w)
  end.

Fixpoint run_sched_events (evs : list sched_event) (w : World) : World :=
  match evs with
  | [] => w
  | ev :: evs' => run_sched_events evs' (run_sched_event ev w)
  end.

Definition submits (job_id : string) (ev : sched_event) : bool :=
  match ev with Submit j _ => String.eqb j job_id | _ => false end.

(** The line a poll logs for a job that ended with exception [e]. *)
Definition task_error_line (job_id : string) (e : exn) : string :=
  "🚨 Task " ++ job_id ++ " ended with an error: " ++ exn_msg e.

Definition in_flight (d : dict Future) : dict Future :=
  filter (fun kv => negb (done (snd kv))) d.

(** The lines one poll logs: one per finished job that raised. *)
Definition reaped_errors (d : dict Future) : list string :=
  flat_map (fun kv => if done (snd kv)
                      then match outcome (snd kv) with
                           | Raise e => [task_error_line (fst kv) e]
                           | Ret _ => []
                           end
                      else []) d.

Definition str_count (x : string) (l : list string) : nat :=
  count_occ string_dec l x.

(** [d] without the key [k]. *)
Definition dict_remove {V} (k : string) (d : dict V) : dict V :=
  filter (fun kv => negb (String.eqb (fst kv) k)) d.

(** The line, if any, a poll logs when it reaps [job_id]. *)
Definition reap_line (d : dict Future) (job_id : string) : list string :=
  match dict_get job_id d with
  | Some f => match outcome f with
              | Raise e => [task_error_line job_id e]
              | Ret _ => []
              end
  | None => []
  end.

(** Job identifiers are [str(uuid.uuid4())]: 36 characters. *)
Definition uuid_shaped (job_id : string) : Prop := String.length job_id = 36%nat.

Definition submits_shaped (ev : sched_event) : Prop :=
  match ev with Submit j _ => uuid_shaped j | _ => True end.

(** What holds of [active_futures] once job [j] has been reaped. *)
Definition reaped (j : string) (w : World) : Prop :=
  NoDup (dict_keys (active_futures w))
  /\ Forall uuid_shaped (dict_keys (active_futures w))
  /\ ~ In j (dict_keys (active_futures w)).

(** ** Sample inputs *)

Definition sample_config : Config :=
  {| image_profile := {| sizes := [("thumb", 100)]; heights_map := [] |};
     video_profile := {| sizes := []; heights_map := [("720p", 720)] |};
     image_standard_quality := None;
     image_max_quality := None;
     video_standard_crf := None;
     video_standard_preset := None;
     video_max_crf := None;
     video_max_preset := None |}.

(** A runtime around given tools and a given decoder; the file system
    never refuses. *)
Definition sample_runtime
    (run : list (command * proc_outcome) -> command -> proc_outcome)
    (open : string -> result Image) : Runtime :=
  {| FFMPEG_CMD := "bin/ffmpeg";
     FFPROBE_CMD := "bin/ffprobe";
     darwin := false;
     int_max_str_digits := 4300;
     OUTPUT_DIR := Some "output";
     config := sample_config;
     subprocess_run := run;
     image_open := open;
     convert_error := fun _ _ => None;
     resize_error := fun _ _ _ => None;
     save_error := fun _ => None;
     mkdir_error := fun _ => None;
     path_exists := fun _ _ => false;
     format_exc := fun e => "Traceback (most recent call last): " ++ exn_msg e
  |}.

Definition tool_ok : list (command * proc_outcome) -> command -> proc_outcome :=
  fun _ _ => Completed EmptyString EmptyString.

Definition tool_crash : list (command * proc_outcome) -> command -> proc_outcome :=
  fun _ c =>
    Failed (Exn CalledProcessError
              ("Command " ++ py_repr_list c
               ++ " returned non-zero exit status 1.")
              "Invalid data found when processing input").

(** A decoder that sees a [sw] by [sh] picture in every file. *)
Definition open_ok (sw sh : Z) : string -> result Image :=
  fun path => Ret {| width := sw; height := sh; mode := "RGB";
                     content := Decoded path |}.

Definition open_unidentified : string -> result Image :=
  fun path => Raise (mk_exn UnidentifiedImageError
                       ("cannot identify image file " ++ py_repr path)).

Definition sample_settings (sizes : list string) (custom : string)
    (mode : string) : Settings :=
  {| image_format := "jpg";
     video_format := "mp4";
     compression_mode := mode;
     custom_sizes := custom;
     sizes_to_process := sizes;
     include_retina := false |}.

Definition sample_video : FilePath :=
  {| parent := "source"; stem := "clip"; suffix := ".mp4" |}.

Definition sample_photo : FilePath :=
  {| parent := "source"; stem := "photo"; suffix := ".png" |}.

Definition sample_audio : FilePath :=
  {| parent := "source"; stem := "song"; suffix := ".M4A" |}.

Definition dq : string := String "034" EmptyString.

(** Probe output cut short: an object that is opened and never closed. *)
Definition truncated_probe_output : string :=
  "{" ++ dq ++ "streams" ++ dq ++ ": [{" ++ dq ++ "codec_type" ++ dq ++ ": "
  ++ dq ++ "video".

(** A runtime whose probe exits with status 0 after writing that much. *)
Definition truncated_probe_runtime : Runtime :=
  sample_runtime (fun _ _ => Completed truncated_probe_output EmptyString)
                 (open_ok 1000 500).

(** A job that ended with an exception, not yet polled. *)
Definition failed_job : Future :=
  {| done := true;
     outcome := Raise (mk_exn TypeError "'NoneType' object has no attribute 'get'") |}.

Definition running_job : Future := {| done := false; outcome := Ret tt |}.

Definition sample_job_id : string := "1b4e28ba-2fa1-4d3b-a3f5-ef19b5a7633b".

Definition other_job_id : string := "7c9e6679-7425-40de-944b-e07fc1f90ae7".

Definition sample_pool : World :=
  set_active_futures [(sample_job_id, failed_job); (other_job_id, running_job)]
                     empty_world.

(** A 1000 by 500 bitmap as [process_image] holds it after decoding. *)
Definition sample_image : Image :=
  {| width := 1000; height := 500; mode := "RGB";
     content := Converted "RGB" (Decoded "source/photo.png") |}.

(** A runtime whose decoder sees a 3 by 2 picture. *)
Definition small_source_runtime : Runtime := sample_runtime tool_ok (open_ok 3 2).

Definition crashing_runtime : Runtime :=
  sample_runtime tool_crash (open_ok 1000 500).

Definition working_runtime : Runtime :=
  sample_runtime tool_ok (open_ok 1000 500).

Definition video_settings : Settings :=
  sample_settings ["720p"; "full_size"] EmptyString "standard".

(** A video profile with a height labelled like the full-size copy, and
    a request that selects it. *)
Definition full_size_profile : Profile :=
  {| sizes := []; heights_map := [("full_size", 1080)] |}.

Definition full_size_settings : Settings :=
  sample_settings ["full_size"] EmptyString "standard".

(** ** Vocabulary of the further properties *)

(** A runtime in which the working folder was never chosen. *)
Definition sample_runtime_without_output
    (run : list (command * proc_outcome) -> command -> proc_outcome)
    : Runtime :=
  {| FFMPEG_CMD := "bin/ffmpeg";
     FFPROBE_CMD := "bin/ffprobe";
     darwin := false;
     int_max_str_digits := 4300;
     OUTPUT_DIR := None;
     config := sample_config;
     subprocess_run := run;
     image_open := open_ok 1000 500;
     convert_error := fun _ _ => None;
     resize_error := fun _ _ _ => None;
     save_error := fun _ => None;
     mkdir_error := fun _ => None;
     path_exists := fun _ _ => false;
     format_exc := fun e => "Traceback (most recent call last): " ++ exn_msg e
  |}.



(** A transcoder that exits with status 1 after two diagnostic lines and
    a trailing line break. *)
Definition two_line_runtime : Runtime :=
  sample_runtime
    (fun _ _ =>
       Failed (Exn CalledProcessError "Command returned non-zero exit status 1."
                 ("[mov] moov atom not found" ++ nl ++ "in.mp4: Invalid data"
                  ++ nl)))
    (open_ok 1000 500).

(** A macOS runtime in which a file exists once a command has named it. *)
Definition mac_runtime
    (run : list (command * proc_outcome) -> command -> proc_outcome)
    : Runtime :=
  {| FFMPEG_CMD := "bin/ffmpeg";
     FFPROBE_CMD := "bin/ffprobe";
     darwin := true;
     int_max_str_digits := 4300;
     OUTPUT_DIR := Some "output";
     config := sample_config;
     subprocess_run := run;
     image_open := open_ok 1000 500;
     convert_error := fun _ _ => None;
     resize_error := fun _ _ _ => None;
     save_error := fun _ => None;
     mkdir_error := fun _ => None;
     path_exists := fun hist p => existsb (fun inv => in_list p (fst inv)) hist;
     format_exc := fun e => "Traceback (most recent call last): " ++ exn_msg e
  |}.

Definition sample_heic : FilePath :=
  {| parent := "source"; stem := "IMG_0001"; suffix := ".HEIC" |}.

(** Whenever [m] returns normally, [line] is the last line of the log. *)
Definition closes (line : string) {A} (m : M A) : Prop :=
  forall w a, fst (m w) = Ret a ->
    exists pre, processing_log (snd (m w)) = (pre ++ [line])%list.

(** Events inside the folder of one asset: the folder itself, files in
    it in the format asked for, and the removal of the intermediate. *)
Definition confined (folder temp target_format : string) (ev : fs_event)
    : Prop :=
  match ev with
  | Mkdir path => path = folder
  | Unlinked path => path = temp
  | Saved path _ format _ =>
      (exists file_name, path = path_join folder file_name)
      /\ dict_get target_format FORMAT_MAPPING = Some format
  end.

(** The line that closes the log of an image job. *)
Definition image_done_line (file_path : FilePath) : string :=
  "✅ Done: " ++ name file_path.

(** The file an event writes. *)
Definition written (ev : fs_event) : list string :=
  match ev with Saved path _ _ _ => [path] | _ => [] end.

(** The files of one tier of an image job, in the order of the loops. *)
Definition tier_paths (folder base_name target_format infix : string)
    (sizes_to_process : dict Z) (densities : list Z)
    (include_full_size : bool) : list string :=
  (flat_map (fun kv =>
     map (fun density =>
            path_join folder
              (variant_name base_name (fst kv) density infix target_format))
         densities) sizes_to_process
   ++ (if include_full_size
       then [path_join folder (full_size_name base_name infix target_format)]
       else []))%list.

(** The files of an image job: the standard tier, then the compressed
    one. *)
Definition image_paths (folder base_name target_format compression_mode
    : string) (sizes_to_process : dict Z) (densities : list Z)
    (include_full_size : bool) : list string :=
  (tier_paths folder base_name target_format EmptyString sizes_to_process
              densities include_full_size
   ++ (if String.eqb compression_mode "max_compression"
       then tier_paths folder base_name target_format "_compressed"
                       sizes_to_process densities include_full_size
       else []))%list.

(** [densities] of [process_image]. *)
Definition image_densities (settings : Settings) : list Z :=
  if include_retina settings then [1; 2] else [1].

(** Whenever [m] returns normally, it has written the files [paths], in
    this order, and no other. *)
Definition saves (paths : list string) {A} (m : M A) : Prop :=
  forall w a, fst (m w) = Ret a ->
    exists evs, fs (snd (m w)) = (fs w ++ evs)%list
                /\ flat_map written evs = paths.

(** [m] never returns normally. *)
Definition never_returns {A} (m : M A) : Prop :=
  forall w, exists e, fst (m w) = Raise e.

(** [m] only appends to the record of tool invocations, and only
    invocations in [P]. *)
Definition invokes (P : command * proc_outcome -> Prop) {A} (m : M A)
    : Prop :=
  forall w, exists tr,
    invocations (snd (m w)) = (invocations w ++ tr)%list /\ Forall P tr.

(** No path separator in [s]: joined to a folder, [s] names an entry of
    that folder. *)
Definition separator_free (s : string) : bool :=
  negb (str_existsb (Ascii.eqb "/") s).

(** The invocation writes a file of [folder]: its output is [folder]
    joined with one path component. *)
Definition writes_into (folder : string) (co : command * proc_outcome)
    : Prop :=
  exists file_name,
    output_argument (fst co) = Some (path_join folder file_name)
    /\ separator_free file_name = true.

(** The messages a sequence of calls logs at the [info] level. *)
Definition info_messages (calls : list log_call) : list string :=
  flat_map (fun c => match c with
                     | LogMessage message level =>
                         if String.eqb level info then [message] else []
                     | ClearLog => []
                     end) calls.

Definition is_clear (c : log_call) : bool :=
  match c with ClearLog => true | LogMessage _ _ => false end.

(** The lines around the conversion of a HEIC source. *)
Definition heic_start_line (file_path : FilePath) : string :=
  "  > Conversion HEIC -> PNG (via sips): " ++ name file_path.

Definition heic_failed_line (file_path : FilePath) : string :=
  "🚨 Error: Failed to convert'" ++ name file_path ++ "'.".

(** A converter that rejects its input. *)
Definition sips_fails : list (command * proc_outcome) -> command
    -> proc_outcome :=
  fun _ _ =>
    Failed (Exn CalledProcessError "Command returned non-zero exit status 1."
              "Error: Cannot extract image from file.").

(** The sizes [process_image] renders: the selected presets, then the
    custom sizes. *)
Definition image_sizes (rt : Runtime) (profile : Profile)
    (settings : Settings) : dict Z :=
  dict_update (dict_select (sizes_to_process settings) (sizes profile))
              (custom_sizes_dict rt (custom_sizes settings)).

(** The intermediate file of a HEIC source. *)
Definition temp_png (file_path : FilePath) : string :=
  path_str (with_suffix file_path ".temp.png").

(** Whether [prepare_image_path] converts the source first. *)
Definition converts_heic (rt : Runtime) (file_path : FilePath) : bool :=
  String.eqb (py_lower (suffix file_path)) ".heic" && darwin rt.

(** The conversion command of [prepare_image_path]. *)
Definition sips_cmd (file_path : FilePath) : command :=
  [SIPS_CMD; "-s"; "format"; "png"; path_str file_path; "--out";
   temp_png file_path].

Fixpoint str_last (s : string) : option ascii :=
  match s with
  | EmptyString => None
  | String c s' => match str_last s' with Some c' => Some c' | None => Some c end
  end.

(** The lines that close the log of an audio job. *)
Definition audio_done_line (file_path : FilePath) : string :=
  "✅ Audio " ++ name file_path ++ " completed.".

Definition audio_error_line (file_path : FilePath) (e : exn) : string :=
  "🚨 Audio processing error " ++ name file_path ++ ": " ++ exn_msg e.

Definition video_done_line (file_path : FilePath) : string :=
  "✅ Video " ++ name file_path ++ " processed.".

(** The line [run_command] logs for a non-zero exit status. *)
Definition diagnostic_line (log_prefix d : string) : string :=
  log_prefix ++ " 🚨 ERROR: " ++ d.

(* ================================================================== *)
(** * Strings and dictionaries: basic facts *)

Lemma append_assoc (a b c : string) : (a ++ b) ++ c = a ++ (b ++ c).
Proof. induction a; simpl; congruence. Qed.

Lemma append_inv_head (s a b : string) : s ++ a = s ++ b -> a = b.
Proof. induction s; simpl; intros H; [assumption | injection H; auto]. Qed.

Lemma chars_append (a b : string) :
  list_ascii_of_string (a ++ b)
  = (list_ascii_of_string a ++ list_ascii_of_string b)%list.
Proof. induction a; simpl; congruence. Qed.

Lemma chars_inj (a b : string) :
  list_ascii_of_string a = list_ascii_of_string b -> a = b.
Proof.
  intros H.
  rewrite <- (string_of_list_ascii_of_string a).
  rewrite <- (string_of_list_ascii_of_string b).
  now rewrite H.
Qed.

Lemma append_inv_tail (s a b : string) : a ++ s = b ++ s -> a = b.
Proof.
  intros H. apply chars_inj.
  apply (f_equal list_ascii_of_string) in H.
  rewrite !chars_append in H.
  now apply app_inv_tail in H.
Qed.

(** Two texts split at the same length are split alike. *)
Lemma append_eq_length (a b c d : string) :
  String.length a = String.length c -> a ++ b = c ++ d -> a = c /\ b = d.
Proof.
  revert c. induction a as [|x a IH]; intros [|y c] Hl H; simpl in *;
    try discriminate.
  - auto.
  - injection H as -> H. injection Hl as Hl.
    destruct (IH c Hl H) as [-> ->]. auto.
Qed.

(** A separator absent from both right-hand parts marks one split. *)
Lemma split_at_last {A} (a : A) (l1 l2 d1 d2 : list A) :
  ~ In a d1 -> ~ In a d2 ->
  (l1 ++ a :: d1 = l2 ++ a :: d2)%list -> l1 = l2 /\ d1 = d2.
Proof.
  revert l2. induction l1 as [|x l1 IH]; intros [|y l2] H1 H2 H; simpl in *.
  - injection H as H. auto.
  - injection H as Hx H. subst. exfalso. apply H1.
    rewrite in_app_iff. right. now left.
  - injection H as Hx H. subst. exfalso. apply H2.
    rewrite in_app_iff. right. now left.
  - injection H as Hx H. subst. destruct (IH l2 H1 H2 H) as [-> ->]. auto.
Qed.

Lemma dict_get_set {V} (k k' : string) (v : V) (d : dict V) :
  dict_get k (dict_set k' v d)
  = if String.eqb k' k then Some v else dict_get k d.
Proof.
  induction d as [|[k0 v0] d IH]; simpl.
  - reflexivity.
  - destruct (String.eqb k0 k') eqn:E0; simpl.
    + apply String.eqb_eq in E0. subst k0.
      destruct (String.eqb k' k); reflexivity.
    + destruct (String.eqb k0 k) eqn:E1.
      * apply String.eqb_eq in E1. subst k0.
        rewrite String.eqb_sym, E0. reflexivity.
      * exact IH.
Qed.

Lemma dict_keys_set {V} (k : string) (v : V) (d : dict V) :
  dict_keys (dict_set k v d)
  = if in_list k (dict_keys d) then dict_keys d
    else (dict_keys d ++ [k])%list.
Proof.
  unfold dict_keys.
  induction d as [|[k0 v0] d IH]; simpl.
  - reflexivity.
  - rewrite (String.eqb_sym k k0).
    destruct (String.eqb k0 k) eqn:E; simpl.
    + reflexivity.
    + rewrite IH. destruct (in_list k (map fst d)); reflexivity.
Qed.

Lemma in_list_spec (x : string) (xs : list string) :
  in_list x xs = true <-> In x xs.
Proof.
  induction xs as [|y ys IH]; simpl.
  - split; [discriminate | tauto].
  - rewrite orb_true_iff, IH, String.eqb_eq. intuition congruence.
Qed.

Lemma dict_set_NoDup {V} (k : string) (v : V) (d : dict V) :
  NoDup (dict_keys d) -> NoDup (dict_keys (dict_set k v d)).
Proof.
  intros H. rewrite dict_keys_set.
  destruct (in_list k (dict_keys d)) eqn:E; [assumption|].
  apply NoDup_app; [assumption | repeat constructor; simpl; tauto |].
  intros x Hx [<-|[]]. apply in_list_spec in Hx. congruence.
Qed.

(* ================================================================== *)
(** * Artifact names *)

Lemma uint_chars_digits (d : Decimal.uint) :
  Forall (fun c => c <> "@"%char)
         (list_ascii_of_string (NilEmpty.string_of_uint d)).
Proof.
  induction d; simpl; constructor; try assumption; discriminate.
Qed.

Lemma py_str_int_no_at (n : Z) :
  ~ In "@"%char (list_ascii_of_string (py_str_int n)).
Proof.
  unfold py_str_int. intros H.
  assert (F : Forall (fun c => c <> "@"%char)
                (list_ascii_of_string (NilEmpty.string_of_int (Z.to_int n)))).
  { destruct (Z.to_int n); simpl.
    - apply uint_chars_digits.
    - constructor; [discriminate | apply uint_chars_digits]. }
  rewrite Forall_forall in F. exact (F _ H eq_refl).
Qed.

Lemma py_str_int_inj (n m : Z) : py_str_int n = py_str_int m -> n = m.
Proof.
  unfold py_str_int. intros H. apply to_int_inj.
  assert (E : Some (Z.to_int n) = Some (Z.to_int m)).
  { rewrite <- !NilEmpty.isi. now rewrite H. }
  now injection E.
Qed.

(** The part of a resized variant's name that varies within one job. *)
Lemma variant_name_shape (base label : string) (d : Z) (c : bool)
    (fmt : string) :
  variant_name base label d (infix_of c) fmt
  = (base ++ "_") ++ (label ++ "@" ++ py_str_int d ++ "x" ++ infix_of c)
    ++ ("." ++ fmt).
Proof. unfold variant_name. now rewrite !append_assoc. Qed.

Lemma full_size_name_shape (base : string) (c : bool) (fmt : string) :
  full_size_name base (infix_of c) fmt
  = (base ++ "_") ++ ("full_size" ++ infix_of c) ++ ("." ++ fmt).
Proof. unfold full_size_name. now rewrite !append_assoc. Qed.

Lemma middle_inj (base fmt a b : string) :
  (base ++ "_") ++ a ++ ("." ++ fmt) = (base ++ "_") ++ b ++ ("." ++ fmt) ->
  list_ascii_of_string a = list_ascii_of_string b.
Proof.
  intros H. apply append_inv_head in H. apply append_inv_tail in H.
  now rewrite H.
Qed.

Lemma resized_middle_inj (l1 l2 : list ascii) (d1 d2 : string)
    (c1 c2 : bool) :
  ~ In "@"%char (list_ascii_of_string d1) ->
  ~ In "@"%char (list_ascii_of_string d2) ->
  (l1 ++ "@"%char :: list_ascii_of_string d1
      ++ "x"%char :: list_ascii_of_string (infix_of c1)
   = l2 ++ "@"%char :: list_ascii_of_string d2
      ++ "x"%char :: list_ascii_of_string (infix_of c2))%list ->
  l1 = l2 /\ d1 = d2 /\ c1 = c2.
Proof.
  intros N1 N2 H.
  assert (Hc : c1 = c2).
  { destruct c1, c2; try reflexivity; exfalso; simpl in H.
    - apply (f_equal (@rev ascii)) in H.
      rewrite !rev_app_distr in H. simpl in H.
      rewrite !rev_app_distr in H. simpl in H. discriminate.
    - apply (f_equal (@rev ascii)) in H.
      rewrite !rev_app_distr in H. simpl in H.
      rewrite !rev_app_distr in H. simpl in H. discriminate. }
  subst c2.
  assert (H' : (l1 ++ "@"%char :: list_ascii_of_string d1
                = l2 ++ "@"%char :: list_ascii_of_string d2)%list).
  { change (?a ++ ?x :: ?b ++ ?c)%list with (a ++ (x :: b) ++ c)%list in H.
    rewrite !app_assoc in H. now apply app_inv_tail in H. }
  destruct (split_at_last _ _ _ _ _ N1 N2 H') as [-> E].
  apply chars_inj in E. auto.
Qed.

Lemma artifact_name_inj (base fmt : string) (v1 v2 : Variant) :
  artifact_name base fmt v1 = artifact_name base fmt v2 -> v1 = v2.
Proof.
  destruct v1 as [l1 d1 c1 | c1], v2 as [l2 d2 c2 | c2]; simpl;
    rewrite ?variant_name_shape, ?full_size_name_shape; intros H;
    apply middle_inj in H; rewrite ?chars_append in H.
  - simpl in H.
    destruct (resized_middle_inj _ _ _ _ _ _
                (py_str_int_no_at d1) (py_str_int_no_at d2) H)
      as (El & Ed & Ec).
    apply chars_inj in El. apply py_str_int_inj in Ed. congruence.
  - exfalso. apply (f_equal (@rev ascii)) in H. simpl in H.
    rewrite !rev_app_distr in H. simpl in H.
    rewrite !rev_app_distr in H. simpl in H.
    destruct c1, c2; simpl in H; discriminate.
  - exfalso. apply (f_equal (@rev ascii)) in H. simpl in H.
    rewrite !rev_app_distr in H. simpl in H.
    rewrite !rev_app_distr in H. simpl in H.
    destruct c1, c2; simpl in H; discriminate.
  - destruct c1, c2; simpl in H; try reflexivity; discriminate.
Qed.

(* ================================================================== *)
(** * What the primitives touch *)

Lemma log_message_returns (message level : string) (w : World) :
  fst (log_message message level w) = Ret tt.
Proof.
  unfold log_message.
  destruct (String.eqb level "info"); [reflexivity|].
  destruct (String.eqb level "debug"); reflexivity.
Qed.

Lemma log_message_log (message level : string) (w : World) :
  processing_log (snd (log_message message level w))
  = if String.eqb level "info" then (processing_log w ++ [message])%list
    else processing_log w.
Proof.
  unfold log_message.
  destruct (String.eqb level "info"); [reflexivity|].
  destruct (String.eqb level "debug"); reflexivity.
Qed.

Lemma log_message_rest (message level : string) (w : World) :
  let w' := snd (log_message message level w) in
  fs w' = fs w /\ invocations w' = invocations w
  /\ active_futures w' = active_futures w.
Proof.
  unfold log_message.
  destruct (String.eqb level "info"); [simpl; auto|].
  destruct (String.eqb level "debug"); simpl; auto.
Qed.

(** An info-level message: the value and the world it leaves. *)
Lemma log_message_info (message : string) (w : World) :
  log_message message info w
  = (Ret tt, set_processing_log (processing_log w ++ [message])
               (set_console (console w ++ [message]) w)).
Proof. reflexivity. Qed.

Lemma log_message_debug (message : string) (w : World) :
  log_message message debug w
  = (Ret tt, set_console (console w ++ [message]) w).
Proof. reflexivity. Qed.

(* ================================================================== *)
(** * The processing log *)

Lemma run_log_calls_lines (cs : list log_call) (w : World) (line : string) :
  In line (processing_log (run_log_calls cs w)) ->
  In line (processing_log w) \/ line = session_sentinel
  \/ In (LogMessage line info) cs.
Proof.
  revert w. induction cs as [|c cs IH]; intros w H; simpl in *.
  - now left.
  - destruct (IH _ H) as [Hin | [Hs | Hc]]; [| now auto | now auto].
    destruct c as [message level|]; simpl in Hin.
    + rewrite log_message_log in Hin.
      destruct (String.eqb level "info") eqn:E; [| now left].
      apply String.eqb_eq in E. subst level.
      apply in_app_iff in Hin. destruct Hin as [Hin | [<- | []]].
      * now left.
      * right. right. now left.
    + destruct Hin as [<- | []]. right. now left.
Qed.

(* ================================================================== *)
(** * Custom sizes *)

Section CustomSizes.

Variable rt : Runtime.

Let accepts := int_accepts (int_max_str_digits rt).

Lemma custom_label_inj (s t : string) :
  custom_label s = custom_label t -> s = t.
Proof.
  unfold custom_label. intros H.
  apply append_inv_head in H. now apply append_inv_tail in H.
Qed.

(** The comprehension fails exactly when [int] rejects a token that the
    digit test let through, and then with a [ValueError]. *)
Lemma custom_sizes_of_result (tokens : list string) (acc : dict Z) :
  if forallb accepts (filter py_isdigit (map py_strip tokens))
  then exists d, custom_sizes_of rt tokens acc = Ret d
  else exists e, custom_sizes_of rt tokens acc = Raise e
                 /\ exn_cls e = ValueError.
Proof.
  revert acc. induction tokens as [|s rest IH]; intros acc; simpl.
  - eauto.
  - destruct (py_isdigit (py_strip s)) eqn:D; simpl; [| apply IH].
    unfold accepts at 1, int_accepts.
    destruct (py_int (int_max_str_digits rt) (py_strip s)) as [v|e] eqn:E;
      simpl.
    + apply IH.
    + exists e. split; [reflexivity|].
      unfold py_int in E.
      destruct (_ && _) in E; [discriminate | now injection E as <-].
Qed.

Lemma custom_sizes_of_entries (tokens : list string) (acc d : dict Z) :
  coherent rt acc ->
  custom_sizes_of rt tokens acc = Ret d ->
  coherent rt d
  /\ (forall t v, dict_get (custom_label t) acc = Some v ->
                  dict_get (custom_label t) d = Some v)
  /\ (forall t, In t (filter py_isdigit (map py_strip tokens)) ->
        exists v, py_int (int_max_str_digits rt) t = Ret v
                  /\ dict_get (custom_label t) d = Some v)
  /\ (forall k v, dict_get k d = Some v ->
        dict_get k acc = Some v
        \/ exists t, In t (filter py_isdigit (map py_strip tokens))
                     /\ k = custom_label t
                     /\ py_int (int_max_str_digits rt) t = Ret v).
Proof.
  revert acc. induction tokens as [|s rest IH]; intros acc Hc H; simpl in *.
  - injection H as <-. repeat split; auto. intros t [].
  - destruct (py_isdigit (py_strip s)) eqn:D; [| now apply IH].
    destruct (py_int (int_max_str_digits rt) (py_strip s)) as [v0|e] eqn:E;
      [| discriminate].
    fold (custom_label (py_strip s)) in H.
    assert (Hc' : coherent rt (dict_set (custom_label (py_strip s)) v0 acc)).
    { intros t v Hg. rewrite dict_get_set in Hg.
      destruct (String.eqb _ _) eqn:Q.
      - apply String.eqb_eq, custom_label_inj in Q. subst t. congruence.
      - now apply Hc. }
    destruct (IH _ Hc' H) as (C & Keep & All & Only).
    repeat split.
    + exact C.
    + intros t v Hg. apply Keep. rewrite dict_get_set.
      destruct (String.eqb _ _) eqn:Q; [| assumption].
      apply String.eqb_eq, custom_label_inj in Q. subst t.
      apply Hc in Hg. congruence.
    + intros t [<- | Hin].
      * exists v0. split; [assumption|]. apply Keep.
        rewrite dict_get_set, String.eqb_refl. reflexivity.
      * now apply All.
    + intros k v Hg. destruct (Only k v Hg) as [Hg' | (t & Hin & -> & Ht)].
      * rewrite dict_get_set in Hg'.
        destruct (String.eqb _ _) eqn:Q.
        -- apply String.eqb_eq in Q. subst k. injection Hg' as <-.
           right. exists (py_strip s). simpl. auto.
        -- now left.
      * right. exists t. simpl. auto.
Qed.

(** [get_custom_sizes] never raises; it returns [custom_sizes_dict]. *)
Lemma get_custom_sizes_value (custom_sizes_str : string) (w : World) :
  fst (get_custom_sizes rt custom_sizes_str w)
  = Ret (custom_sizes_dict rt custom_sizes_str).
Proof.
  unfold get_custom_sizes, custom_sizes_dict.
  destruct (str_nonempty custom_sizes_str); [| reflexivity].
  pose proof (custom_sizes_of_result (py_split "," custom_sizes_str) [])
    as R.
  destruct (forallb _ _).
  - destruct R as [d ->]. reflexivity.
  - destruct R as (e & -> & ->). reflexivity.
Qed.

Lemma get_custom_sizes_world (custom_sizes_str : string) (w : World) :
  let w' := snd (get_custom_sizes rt custom_sizes_str w) in
  fs w' = fs w /\ invocations w' = invocations w
  /\ active_futures w' = active_futures w
  /\ processing_log w'
     = if forallb accepts (digit_tokens custom_sizes_str)
       then processing_log w
       else (processing_log w
             ++ ["🚨 Error: Invalid custom size format."])%list.
Proof.
  unfold get_custom_sizes, digit_tokens.
  destruct (str_nonempty custom_sizes_str) eqn:N.
  - pose proof (custom_sizes_of_result (py_split "," custom_sizes_str) [])
      as R.
    destruct (forallb _ _).
    + destruct R as [d ->]. simpl. auto.
    + destruct R as (e & -> & ->). simpl. auto.
  - destruct custom_sizes_str; [| discriminate]. simpl.
    unfold py_isdigit. simpl. auto.
Qed.

End CustomSizes.

(* ================================================================== *)
(** * Sub-processes *)

Section SubProcesses.

Variable rt : Runtime.

Lemma run_command_effect (c0 : string) (args : list string)
    (log_prefix : string) (w : World) :
  let c := with_loglevel rt (c0 :: args) in
  let o := subprocess_run rt (invocations w) c in
  let r := run_command rt (c0 :: args) log_prefix w in
  invocations (snd r) = (invocations w ++ [(c, o)])%list
  /\ fs (snd r) = fs w
  /\ active_futures (snd r) = active_futures w
  /\ match o with
     | Completed stdout _ =>
         fst r = Ret stdout
         /\ processing_log (snd r)
            = (processing_log w ++ [(log_prefix ++ " ✓ Completed")%string])%list
     | Failed e => exists e', fst r = Raise e'
     end.
Proof.
  unfold run_command, with_loglevel, subprocess_run_checked, bind,
    record_invocation, ret. simpl.
  set (c := if String.eqb c0 (FFMPEG_CMD rt) then _ else _).
  destruct (subprocess_run rt (invocations w) c) as [out err | e]; simpl.
  - auto.
  - destruct (exn_cls e); simpl; unfold raise, lift;
      try destruct (last_diagnostic (exn_stderr e)); simpl;
      repeat split; eauto.
Qed.

Lemma run_until_failure_app (h : list (command * proc_outcome))
    (cs1 cs2 : list command) :
  run_until_failure rt h (cs1 ++ cs2)
  = let t1 := run_until_failure rt h cs1 in
    if all_completed t1
    then (t1 ++ run_until_failure rt (h ++ t1) cs2)%list else t1.
Proof.
  revert h. induction cs1 as [|c cs1 IH]; intros h; simpl.
  - now rewrite app_nil_r.
  - destruct (subprocess_run rt h c) as [out err | e] eqn:E; simpl.
    + rewrite IH. simpl. destruct (all_completed _); [| reflexivity].
      now rewrite <- app_assoc.
    + reflexivity.
Qed.

Lemma runs_pure {A} (m : M A) (V : A -> Prop) :
  (forall w, invocations (snd (m w)) = invocations w
             /\ exists a, fst (m w) = Ret a /\ V a) ->
  runs rt [] m V.
Proof.
  intros H w. simpl. destruct (H w) as [Hi Hr].
  rewrite app_nil_r. auto.
Qed.

Lemma runs_bind {A B} (cs1 cs2 : list command) (m : M A) (k : A -> M B)
    (V : A -> Prop) (V2 : B -> Prop) :
  runs rt cs1 m V -> (forall a, V a -> runs rt cs2 (k a) V2) ->
  runs rt (cs1 ++ cs2) (bind m k) V2.
Proof.
  intros Hm Hk w. simpl. rewrite run_until_failure_app. simpl.
  destruct (Hm w) as [Hi Hr]. unfold bind.
  destruct (all_completed (run_until_failure rt (invocations w) cs1)) eqn:C.
  - destruct Hr as (a & Ha & HV).
    destruct (m w) as [r w']; simpl in *. subst r.
    destruct (Hk a HV w') as [Hi' Hr']. rewrite Hi in Hi', Hr'.
    rewrite Hi', app_assoc. split; [reflexivity|].
    unfold all_completed in *. rewrite forallb_app, C. simpl. exact Hr'.
  - destruct Hr as (e & He).
    destruct (m w) as [r w']; simpl in *. subst r. simpl.
    rewrite C. eauto.
Qed.

Lemma runs_weaken {A} (cs : list command) (m : M A) (V V' : A -> Prop) :
  runs rt cs m V -> (forall a, V a -> V' a) -> runs rt cs m V'.
Proof.
  intros H HV w. destruct (H w) as [Hi Hr]. split; [assumption|].
  simpl in *. destruct (all_completed _); [| assumption].
  destruct Hr as (a & Ha & Hv). eauto.
Qed.

Lemma runs_log_message (message level : string) :
  runs rt [] (log_message message level) (fun _ => True).
Proof.
  apply runs_pure. intros w. split.
  - apply log_message_rest.
  - exists tt. split; [apply log_message_returns | exact I].
Qed.

Lemma runs_ret {A} (a : A) : runs rt [] (ret a) (fun x => x = a).
Proof. apply runs_pure. intros w. simpl. eauto. Qed.

Lemma runs_run_command (c0 : string) (args : list string)
    (log_prefix : string) :
  runs rt [with_loglevel rt (c0 :: args)]
       (run_command rt (c0 :: args) log_prefix) (fun _ => True).
Proof.
  intros w.
  destruct (run_command_effect c0 args log_prefix w) as (Hi & _ & _ & Hr).
  cbv zeta in *. split.
  - rewrite Hi. simpl.
    destruct (subprocess_run rt (invocations w) _); reflexivity.
  - simpl. destruct (subprocess_run rt (invocations w) _); simpl.
    + destruct Hr as [Hr _]. eauto.
    + exact Hr.
Qed.

Lemma runs_for_each {X} (xs : list X) (f : X -> command)
    (body : X -> M unit) :
  (forall x, runs rt [f x] (body x) (fun _ => True)) ->
  runs rt (map f xs) (for_each xs body) (fun _ => True).
Proof.
  intros H. induction xs as [|x xs IH]; simpl.
  - eapply runs_weaken; [apply runs_ret | auto].
  - change (f x :: map f xs) with ([f x] ++ map f xs)%list.
    eapply runs_bind; [apply H | intros; apply IH].
Qed.

Lemma runs_when (b : bool) (cs : list command) (m : M unit) :
  runs rt cs m (fun _ => True) ->
  runs rt (if b then cs else []) (when b m) (fun _ => True).
Proof.
  destruct b; simpl; intros H; [assumption|].
  eapply runs_weaken; [apply runs_ret | auto].
Qed.

End SubProcesses.

(* ================================================================== *)
(** * The video producer *)

Section VideoProducer.

Variable rt : Runtime.

Lemma runs_eq {A} (cs cs' : list command) (m : M A) (V : A -> Prop) :
  runs rt cs m V -> cs = cs' -> runs rt cs' m V.
Proof. now intros H <-. Qed.

Lemma runs_get_custom_sizes (custom_sizes_str : string) :
  runs rt [] (get_custom_sizes rt custom_sizes_str)
       (fun d => d = custom_sizes_dict rt custom_sizes_str).
Proof.
  apply runs_pure. intros w. split.
  - apply get_custom_sizes_world.
  - eexists. split; [apply get_custom_sizes_value | reflexivity].
Qed.

Lemma runs_mkdir (path : string) :
  mkdir_error rt path = None -> runs rt [] (mkdir rt path) (fun _ => True).
Proof.
  intros H. apply runs_pure. intros w. unfold mkdir. rewrite H.
  simpl. eauto.
Qed.

Lemma runs_then_ret (cs : list command) (m : M string) :
  runs rt cs m (fun _ => True) -> runs rt cs (m ;;; ret tt) (fun _ => True).
Proof.
  intros H. eapply runs_eq.
  - eapply runs_bind; [exact H |].
    intros a _. eapply runs_weaken; [apply runs_ret | auto].
  - apply app_nil_r.
Qed.

Lemma runs_render_video_tier (file_path : FilePath) (folder target_format
    preset : string) (crf : Z) (infix indent word : string)
    (heights : dict Z) (full : bool) :
  runs rt
    (map (with_loglevel rt)
         (video_tier_cmds rt file_path folder target_format preset crf infix
                          heights full))
    (render_video_tier rt file_path folder target_format
       (dict_get_default VIDEO_CODECS target_format "libx264")
       (if String.eqb target_format "webm" then "libopus" else "aac")
       preset crf infix indent word heights full)
    (fun _ => True).
Proof.
  unfold render_video_tier, video_tier_cmds. rewrite map_app, map_map.
  eapply runs_bind.
  - eapply runs_eq.
    + apply runs_when. apply runs_for_each with
        (f := fun kv => with_loglevel rt
                (rendition_cmd rt file_path folder target_format
                   (dict_get_default VIDEO_CODECS target_format "libx264")
                   (if String.eqb target_format "webm" then "libopus"
                    else "aac")
                   preset crf infix (fst kv) (snd kv))).
      intros kv. apply runs_then_ret. apply runs_run_command.
    + destruct heights; reflexivity.
  - intros _ _. eapply runs_eq.
    + apply runs_when. apply runs_then_ret. apply runs_run_command.
    + destruct full; reflexivity.
Qed.

Lemma runs_process_video_body (output_dir : string) (file_path : FilePath)
    (profile : Profile) (settings : Settings) :
  mkdir_error rt (path_join output_dir (stem file_path)) = None ->
  runs rt
    (map (with_loglevel rt)
         (video_cmds rt output_dir file_path profile settings))
    (process_video_body rt output_dir file_path profile settings)
    (fun _ => True).
Proof.
  intros Hmk. unfold process_video_body, video_cmds.
  eapply runs_eq.
  - eapply runs_bind; [apply runs_get_custom_sizes |]. intros d ->.
    eapply runs_bind; [apply runs_log_message |]. intros _ _.
    eapply runs_bind; [apply runs_mkdir; exact Hmk |]. intros _ _.
    eapply runs_bind; [apply runs_log_message |]. intros _ _.
    eapply runs_bind; [apply runs_run_command |]. intros _ _.
    eapply runs_bind; [apply runs_log_message |]. intros _ _.
    eapply runs_bind; [apply runs_render_video_tier |]. intros _ _.
    eapply runs_bind.
    + apply runs_when.
      eapply runs_bind; [apply runs_log_message |]. intros _ _.
      apply runs_render_video_tier.
    + intros _ _. apply runs_log_message.
  - cbn [app map]. rewrite !app_nil_r, map_app. f_equal. f_equal.
    destruct (String.eqb (compression_mode settings) "max_compression");
      reflexivity.
Qed.

End VideoProducer.

(** The handler of [process_video] turns any exception of the body into
    one log line. *)
Lemma process_video_result (rt : Runtime) (output_dir : string)
    (file_path : FilePath) (profile : Profile) (settings : Settings)
    (w : World) :
  OUTPUT_DIR rt = Some output_dir ->
  let body := process_video_body rt output_dir file_path profile settings w in
  let r := process_video rt file_path profile settings w in
  fst r = Ret tt
  /\ invocations (snd r) = invocations (snd body)
  /\ forall e, fst body = Raise e ->
       processing_log (snd r)
       = (processing_log (snd body) ++ [video_error_line file_path e])%list.
Proof.
  intros Hout. unfold process_video. rewrite Hout. unfold try_except.
  destruct (process_video_body rt output_dir file_path profile settings w)
    as [[[]|e] w1]; simpl.
  - repeat split; auto. discriminate.
  - repeat split; auto. intros e' [= <-]. reflexivity.
Qed.

(** C1 (amended): the transcoder invocations of a video asset run in
    sequence -- poster, standard renditions, full size, compressed tier --
    and the first one that fails ends the job: it is the last invocation
    attempted, the job logs one video-processing error and returns without
    raising. *)
Theorem process_video_stops_at_first_failure (rt : Runtime)
    (output_dir : string) (file_path : FilePath) (profile : Profile)
    (settings : Settings) (w : World) :
  OUTPUT_DIR rt = Some output_dir ->
  mkdir_error rt (path_join output_dir (stem file_path)) = None ->
  let planned :=
    map (with_loglevel rt)
        (video_cmds rt output_dir file_path profile settings) in
  let attempted := run_until_failure rt (invocations w) planned in
  let r := process_video rt file_path profile settings w in
  fst r = Ret tt
  /\ invocations (snd r) = (invocations w ++ attempted)%list
  /\ (all_completed attempted = false ->
      exists e pre,
        processing_log (snd r)
        = (pre ++ [video_error_line file_path e])%list).
Proof.
  intros Hout Hmk planned attempted r.
  destruct (process_video_result rt output_dir file_path profile settings w
              Hout) as (Hr & Hi & Hl).
  destruct (runs_process_video_body rt output_dir file_path profile settings
              Hmk w) as [Hi' Hr'].
  fold planned in Hi', Hr'. fold attempted in Hi', Hr'.
  split; [exact Hr|]. split; [now rewrite <- Hi'|].
  intros Hf. rewrite Hf in Hr'. destruct Hr' as [e He].
  exists e. eexists. apply Hl. exact He.
Qed.

(** A crashing transcoder: the poster is attempted, nothing after it. *)
Lemma process_video_stops_at_first_failure_witness :
  fst (process_video crashing_runtime sample_video
         (video_profile sample_config) video_settings empty_world) = Ret tt
  /\ List.length
       (invocations
          (snd (process_video crashing_runtime sample_video
                  (video_profile sample_config) video_settings empty_world)))
     = 1%nat
  /\ exists e pre,
       processing_log
         (snd (process_video crashing_runtime sample_video
                 (video_profile sample_config) video_settings empty_world))
       = (pre ++ [video_error_line sample_video e])%list.
Proof.
  destruct (process_video_stops_at_first_failure crashing_runtime "output"
              sample_video (video_profile sample_config) video_settings
              empty_world eq_refl eq_refl) as (H1 & H2 & H3).
  split; [exact H1|]. split.
  - rewrite H2. reflexivity.
  - apply H3. reflexivity.
Defined.

(** C1 as stated fails: when the poster invocation crashes, the renditions
    the settings ask for are never attempted. *)
Lemma process_video_poster_failure_skips_renditions :
  exists c,
    In c (map (with_loglevel crashing_runtime)
              (video_cmds crashing_runtime "output" sample_video
                          (video_profile sample_config) video_settings))
    /\ ~ In c (map fst
                 (invocations
                    (snd (process_video crashing_runtime sample_video
                            (video_profile sample_config) video_settings
                            empty_world)))).
Proof.
  exists (with_loglevel crashing_runtime
            (rendition_cmd crashing_runtime sample_video "output/clip" "mp4"
                           "libx264" "aac" "medium" 23 EmptyString "720p"
                           720)).
  split.
  - right. left. reflexivity.
  - vm_compute. intros [H | []]. discriminate H.
Qed.

(* ================================================================== *)
(** * The audio producer and the dispatcher *)

(** C7: an audio-only asset gets exactly one transcoder invocation, to MP3
    at quality tier 2, whose output is [{base_name}.mp3] in the asset's
    folder; the job writes no other file and none of this depends on the
    settings. *)
Theorem process_audio_only_single_invocation (rt : Runtime)
    (output_dir : string) (file_path : FilePath) (settings : Settings)
    (w : World) :
  OUTPUT_DIR rt = Some output_dir ->
  mkdir_error rt (path_join output_dir (stem file_path)) = None ->
  let folder := path_join output_dir (stem file_path) in
  let target := path_join folder (stem file_path ++ ".mp3") in
  let cmd := [FFMPEG_CMD rt; "-loglevel"; "error"; "-i"; path_str file_path;
              "-c:a"; "libmp3lame"; "-q:a"; "2"; target; "-y"] in
  let r := process_audio_only rt file_path settings w in
  fst r = Ret tt
  /\ invocations (snd r)
     = (invocations w ++ [(cmd, subprocess_run rt (invocations w) cmd)])%list
  /\ output_argument cmd = Some target
  /\ fs (snd r) = (fs w ++ [Mkdir folder])%list
  /\ forall settings', process_audio_only rt file_path settings' w = r.
Proof.
  intros Hout Hmk folder target cmd r.
  subst r. unfold process_audio_only, try_except, bind.
  rewrite Hout, log_message_info. unfold mkdir. rewrite Hmk. simpl.
  unfold audio_cmd.
  match goal with
  | |- context [run_command rt (?c0 :: ?args) ?p ?w0] =>
      destruct (run_command_effect rt c0 args p w0) as (Hi & Hf & _ & Hr)
  end.
  unfold with_loglevel in Hi, Hr. rewrite String.eqb_refl in Hi, Hr.
  simpl in Hi, Hf, Hr. fold folder in Hi, Hf, Hr. fold target in Hi, Hr.
  fold cmd in Hi, Hr.
  destruct (run_command rt _ _ _) as [[out|e] w1]; simpl in *.
  - repeat split; auto.
  - repeat split; auto.
Qed.

(** An upper-case [.M4A] with settings that ask for video sizes. *)
Lemma process_audio_only_single_invocation_witness :
  fst (process_audio_only working_runtime sample_audio video_settings
         empty_world) = Ret tt
  /\ map fst (invocations
                (snd (process_audio_only working_runtime sample_audio
                        video_settings empty_world)))
     = [["bin/ffmpeg"; "-loglevel"; "error"; "-i"; "source/song.M4A"; "-c:a";
         "libmp3lame"; "-q:a"; "2"; "output/song/song.mp3"; "-y"]].
Proof.
  destruct (process_audio_only_single_invocation working_runtime "output"
              sample_audio video_settings empty_world eq_refl eq_refl)
    as (H1 & H2 & _).
  split; [exact H1 | rewrite H2; reflexivity].
Defined.

Lemma has_video_stream_effect (rt : Runtime) (file_path : FilePath)
    (w : World) :
  let c := with_loglevel rt (probe_cmd rt file_path) in
  let o := subprocess_run rt (invocations w) c in
  let r := has_video_stream rt file_path w in
  invocations (snd r) = (invocations w ++ [(c, o)])%list
  /\ fs (snd r) = fs w
  /\ fst r = Ret (match o with
                  | Completed stdout _ => py_contains "video" stdout
                  | Failed _ => false
                  end).
Proof.
  unfold has_video_stream, try_except, bind, probe_cmd.
  match goal with
  | |- context [run_command rt (?c0 :: ?args) ?p ?w0] =>
      destruct (run_command_effect rt c0 args p w0) as (Hi & Hf & _ & Hr)
  end.
  cbv zeta in *.
  destruct (run_command rt _ _ _) as [[out|e] w1]; simpl in *.
  - destruct (subprocess_run rt (invocations w) _).
    + destruct Hr as [[= ->] _]. auto.
    + destruct Hr as [e' Hr]. discriminate.
  - destruct (subprocess_run rt (invocations w) _).
    + destruct Hr as [Hr _]. discriminate.
    + auto.
Qed.

Lemma av_format_not_image (ext : string) :
  In ext SUPPORTED_AV_FORMATS -> in_list ext SUPPORTED_IMAGE_FORMATS = false.
Proof.
  unfold SUPPORTED_AV_FORMATS. intros H.
  repeat (destruct H as [<- | H]; [reflexivity|]). destruct H.
Qed.

(** C6 (amended): a supported image extension sends the file to the image
    producer with no probe; a supported audio/video extension makes the
    job probe the container once and go to the video producer exactly when
    the probe completes with the text [video] in its output; a probe that
    cannot be run or exits with a non-zero status sends the file to the
    audio-only producer.  The output is not parsed: whatever its shape, it
    is routed by that text test. *)
Theorem start_processing_job_routing (rt : Runtime) (file_path : FilePath)
    (user_settings : Settings) (w : World) :
  let ext := py_lower (suffix file_path) in
  let probe := with_loglevel rt (probe_cmd rt file_path) in
  let o := subprocess_run rt (invocations w) probe in
  let probed := snd (has_video_stream rt file_path w) in
  (In ext SUPPORTED_IMAGE_FORMATS ->
   start_processing_job rt file_path user_settings w
   = process_image rt file_path (image_profile (config rt)) user_settings w)
  /\ (In ext SUPPORTED_AV_FORMATS ->
      invocations probed = (invocations w ++ [(probe, o)])%list
      /\ start_processing_job rt file_path user_settings w
         = match o with
           | Completed stdout _ =>
               if py_contains "video" stdout
               then process_video rt file_path (video_profile (config rt))
                                  user_settings probed
               else process_audio_only rt file_path user_settings probed
           | Failed _ =>
               process_audio_only rt file_path user_settings probed
           end).
Proof.
  intros ext probe o probed. unfold start_processing_job. fold ext. split.
  - intros H. apply in_list_spec in H. now rewrite H.
  - intros H. rewrite (av_format_not_image ext H).
    apply in_list_spec in H. rewrite H.
    destruct (has_video_stream_effect rt file_path w) as (Hi & _ & Hr).
    fold probe in Hi, Hr. fold o in Hi, Hr. fold probed in Hi.
    split; [exact Hi|].
    unfold bind. subst probed.
    destruct (has_video_stream rt file_path w) as [r w1]; simpl in *.
    subst r. destruct o as [out err | e]; [| reflexivity].
    destruct (py_contains "video" out); reflexivity.
Qed.

(** A [.png] goes to the image producer; an [.M4A] whose probe crashes
    goes to the audio-only producer. *)
Lemma start_processing_job_routing_witness :
  start_processing_job working_runtime sample_photo video_settings empty_world
  = process_image working_runtime sample_photo
      (image_profile (config working_runtime)) video_settings empty_world
  /\ start_processing_job crashing_runtime sample_audio video_settings
       empty_world
     = process_audio_only crashing_runtime sample_audio video_settings
         (snd (has_video_stream crashing_runtime sample_audio empty_world)).
Proof.
  split.
  - apply (start_processing_job_routing working_runtime sample_photo
             video_settings empty_world).
    simpl. auto.
  - apply (start_processing_job_routing crashing_runtime sample_audio
             video_settings empty_world).
    simpl. auto 12.
Defined.

(** C6 as stated fails on malformed probe output: the output is never
    parsed, so a probe that exits with status 0 after writing a truncated
    object that mentions [video] sends the file to the video producer, not
    to the audio-only one. *)
Lemma start_processing_job_truncated_probe_output :
  String.prefix "{" truncated_probe_output = true
  /\ str_existsb (Ascii.eqb "}") truncated_probe_output = false
  /\ start_processing_job truncated_probe_runtime sample_video video_settings
       empty_world
     = process_video truncated_probe_runtime sample_video
         (video_profile (config truncated_probe_runtime)) video_settings
         (snd (has_video_stream truncated_probe_runtime sample_video
                 empty_world))
  /\ start_processing_job truncated_probe_runtime sample_video video_settings
       empty_world
     <> process_audio_only truncated_probe_runtime sample_video video_settings
          (snd (has_video_stream truncated_probe_runtime sample_video
                  empty_world)).
Proof.
  split; [reflexivity|]. split; [reflexivity|]. split; [reflexivity|].
  vm_compute. discriminate.
Qed.

(* ================================================================== *)
(** * The polled log *)

(** C10 (amended): whatever calls to [log_message] and [clear_log] were
    made since start-up, the snapshot [status] returns holds only messages
    logged at the info level and the session sentinel that [clear_log]
    writes; a debug message is printed and leaves the log as it was, and
    only the info level appends. *)
Theorem status_holds_info_lines_and_sentinel (calls : list log_call) :
  (exists snapshot,
     fst (status (run_log_calls calls empty_world)) = Ret snapshot
     /\ Forall (fun line => line = session_sentinel
                            \/ In (LogMessage line info) calls) snapshot)
  /\ (forall message w,
        processing_log (snd (log_message message debug w)) = processing_log w
        /\ console (snd (log_message message debug w))
           = (console w ++ [message])%list)
  /\ (forall message level w,
        processing_log (snd (log_message message level w))
        = if String.eqb level info then (processing_log w ++ [message])%list
          else processing_log w).
Proof.
  repeat split.
  - exists (processing_log (run_log_calls calls empty_world)).
    split; [reflexivity|]. apply Forall_forall. intros line Hin.
    destruct (run_log_calls_lines calls empty_world line Hin)
      as [[] | H]; exact H.
  - intros. apply log_message_log.
Qed.

(** C10 as stated fails: after [clear_log] the snapshot holds a line that
    no info-level call logged. *)
Lemma status_after_clear_log_holds_unlogged_line :
  ~ (forall calls line,
       In line (processing_log (run_log_calls calls empty_world)) ->
       In (LogMessage line info) calls).
Proof.
  intros H.
  destruct (H [ClearLog] session_sentinel (or_introl eq_refl)) as [E | []].
  discriminate E.
Qed.

Lemma dict_get_in {V} (k : string) (v : V) (d : dict V) :
  NoDup (dict_keys d) -> In (k, v) d -> dict_get k d = Some v.
Proof.
  induction d as [|[k0 v0] d IH]; simpl; intros ND Hin; [destruct Hin|].
  inversion ND as [|? ? Hn ND']; subst.
  destruct Hin as [[= -> ->] | Hin].
  - now rewrite String.eqb_refl.
  - destruct (String.eqb k0 k) eqn:E; [| now apply IH].
    apply String.eqb_eq in E. subst k0. exfalso. apply Hn.
    change k with (fst (k, v)). now apply in_map.
Qed.

Lemma custom_sizes_of_NoDup (rt : Runtime) (tokens : list string)
    (acc d : dict Z) :
  NoDup (dict_keys acc) -> custom_sizes_of rt tokens acc = Ret d ->
  NoDup (dict_keys d).
Proof.
  revert acc. induction tokens as [|s rest IH]; intros acc ND H; simpl in H.
  - now injection H as <-.
  - destruct (py_isdigit (py_strip s)); [| now apply (IH acc)].
    destruct (py_int _ _); [| discriminate].
    eapply IH; [| exact H]. now apply dict_set_NoDup.
Qed.

(* ================================================================== *)
(** * Custom sizes, as a caller sees them *)

(** C5 (amended): [get_custom_sizes] never raises.  When [int] accepts
    every token that passes the digit test -- as it does for ordinary
    decimal numbers -- each such token has its entry, under the label made
    from its text, every entry comes from such a token, the other tokens
    are dropped and nothing is logged.  When [int] rejects one of them, as
    it does for a superscript digit, an error is logged and the result is
    empty.  The preset [thumb] merged with the custom sizes 50 and 200
    has three entries; [50,abc] gives the entry for 50 alone. *)
Theorem get_custom_sizes_entries (rt : Runtime) (custom_sizes_str : string)
    (w : World) :
  let r := get_custom_sizes rt custom_sizes_str w in
  let d := custom_sizes_dict rt custom_sizes_str in
  let to_int := py_int (int_max_str_digits rt) in
  fst r = Ret d
  /\ (if forallb (int_accepts (int_max_str_digits rt))
                 (digit_tokens custom_sizes_str)
      then processing_log (snd r) = processing_log w
           /\ Forall (fun t => exists v, to_int t = Ret v
                                /\ dict_get (custom_label t) d = Some v)
                     (digit_tokens custom_sizes_str)
           /\ Forall (fun kv => exists t,
                                  In t (digit_tokens custom_sizes_str)
                                  /\ fst kv = custom_label t
                                  /\ to_int t = Ret (snd kv)) d
           /\ NoDup (dict_keys d)
      else processing_log (snd r)
           = (processing_log w
              ++ ["🚨 Error: Invalid custom size format."])%list
           /\ d = [])
  /\ dict_update (dict_select ["thumb"] [("thumb", 100)])
                 (custom_sizes_dict working_runtime "50,200")
     = [("thumb", 100); ("custom_50px", 50); ("custom_200px", 200)]
  /\ get_custom_sizes working_runtime "50,abc" empty_world
     = (Ret [("custom_50px", 50)], empty_world).
Proof.
  intros r d to_int. split; [apply get_custom_sizes_value|].
  destruct (get_custom_sizes_world rt custom_sizes_str w)
    as (_ & _ & _ & Hlog).
  fold r in Hlog. split; [| split; reflexivity].
  pose proof (custom_sizes_of_result rt (py_split "," custom_sizes_str) [])
    as R.
  fold (digit_tokens custom_sizes_str) in R.
  destruct (forallb _ (digit_tokens custom_sizes_str)).
  - split; [exact Hlog|]. destruct R as [d0 E].
    assert (Hd : d = d0 \/ (d = [] /\ digit_tokens custom_sizes_str = [])).
    { subst d. unfold custom_sizes_dict.
      destruct custom_sizes_str; simpl str_nonempty; cbv iota.
      - right. split; reflexivity.
      - left. now rewrite E. }
    destruct Hd as [-> | [-> Hnil]].
    + destruct (custom_sizes_of_entries rt (py_split "," custom_sizes_str)
                  [] d0) as (_ & _ & All & Only);
        [intros t v; discriminate | exact E |].
      pose proof (custom_sizes_of_NoDup rt _ [] d0 (NoDup_nil _) E) as ND.
      repeat split.
      * apply Forall_forall. exact All.
      * apply Forall_forall. intros [k v] Hin.
        destruct (Only k v (dict_get_in k v d0 ND Hin))
          as [Hacc | (t & Ht & -> & Hv)]; [discriminate|].
        exists t. auto.
      * exact ND.
    + rewrite Hnil. repeat split; constructor.
  - split; [exact Hlog|]. destruct R as (e & E & _).
    subst d. unfold custom_sizes_dict. rewrite E.
    destruct (str_nonempty custom_sizes_str); reflexivity.
Qed.

(** [50,200] under the default limit: both tokens are accepted. *)
Lemma get_custom_sizes_entries_witness :
  fst (get_custom_sizes working_runtime "50,200" empty_world)
  = Ret [("custom_50px", 50); ("custom_200px", 200)].
Proof.
  exact (proj1 (get_custom_sizes_entries working_runtime "50,200"
                  empty_world)).
Defined.

(** C5 as stated fails: in [50,] followed by a superscript two, the token
    50 is a non-negative integer yet it gets no entry, and the field is
    not dropped silently: an error is logged. *)
Lemma get_custom_sizes_superscript_digit :
  exists t,
    In t (digit_tokens ("50," ++ String "178" EmptyString))
    /\ py_int (int_max_str_digits working_runtime) t = Ret 50
    /\ dict_get (custom_label t)
         (custom_sizes_dict working_runtime
            ("50," ++ String "178" EmptyString)) = None
    /\ get_custom_sizes working_runtime ("50," ++ String "178" EmptyString)
         empty_world
       = (Ret [],
          set_processing_log ["🚨 Error: Invalid custom size format."]
            (set_console ["🚨 Error: Invalid custom size format."]
               empty_world)).
Proof. exists "50". repeat split. left. reflexivity. Qed.

(* ================================================================== *)
(** * Names of the output artifacts *)

Lemma append_empty_r (s : string) : s ++ EmptyString = s.
Proof. induction s; simpl; congruence. Qed.

Lemma length_append (a b : string) :
  String.length (a ++ b) = (String.length a + String.length b)%nat.
Proof. induction a; simpl; congruence. Qed.

Lemma str_ends_with_append (front tail : string) :
  str_ends_with tail (front ++ tail) = true.
Proof.
  induction front as [|c front IH]; simpl.
  - destruct tail; simpl; now rewrite ?Ascii.eqb_refl, ?String.eqb_refl.
  - rewrite IH. apply orb_true_r.
Qed.

(** The only way to read [poster.webp] as a name, a dot and a format. *)
Lemma poster_split (s fmt : string) :
  s ++ "." ++ fmt = "poster.webp" -> s = "poster".
Proof.
  intros H.
  do 11 (destruct s as [|? s]; simpl in H;
         [ first [ discriminate H | injection H as H; reflexivity ]
         | injection H as ? H; subst ]).
  destruct s; discriminate H.
Qed.

Lemma video_artifact_name_inj (base fmt : string) (v1 v2 : VideoVariant) :
  plain_variant v1 = true -> plain_variant v2 = true ->
  video_artifact_name base fmt v1 = video_artifact_name base fmt v2 ->
  v1 = v2.
Proof.
  assert (Hcut : forall a b a' b' : string,
             a ++ b ++ "." ++ fmt = a' ++ b' ++ "." ++ fmt ->
             a ++ b = a' ++ b').
  { intros a b a' b' H.
    rewrite <- (append_assoc a b), <- (append_assoc a' b') in H.
    now apply append_inv_tail in H. }
  assert (Hlab : forall l l' c c',
             plain_label l = true -> plain_label l' = true ->
             l ++ infix_of c ++ "." ++ fmt = l' ++ infix_of c' ++ "." ++ fmt ->
             l = l' /\ c = c').
  { intros l l' c c' Hl Hl' H.
    apply Hcut in H.
    unfold plain_label in Hl, Hl'.
    apply andb_true_iff in Hl. destruct Hl as [_ Hl].
    apply andb_true_iff in Hl'. destruct Hl' as [_ Hl'].
    destruct c, c'; simpl in H; rewrite ?append_empty_r in H.
    - apply append_inv_tail in H. auto.
    - subst l'. rewrite str_ends_with_append in Hl'. discriminate.
    - subst l. rewrite str_ends_with_append in Hl. discriminate.
    - auto. }
  assert (Hfull : forall l c c',
             plain_label l = true ->
             l ++ infix_of c ++ "." ++ fmt
             = "full_size" ++ infix_of c' ++ "." ++ fmt -> False).
  { intros l c c' Hl H.
    apply Hcut in H.
    unfold plain_label in Hl.
    apply andb_true_iff in Hl. destruct Hl as [Hl He].
    apply andb_true_iff in Hl. destruct Hl as [Hf _].
    destruct c, c'; simpl in H; rewrite ?append_empty_r in H.
    - apply (append_inv_tail "_compressed" l "full_size") in H. subst l.
      discriminate.
    - apply (f_equal String.length) in H. rewrite length_append in H.
      simpl in H. lia.
    - subst l. discriminate.
    - subst l. discriminate. }
  assert (Hposter : forall l c,
             plain_label l = true ->
             "poster.webp" = l ++ infix_of c ++ "." ++ fmt -> False).
  { intros l c Hl H. symmetry in H. rewrite <- append_assoc in H.
    apply poster_split in H. unfold plain_label in Hl.
    apply andb_true_iff in Hl. destruct Hl as [Hl _].
    apply andb_true_iff in Hl. destruct Hl as [_ Hp].
    destruct c; simpl in H; rewrite ?append_empty_r in H.
    - apply (f_equal String.length) in H. rewrite length_append in H.
      simpl in H. lia.
    - subst l. discriminate. }
  intros H1 H2 H. unfold video_artifact_name in H.
  destruct v1 as [|l1 c1|c1], v2 as [|l2 c2|c2]; simpl in H1, H2;
    apply append_inv_head in H; simpl in H; try injection H as H.
  - reflexivity.
  - exfalso. exact (Hposter l2 c2 H2 H).
  - discriminate.
  - exfalso. exact (Hposter l1 c1 H1 (eq_sym H)).
  - destruct (Hlab l1 l2 c1 c2 H1 H2 H) as [-> ->]. reflexivity.
  - exfalso. exact (Hfull l1 c1 c2 H1 H).
  - discriminate.
  - exfalso. exact (Hfull l2 c2 c1 H2 (eq_sym H)).
  - destruct c1, c2; try reflexivity; simpl in H; discriminate.
Qed.

(** The output files of the commands of a video job are the names of its
    artifacts, in the folder of the asset. *)
Lemma video_cmds_outputs (rt : Runtime) (output_dir : string)
    (file_path : FilePath) (profile : Profile) (settings : Settings) :
  map output_argument
      (video_cmds rt output_dir file_path profile settings)
  = map (fun v =>
           Some (path_join (path_join output_dir (stem file_path))
                   (video_artifact_name (stem file_path)
                                        (video_format settings) v)))
        (video_variants (dict_keys (video_heights rt profile settings))
           (in_list "full_size" (sizes_to_process settings))
           (String.eqb (compression_mode settings) "max_compression")).
Proof.
  unfold video_cmds, video_variants, video_tier_cmds, video_tier_variants,
    dict_keys.
  cbv zeta. cbn [map]. f_equal.
  rewrite !map_app, !map_map.
  destruct (String.eqb (compression_mode settings) "max_compression");
    destruct (in_list "full_size" (sizes_to_process settings));
    rewrite ?map_app, ?map_map, ?app_nil_r; reflexivity.
Qed.

(** C4: the name of an image variant is a function of the base name, the
    size label, the density, the compression infix and the extension; for
    [photo], [thumb], density 2 and [jpg] it is [photo_thumb@2x.jpg], and
    [photo_thumb@2x_compressed.jpg] in the compressed tier; within one
    asset and one target format two different image variants never share a
    name.  The commands of a video job write the names of its artifacts,
    and two different video artifacts never share a name as long as no
    height label is [full_size] or [poster] or ends in [_compressed]. *)
Theorem output_names_do_not_collide :
  artifact_name "photo" "jpg" (Resized "thumb" 2 false) = "photo_thumb@2x.jpg"
  /\ artifact_name "photo" "jpg" (Resized "thumb" 2 true)
     = "photo_thumb@2x_compressed.jpg"
  /\ (forall base_name target_format size_label density compressed,
        artifact_name base_name target_format
                      (Resized size_label density compressed)
        = variant_name base_name size_label density
            (if compressed then "_compressed" else EmptyString)
            target_format)
  /\ (forall base_name target_format v1 v2,
        v1 <> v2 ->
        artifact_name base_name target_format v1
        <> artifact_name base_name target_format v2)
  /\ (forall rt output_dir file_path profile settings,
        map output_argument
            (video_cmds rt output_dir file_path profile settings)
        = map (fun v =>
                 Some (path_join (path_join output_dir (stem file_path))
                         (video_artifact_name (stem file_path)
                                              (video_format settings) v)))
              (video_variants
                 (dict_keys (video_heights rt profile settings))
                 (in_list "full_size" (sizes_to_process settings))
                 (String.eqb (compression_mode settings) "max_compression")))
  /\ (forall base_name target_format v1 v2,
        plain_variant v1 = true -> plain_variant v2 = true ->
        v1 <> v2 ->
        video_artifact_name base_name target_format v1
        <> video_artifact_name base_name target_format v2).
Proof.
  repeat split.
  - intros base_name target_format v1 v2 Hne Heq.
    apply Hne. eapply artifact_name_inj. exact Heq.
  - apply video_cmds_outputs.
  - intros base_name target_format v1 v2 H1 H2 Hne Heq.
    apply Hne. eapply video_artifact_name_inj; eauto.
Qed.

(** The two tiers of one size and density are written under two names,
    for an image and for a video. *)
Lemma output_names_do_not_collide_witness :
  artifact_name "photo" "jpg" (Resized "thumb" 2 false)
  <> artifact_name "photo" "jpg" (Resized "thumb" 2 true)
  /\ video_artifact_name "clip" "mp4" (Rendition "720p" false)
     <> video_artifact_name "clip" "mp4" (Rendition "720p" true).
Proof.
  split.
  - apply (proj1 (proj2 (proj2 (proj2 output_names_do_not_collide)))).
    discriminate.
  - apply (proj2 (proj2 (proj2 (proj2 (proj2 output_names_do_not_collide)))));
      [reflexivity | reflexivity | discriminate].
Defined.

(** A height labelled [full_size]: when it is selected the job writes the
    rendition of that height and the full-size copy to the same file. *)
Lemma video_full_size_label_collides :
  Rendition "full_size" false <> FullVideo false
  /\ video_artifact_name "clip" "mp4" (Rendition "full_size" false)
     = video_artifact_name "clip" "mp4" (FullVideo false)
  /\ map (fun co => output_argument (fst co))
         (invocations
            (snd (process_video working_runtime sample_video
                    full_size_profile full_size_settings empty_world)))
     = [Some "output/clip/clip_poster.webp";
        Some "output/clip/clip_full_size.mp4";
        Some "output/clip/clip_full_size.mp4"].
Proof.
  split; [discriminate|]. split; [reflexivity|]. vm_compute. reflexivity.
Qed.

(* ================================================================== *)
(** * The scheduler *)

Lemma dict_get_remove_other {V} (k k' : string) (d : dict V) :
  k <> k' -> dict_get k (dict_remove k' d) = dict_get k d.
Proof.
  intros Hne. induction d as [|[k0 v0] d IH]; simpl; [reflexivity|].
  destruct (String.eqb k0 k') eqn:E; simpl.
  - apply String.eqb_eq in E. subst k0.
    destruct (String.eqb k' k) eqn:E'; [| exact IH].
    apply String.eqb_eq in E'. congruence.
  - rewrite IH. reflexivity.
Qed.

Lemma dict_remove_keys {V} (k : string) (d : dict V) :
  dict_keys (dict_remove k d)
  = filter (fun k' => negb (String.eqb k' k)) (dict_keys d).
Proof.
  unfold dict_keys, dict_remove.
  induction d as [|[k0 v0] d IH]; simpl; [reflexivity|].
  destruct (String.eqb k0 k); simpl; now rewrite IH.
Qed.

Lemma NoDup_filter {A} (p : A -> bool) (l : list A) :
  NoDup l -> NoDup (filter p l).
Proof.
  induction 1 as [|x l Hx ND IH]; simpl; [constructor|].
  destruct (p x); [| assumption].
  constructor; [| assumption]. intros H. apply filter_In in H. tauto.
Qed.

Lemma dict_remove_NoDup {V} (k : string) (d : dict V) :
  NoDup (dict_keys d) -> NoDup (dict_keys (dict_remove k d)).
Proof. intros H. rewrite dict_remove_keys. now apply NoDup_filter. Qed.

Lemma dict_del_present {V} (k : string) (d : dict V) :
  NoDup (dict_keys d) -> dict_get k d <> None ->
  dict_del k d = Ret (dict_remove k d).
Proof.
  induction d as [|[k0 v0] d IH]; simpl; intros ND H; [congruence|].
  inversion ND as [|? ? Hn ND']; subst.
  destruct (String.eqb k0 k) eqn:E; simpl.
  - apply String.eqb_eq in E. subst k0. f_equal.
    unfold dict_remove. symmetry. apply forallb_filter_id.
    apply forallb_forall. intros [k1 v1] Hin. simpl.
    destruct (String.eqb k1 k) eqn:E1; [| reflexivity].
    apply String.eqb_eq in E1. subst k1. exfalso. apply Hn.
    change k with (fst (k, v1)). now apply in_map.
  - rewrite (IH ND' H). reflexivity.
Qed.

Lemma flat_map_agree {A B} (f g : A -> list B) (l : list A) :
  (forall a, In a l -> f a = g a) -> flat_map f l = flat_map g l.
Proof.
  induction l as [|x l IH]; simpl; intros H; [reflexivity|].
  rewrite H by now left. rewrite IH; [reflexivity|]. auto.
Qed.

Lemma reap_effect (j : string) (w : World) :
  NoDup (dict_keys (active_futures w)) ->
  dict_get j (active_futures w) <> None ->
  let r := reap j w in
  fst r = Ret tt
  /\ active_futures (snd r) = dict_remove j (active_futures w)
  /\ processing_log (snd r)
     = (processing_log w ++ reap_line (active_futures w) j)%list.
Proof.
  intros ND H. unfold reap, bind, try_except, future_result, dict_index,
    del_future, reap_line.
  destruct (dict_get j (active_futures w)) as [f|] eqn:G; [| congruence].
  destruct (outcome f) as [[]|e].
  - rewrite (dict_del_present j _ ND) by (rewrite G; discriminate).
    simpl. rewrite app_nil_r. auto.
  - rewrite log_message_info. simpl.
    rewrite (dict_del_present j _ ND) by (rewrite G; discriminate).
    simpl. auto.
Qed.

(** The loop of [processing_status] over the finished jobs. *)
Lemma reap_loop (jobs : list string) (w : World) :
  NoDup jobs -> NoDup (dict_keys (active_futures w)) ->
  (forall j, In j jobs -> dict_get j (active_futures w) <> None) ->
  let r := for_each jobs reap w in
  fst r = Ret tt
  /\ active_futures (snd r)
     = fold_left (fun d j => dict_remove j d) jobs (active_futures w)
  /\ processing_log (snd r)
     = (processing_log w ++ flat_map (reap_line (active_futures w)) jobs)%list.
Proof.
  revert w. induction jobs as [|j jobs IH]; intros w NDj NDk Hin; simpl.
  - rewrite app_nil_r. auto.
  - inversion NDj as [|? ? Hnj NDj']; subst.
    destruct (reap_effect j w NDk) as (E1 & E2 & E3);
      [apply Hin; now left |].
    unfold bind. destruct (reap j w) as [r1 w1]; simpl in E1, E2, E3.
    subst r1.
    destruct (IH w1 NDj') as (R1 & R2 & R3).
    + rewrite E2. now apply dict_remove_NoDup.
    + intros j' Hj'. rewrite E2, dict_get_remove_other.
      * apply Hin. now right.
      * intros ->. contradiction.
    + cbv zeta. rewrite R1, R2, R3, E2, E3, <- app_assoc.
      repeat split. f_equal. f_equal.
      apply flat_map_agree. intros j' Hj'. unfold reap_line.
      rewrite dict_get_remove_other; [reflexivity|].
      intros ->. contradiction.
Qed.

Lemma filter_filter {A} (p q : A -> bool) (l : list A) :
  filter p (filter q l) = filter (fun x => q x && p x) l.
Proof.
  induction l as [|x l IH]; simpl; [reflexivity|].
  destruct (q x); simpl; [destruct (p x) |]; now rewrite IH.
Qed.

Lemma remove_all {V} (jobs : list string) (d : dict V) :
  fold_left (fun d j => dict_remove j d) jobs d
  = filter (fun kv => negb (in_list (fst kv) jobs)) d.
Proof.
  revert d. induction jobs as [|j jobs IH]; intros d; simpl.
  - symmetry. apply forallb_filter_id. apply forallb_forall. reflexivity.
  - rewrite IH. unfold dict_remove. rewrite filter_filter.
    apply filter_ext. intros [k v]. simpl.
    now rewrite negb_orb.
Qed.

Lemma key_of_finished (d : dict Future) (kv : string * Future) :
  NoDup (dict_keys d) -> In kv d ->
  in_list (fst kv) (map fst (filter (fun kv => done (snd kv)) d))
  = done (snd kv).
Proof.
  intros ND Hin. destruct (done (snd kv)) eqn:D.
  - apply in_list_spec. apply in_map. apply filter_In. auto.
  - destruct (in_list _ _) eqn:E; [| reflexivity].
    apply in_list_spec in E. apply in_map_iff in E.
    destruct E as ([k' f'] & Hk & Hf). apply filter_In in Hf.
    destruct Hf as [Hin' D']. simpl in *. subst k'.
    destruct kv as [k f]. simpl in *.
    pose proof (dict_get_in k f d ND Hin) as G1.
    pose proof (dict_get_in k f' d ND Hin') as G2.
    congruence.
Qed.

Lemma finished_keys_NoDup (d : dict Future) :
  NoDup (dict_keys d) ->
  NoDup (map fst (filter (fun kv => done (snd kv)) d)).
Proof.
  unfold dict_keys. induction d as [|[k f] d IH]; simpl; intros ND.
  - constructor.
  - inversion ND as [|? ? Hn ND']; subst.
    destruct (done f); simpl; [| now apply IH].
    constructor; [| now apply IH].
    intros H. apply Hn. apply in_map_iff in H.
    destruct H as (kv & Hk & Hf). apply filter_In in Hf.
    apply in_map_iff. exists kv. tauto.
Qed.

(** One poll: every finished job is reaped, each one that raised is
    logged on one line, and the count is that of the jobs in flight. *)
Lemma processing_status_effect (w : World) :
  NoDup (dict_keys (active_futures w)) ->
  let r := processing_status w in
  fst r = Ret (Z.of_nat (List.length (in_flight (active_futures w))))
  /\ active_futures (snd r) = in_flight (active_futures w)
  /\ processing_log (snd r)
     = (processing_log w ++ reaped_errors (active_futures w))%list.
Proof.
  intros ND. unfold processing_status, bind.
  set (jobs := map fst (filter (fun kv => done (snd kv)) (active_futures w))).
  destruct (reap_loop jobs w) as (R1 & R2 & R3).
  - now apply finished_keys_NoDup.
  - exact ND.
  - intros j Hj. apply in_map_iff in Hj. destruct Hj as ([k f] & <- & Hf).
    apply filter_In in Hf. destruct Hf as [Hin _]. simpl.
    rewrite (dict_get_in k f _ ND Hin). discriminate.
  - destruct (for_each jobs reap w) as [r1 w1]; simpl in *. subst r1.
    assert (E : active_futures w1 = in_flight (active_futures w)).
    { rewrite R2, remove_all. unfold in_flight. apply filter_ext_in.
      intros kv Hin. subst jobs. now rewrite key_of_finished. }
    simpl. rewrite E, R3. repeat split. f_equal.
    subst jobs. unfold reaped_errors.
    assert (G : forall l, incl l (active_futures w) ->
              flat_map (reap_line (active_futures w))
                       (map fst (filter (fun kv => done (snd kv)) l))
              = flat_map (fun kv => if done (snd kv)
                                    then match outcome (snd kv) with
                                         | Raise e =>
                                             [task_error_line (fst kv) e]
                                         | Ret _ => []
                                         end
                                    else []) l).
    { induction l as [|[k f] l IHl]; intros Hi; simpl; [reflexivity|].
      assert (Hl : incl l (active_futures w))
        by (intros x Hx; apply Hi; now right).
      destruct (done f); simpl; [| now apply IHl].
      rewrite (IHl Hl). f_equal. unfold reap_line.
      rewrite (dict_get_in k f _ ND) by (apply Hi; now left).
      reflexivity. }
    apply G. apply incl_refl.
Qed.

Lemma task_error_line_inj (k j : string) (e' e : exn) :
  String.length k = String.length j ->
  task_error_line k e' = task_error_line j e -> k = j.
Proof.
  unfold task_error_line. intros Hl H.
  apply append_inv_head in H.
  now destruct (append_eq_length _ _ _ _ Hl H).
Qed.

Lemma str_count_app (x : string) (l1 l2 : list string) :
  str_count x (l1 ++ l2) = (str_count x l1 + str_count x l2)%nat.
Proof. apply count_occ_app. Qed.

Lemma count_reaped_absent (j : string) (e : exn) (d : dict Future) :
  uuid_shaped j -> Forall uuid_shaped (dict_keys d) ->
  ~ In j (dict_keys d) ->
  str_count (task_error_line j e) (reaped_errors d) = 0%nat.
Proof.
  intros Hj Hs Hn. apply count_occ_not_In. intros Hin.
  unfold reaped_errors in Hin. apply in_flat_map in Hin.
  destruct Hin as ([k f] & Hk & Hl). simpl in Hl.
  assert (Hkeys : In k (dict_keys d))
    by (change k with (fst (k, f)); now apply in_map).
  destruct (done f); [| destruct Hl].
  destruct (outcome f) as [u|e']; [destruct Hl|].
  destruct Hl as [Hl | []].
  apply task_error_line_inj in Hl.
  - subst k. contradiction.
  - rewrite Forall_forall in Hs. rewrite (Hs k Hkeys). now rewrite Hj.
Qed.

Lemma count_reaped_present (j : string) (f : Future) (e : exn)
    (d : dict Future) :
  uuid_shaped j -> NoDup (dict_keys d) -> Forall uuid_shaped (dict_keys d) ->
  dict_get j d = Some f -> done f = true -> outcome f = Raise e ->
  str_count (task_error_line j e) (reaped_errors d) = 1%nat.
Proof.
  intros Hj. induction d as [|[k f'] d IH]; simpl; intros ND Hs G D O;
    [discriminate|].
  inversion ND as [|? ? Hn ND']; subst. inversion Hs as [|? ? Hk Hs']; subst.
  change (reaped_errors ((k, f') :: d))
    with ((if done f' then match outcome f' with
                           | Raise e0 => [task_error_line k e0]
                           | Ret _ => []
                           end else []) ++ reaped_errors d)%list.
  rewrite str_count_app.
  destruct (String.eqb k j) eqn:E.
  - apply String.eqb_eq in E. subst k. injection G as ->.
    rewrite D, O. rewrite (count_reaped_absent j e d Hj Hs' Hn).
    unfold str_count. cbn [count_occ].
    destruct (string_dec _ _); [reflexivity | congruence].
  - rewrite (IH ND' Hs' G D O).
    assert (Z0 : str_count (task_error_line j e)
                   (if done f' then match outcome f' with
                                    | Raise e0 => [task_error_line k e0]
                                    | Ret _ => []
                                    end else []) = 0%nat).
    { destruct (done f'); [| reflexivity].
      destruct (outcome f') as [u|e0]; [reflexivity|].
      unfold str_count. cbn [count_occ].
      destruct (string_dec _ _) as [Heq|]; [| reflexivity].
      apply task_error_line_inj in Heq.
      - subst k. rewrite String.eqb_refl in E. discriminate.
      - now rewrite Hk, Hj. }
    now rewrite Z0.
Qed.

Lemma in_flight_keys (d : dict Future) (k : string) :
  In k (dict_keys (in_flight d)) -> In k (dict_keys d).
Proof.
  unfold dict_keys, in_flight. intros H. apply in_map_iff in H.
  destruct H as (kv & <- & Hf). apply filter_In in Hf.
  apply in_map. tauto.
Qed.

Lemma in_flight_NoDup (d : dict Future) :
  NoDup (dict_keys d) -> NoDup (dict_keys (in_flight d)).
Proof.
  unfold dict_keys, in_flight. induction d as [|[k f] d IH]; simpl; intros ND.
  - constructor.
  - inversion ND as [|? ? Hn ND']; subst.
    destruct (done f); simpl; [now apply IH|].
    constructor; [| now apply IH].
    intros H. apply Hn. exact (in_flight_keys d k H).
Qed.

Lemma finish_job_keys (j : string) (d : dict Future) :
  dict_keys (finish_job j d) = dict_keys d.
Proof.
  unfold dict_keys, finish_job. rewrite map_map. apply map_ext.
  intros [k f]. simpl. destruct (String.eqb k j); reflexivity.
Qed.

(** Once [j] is reaped, nothing short of submitting [j] again brings it
    back, and no later event logs a line for it. *)
Lemma reaped_step (j : string) (e : exn) (ev : sched_event) (w : World) :
  uuid_shaped j -> reaped j w ->
  submits_shaped ev -> submits j ev = false ->
  reaped j (run_sched_event ev w)
  /\ exists added,
       processing_log (run_sched_event ev w)
       = (processing_log w ++ added)%list
       /\ str_count (task_error_line j e) added = 0%nat.
Proof.
  intros Hj (ND & Hs & Hn) Hshape Hsub. destruct ev as [k f | k |]; simpl.
  - split.
    + unfold reaped. simpl. rewrite dict_keys_set.
      destruct (in_list k (dict_keys (active_futures w))) eqn:E.
      * auto.
      * simpl in Hsub. apply String.eqb_neq in Hsub.
        repeat split.
        -- pose proof (dict_set_NoDup k f _ ND) as H.
           now rewrite dict_keys_set, E in H.
        -- apply Forall_app. split; [assumption|]. now constructor.
        -- intros H. apply in_app_iff in H.
           destruct H as [H | [H | []]]; [contradiction | congruence].
    + exists []. now rewrite app_nil_r.
  - split.
    + unfold reaped. simpl. now rewrite finish_job_keys.
    + exists []. now rewrite app_nil_r.
  - destruct (processing_status_effect w ND) as (_ & Ha & Hl). split.
    + unfold reaped. rewrite Ha. repeat split.
      * now apply in_flight_NoDup.
      * rewrite Forall_forall in *. intros k Hk.
        apply Hs. now apply in_flight_keys.
      * intros H. apply Hn. now apply in_flight_keys.
    + exists (reaped_errors (active_futures w)). split; [exact Hl|].
      now apply count_reaped_absent.
Qed.

Lemma reaped_run (j : string) (e : exn) (evs : list sched_event) (w : World) :
  uuid_shaped j -> reaped j w ->
  Forall submits_shaped evs -> Forall (fun ev => submits j ev = false) evs ->
  reaped j (run_sched_events evs w)
  /\ exists added,
       processing_log (run_sched_events evs w)
       = (processing_log w ++ added)%list
       /\ str_count (task_error_line j e) added = 0%nat.
Proof.
  intros Hj. revert w. induction evs as [|ev evs IH]; intros w Hr Hs Hn;
    simpl.
  - split; [assumption|]. exists []. now rewrite app_nil_r.
  - inversion Hs as [|? ? Hs1 Hs2]; subst.
    inversion Hn as [|? ? Hn1 Hn2]; subst.
    destruct (reaped_step j e ev w Hj Hr Hs1 Hn1) as (Hr' & a1 & L1 & C1).
    destruct (IH _ Hr' Hs2 Hn2) as (Hr'' & a2 & L2 & C2).
    split; [assumption|]. exists (a1 ++ a2)%list.
    rewrite L2, L1, <- app_assoc, str_count_app, C1, C2. auto.
Qed.

Lemma dict_get_key {V} (k : string) (v : V) (d : dict V) :
  dict_get k d = Some v -> In k (dict_keys d).
Proof.
  induction d as [|[k0 v0] d IH]; simpl; [discriminate|].
  destruct (String.eqb k0 k) eqn:E.
  - apply String.eqb_eq in E. now left.
  - intros H. right. now apply IH.
Qed.

Lemma dict_get_absent {V} (k : string) (d : dict V) :
  ~ In k (dict_keys d) -> dict_get k d = None.
Proof.
  destruct (dict_get k d) eqn:G; [| reflexivity].
  intros H. exfalso. apply H. eapply dict_get_key. exact G.
Qed.

(** C9: a poll returns the number of jobs in flight and reaps every
    finished job.  A job that ended with a captured exception is logged on
    one line by the poll that reaps it; its handle is gone afterwards, so
    whatever is submitted, finishes or is polled later, no further line is
    logged for it and it is not counted; and no poll raises. *)
Theorem processing_status_reaps_once (w : World) (j : string) (f : Future)
    (e : exn) (evs : list sched_event) :
  NoDup (dict_keys (active_futures w)) ->
  Forall uuid_shaped (dict_keys (active_futures w)) ->
  dict_get j (active_futures w) = Some f ->
  done f = true -> outcome f = Raise e ->
  Forall submits_shaped evs ->
  Forall (fun ev => submits j ev = false) evs ->
  let polled := processing_status w in
  let later := run_sched_events evs (snd polled) in
  fst polled = Ret (Z.of_nat (List.length (in_flight (active_futures w))))
  /\ active_futures (snd polled) = in_flight (active_futures w)
  /\ dict_get j (active_futures later) = None
  /\ (exists added,
        processing_log later = (processing_log w ++ added)%list
        /\ str_count (task_error_line j e) added = 1%nat)
  /\ (forall evs1 evs2, evs = (evs1 ++ evs2)%list ->
        exists n,
          fst (processing_status (run_sched_events evs1 (snd polled)))
          = Ret n).
Proof.
  intros ND Hs G D O Hsh Hns polled later.
  destruct (processing_status_effect w ND) as (R1 & R2 & R3).
  fold polled in R1, R2, R3.
  assert (Hj : uuid_shaped j).
  { rewrite Forall_forall in Hs. apply Hs. eapply dict_get_key. exact G. }
  assert (Hreaped : reaped j (snd polled)).
  { unfold reaped. rewrite R2. repeat split.
    - now apply in_flight_NoDup.
    - rewrite Forall_forall in *. intros k Hk. apply Hs.
      now apply in_flight_keys.
    - intros H. unfold dict_keys, in_flight in H. apply in_map_iff in H.
      destruct H as ([k f'] & Hk & Hf). simpl in Hk. subst k.
      apply filter_In in Hf. destruct Hf as [Hin Hd]. simpl in Hd.
      rewrite (dict_get_in j f' _ ND Hin) in G. injection G as ->.
      rewrite D in Hd. discriminate. }
  destruct (reaped_run j e evs (snd polled) Hj Hreaped Hsh Hns)
    as ((_ & _ & Hout) & added & L & C).
  fold later in Hout, L.
  split; [exact R1|]. split; [exact R2|]. split; [| split].
  - now apply dict_get_absent.
  - exists (reaped_errors (active_futures w) ++ added)%list. split.
    + now rewrite L, R3, app_assoc.
    + rewrite str_count_app, C.
      now rewrite (count_reaped_present j f e _ Hj ND Hs G D O).
  - intros evs1 evs2 ->.
    apply Forall_app in Hsh. apply Forall_app in Hns.
    destruct (reaped_run j e evs1 (snd polled) Hj Hreaped (proj1 Hsh)
                (proj1 Hns)) as ((ND1 & _) & _).
    eexists. apply (processing_status_effect _ ND1).
Qed.

(** A pool with one failed and one running job; a third job is submitted
    and the pool is polled twice more. *)
Lemma processing_status_reaps_once_witness :
  fst (processing_status sample_pool) = Ret 1
  /\ dict_get sample_job_id
       (active_futures
          (run_sched_events [Poll; Finish other_job_id; Poll]
             (snd (processing_status sample_pool)))) = None.
Proof.
  destruct (processing_status_reaps_once sample_pool sample_job_id failed_job
              (mk_exn TypeError "'NoneType' object has no attribute 'get'")
              [Poll; Finish other_job_id; Poll]) as (H1 & _ & H3 & _).
  - repeat constructor; simpl; intuition discriminate.
  - repeat constructor.
  - reflexivity.
  - reflexivity.
  - reflexivity.
  - repeat constructor.
  - repeat constructor.
  - split; [exact H1 | exact H3].
Defined.

(* ================================================================== *)
(** * The image producer *)

Section ImageProducer.

Variable rt : Runtime.

Lemma open_and_convert_decoded (path mode : string) (w : World) :
  open_and_convert rt path mode w = (decoded rt path mode, w).
Proof.
  unfold open_and_convert, decoded, bind, lift.
  destruct (image_open rt path) as [img|e]; [| reflexivity].
  destruct (convert_error rt img mode); reflexivity.
Qed.

(** ** Events *)

Lemma emits_silent (E : fs_event -> Prop) {A} (m : M A) :
  (forall w, fs (snd (m w)) = fs w) -> emits E m.
Proof.
  intros H w. exists []. rewrite app_nil_r. split; [apply H | constructor].
Qed.

Lemma emits_bind (E : fs_event -> Prop) {A B} (m : M A) (k : A -> M B) :
  emits E m -> (forall a, emits E (k a)) -> emits E (bind m k).
Proof.
  intros Hm Hk w. unfold bind. destruct (Hm w) as (evs & Hf & Ha).
  destruct (m w) as [[a|e] w']; simpl in *.
  - destruct (Hk a w') as (evs' & Hf' & Ha'). exists (evs ++ evs')%list.
    rewrite Hf', Hf, app_assoc. split; [reflexivity|].
    apply Forall_app. auto.
  - exists evs. auto.
Qed.

Lemma emits_for_each (E : fs_event -> Prop) {A} (xs : list A)
    (body : A -> M unit) :
  (forall x, In x xs -> emits E (body x)) -> emits E (for_each xs body).
Proof.
  induction xs as [|x xs IH]; simpl; intros H.
  - now apply emits_silent.
  - apply emits_bind; [apply H; now left |].
    intros _. apply IH. intros y Hy. apply H. now right.
Qed.

Lemma emits_when (E : fs_event -> Prop) (b : bool) (m : M unit) :
  emits E m -> emits E (when b m).
Proof. destruct b; simpl; [auto | intros _; now apply emits_silent]. Qed.

Lemma emits_log_message (E : fs_event -> Prop) (message level : string) :
  emits E (log_message message level).
Proof. apply emits_silent. intros w. apply log_message_rest. Qed.

Lemma emits_mkdir (E : fs_event -> Prop) (path : string) :
  E (Mkdir path) -> emits E (mkdir rt path).
Proof.
  intros H w. unfold mkdir. destruct (mkdir_error rt path); simpl.
  - exists []. rewrite app_nil_r. split; [reflexivity | constructor].
  - exists [Mkdir path]. split; [reflexivity | now repeat constructor].
Qed.

Lemma emits_save (E : fs_event -> Prop) (img : Image) (path format : string)
    (params : save_params) :
  E (Saved path img format params) -> emits E (save rt img path format params).
Proof.
  intros H w. unfold save. destruct (save_error rt path); simpl.
  - exists []. rewrite app_nil_r. split; [reflexivity | constructor].
  - eexists [_]. split; [reflexivity | now repeat constructor].
Qed.

(** [resize] writes nothing and, when it returns, returns [resampled]. *)
Lemma resize_effect (img : Image) (w h : Z) (wd : World) :
  snd (resize rt img w h wd) = wd
  /\ forall im, fst (resize rt img w h wd) = Ret im -> im = resampled img w h.
Proof.
  unfold resize. destruct ((w <? 1) || (h <? 1)); simpl.
  - split; [reflexivity | discriminate].
  - destruct (resize_error rt img w h); simpl.
    + split; [reflexivity | discriminate].
    + split; [reflexivity|]. now intros im [= <-].
Qed.

Section Rendering.

Variables (img : Image) (folder base_name target_format : string)
          (sizes_to_process : dict Z) (densities : list Z).

Let E := is_rendering rt img folder base_name target_format
                      sizes_to_process densities.

Lemma emits_render_variant (compressed : bool) (size_label : string)
    (base_width density : Z) :
  In (size_label, base_width) sizes_to_process -> In density densities ->
  emits E (render_variant rt img folder base_name target_format
             (infix_of compressed) (tier_quality rt compressed)
             size_label base_width density).
Proof.
  intros Hs Hd w. unfold render_variant, bind, lift.
  destruct (scaled_height (height img) (base_width * density) (width img))
    as [new_height|e] eqn:Hh; simpl.
  2: { exists []. rewrite app_nil_r. split; [reflexivity | constructor]. }
  destruct (resize_effect img (base_width * density) new_height w)
    as [Hw Him].
  destruct (resize rt img (base_width * density) new_height w)
    as [[im|e] w']; simpl in *; subst w'.
  2: { exists []. rewrite app_nil_r. split; [reflexivity | constructor]. }
  rewrite (Him im eq_refl).
  unfold dict_index.
  destruct (dict_get target_format FORMAT_MAPPING) as [format|] eqn:Hf; simpl.
  2: { exists []. rewrite app_nil_r. split; [reflexivity | constructor]. }
  apply emits_save. subst E. simpl.
  exists (Resized size_label density compressed). simpl.
  repeat split; auto. exists base_width, new_height. auto.
Qed.

Lemma emits_render_sizes (compressed : bool) :
  emits E (render_sizes rt img folder base_name target_format
             (infix_of compressed) (tier_quality rt compressed)
             sizes_to_process densities).
Proof.
  unfold render_sizes. apply emits_for_each. intros [size_label base_width] Hs.
  apply emits_for_each. intros density Hd.
  now apply emits_render_variant.
Qed.

Lemma emits_render_full_size (compressed : bool) :
  emits E (render_full_size rt img folder base_name target_format
             (infix_of compressed) (tier_quality rt compressed)).
Proof.
  intros w. unfold render_full_size, bind, lift, dict_index.
  destruct (dict_get target_format FORMAT_MAPPING) as [format|] eqn:Hf; simpl.
  2: { exists []. rewrite app_nil_r. split; [reflexivity | constructor]. }
  apply emits_save. subst E. simpl.
  exists (FullSize compressed). simpl. auto.
Qed.

(** Every file-system event of [render_image]. *)
Lemma emits_render_image (compression_mode : string)
    (include_full_size : bool) :
  emits E (render_image rt img folder base_name target_format
             compression_mode sizes_to_process densities include_full_size).
Proof.
  unfold render_image.
  apply emits_bind; [apply emits_mkdir; reflexivity | intros _].
  apply emits_bind.
  { apply emits_when. apply emits_bind.
    - apply (emits_render_sizes false).
    - intros _. apply emits_log_message. }
  intros _. apply emits_bind.
  { apply emits_when. apply emits_bind.
    - apply (emits_render_full_size false).
    - intros _. apply emits_log_message. }
  intros _. apply emits_when.
  apply emits_bind; [apply emits_log_message | intros _].
  apply emits_bind.
  { apply emits_when. apply (emits_render_sizes true). }
  intros _. apply emits_bind.
  { apply emits_when. apply (emits_render_full_size true). }
  intros _. apply emits_log_message.
Qed.

End Rendering.

End ImageProducer.

(** ** Blindness to the starting world *)

Lemma set_fs_same (w : World) : set_fs (fs w ++ []) w = w.
Proof. destruct w. unfold set_fs. simpl. now rewrite app_nil_r. Qed.

Lemma set_fs_twice (l1 l2 : list fs_event) (w : World) :
  set_fs (fs (set_fs (fs w ++ l1) w) ++ l2) (set_fs (fs w ++ l1) w)
  = set_fs (fs w ++ (l1 ++ l2)) w.
Proof. unfold set_fs. simpl. now rewrite app_assoc. Qed.

Lemma oblivious_lift {A} (r : result A) : oblivious (lift r).
Proof. exists r, []. intros w. unfold lift. now rewrite set_fs_same. Qed.

Lemma oblivious_ret {A} (a : A) : oblivious (ret a).
Proof. exact (oblivious_lift (Ret a)). Qed.

Lemma oblivious_bind {A B} (m : M A) (k : A -> M B) :
  oblivious m -> (forall a, oblivious (k a)) -> oblivious (bind m k).
Proof.
  intros (r & evs & Hm) Hk. destruct r as [a|e].
  - destruct (Hk a) as (r' & evs' & Hk'). exists r', (evs ++ evs')%list.
    intros w. unfold bind. rewrite Hm, Hk'. now rewrite set_fs_twice.
  - exists (Raise e), evs. intros w. unfold bind. now rewrite Hm.
Qed.

Lemma oblivious_for_each {A} (xs : list A) (body : A -> M unit) :
  (forall x, oblivious (body x)) -> oblivious (for_each xs body).
Proof.
  intros H. induction xs as [|x xs IH]; simpl.
  - apply oblivious_ret.
  - apply oblivious_bind; [apply H | intros _; apply IH].
Qed.

Lemma oblivious_resize (rt : Runtime) (img : Image) (w h : Z) :
  oblivious (resize rt img w h).
Proof.
  unfold resize. destruct ((w <? 1) || (h <? 1)).
  - apply (oblivious_lift (Raise _)).
  - destruct (resize_error rt img w h).
    + apply (oblivious_lift (Raise _)).
    + apply oblivious_ret.
Qed.

Lemma oblivious_save (rt : Runtime) (img : Image) (path format : string)
    (params : save_params) :
  oblivious (save rt img path format params).
Proof.
  unfold save. destruct (save_error rt path).
  - apply (oblivious_lift (Raise _)).
  - exists (Ret tt), [Saved path img format params]. reflexivity.
Qed.

Lemma oblivious_render_sizes (rt : Runtime) (img : Image) (folder base_name
    target_format infix : string) (quality : Z) (sizes_to_process : dict Z)
    (densities : list Z) :
  oblivious (render_sizes rt img folder base_name target_format infix quality
               sizes_to_process densities).
Proof.
  unfold render_sizes. apply oblivious_for_each. intros kv.
  apply oblivious_for_each. intros density. unfold render_variant.
  apply oblivious_bind; [apply oblivious_lift | intros new_height].
  apply oblivious_bind; [apply oblivious_resize | intros resized_img].
  apply oblivious_bind; [apply oblivious_lift | intros format].
  apply oblivious_save.
Qed.

Lemma oblivious_render_full_size (rt : Runtime) (img : Image) (folder
    base_name target_format infix : string) (quality : Z) :
  oblivious (render_full_size rt img folder base_name target_format infix
               quality).
Proof.
  unfold render_full_size.
  apply oblivious_bind; [apply oblivious_lift | intros format].
  apply oblivious_save.
Qed.

Lemma compressed_name_shape (base_name target_format : string) (v : Variant) :
  tier_of v = true ->
  exists front,
    artifact_name base_name target_format v
    = front ++ "_compressed." ++ target_format.
Proof.
  destruct v as [size_label density c | c]; simpl; intros ->; simpl.
  - exists (base_name ++ "_" ++ size_label ++ "@" ++ py_str_int density ++ "x").
    unfold variant_name. now rewrite !append_assoc.
  - exists (base_name ++ "_full_size").
    unfold full_size_name. now rewrite !append_assoc.
Qed.

Lemma renders_eq (evs evs' : list fs_event) (n n' : nat) {A} (m : M A) :
  renders evs n m -> evs = evs' -> n = n' -> renders evs' n' m.
Proof. now intros H <- <-. Qed.

Lemma renders_silent {A} (m : M A) :
  (forall w, fs (snd (m w)) = fs w) -> renders [] 0 m.
Proof.
  intros H w a _. rewrite app_nil_r. split; [apply H | reflexivity].
Qed.

Lemma renders_bind {A B} (evs1 evs2 : list fs_event) (n1 n2 : nat) (m : M A)
    (k : A -> M B) :
  renders evs1 n1 m -> (forall a, renders evs2 n2 (k a)) ->
  renders (evs1 ++ evs2) (n1 + n2) (bind m k).
Proof.
  intros Hm Hk w b. unfold bind. specialize (Hm w).
  destruct (m w) as [[a|e] w1]; cbn [fst snd] in *; [| discriminate].
  intros Hb. destruct (Hm a eq_refl) as [Hf1 Hn1].
  destruct (Hk a w1 b Hb) as [Hf2 Hn2].
  rewrite Hf2, Hf1, app_assoc, length_app. auto.
Qed.

Lemma renders_for_each {A} (f : A -> list fs_event) (c : nat) (xs : list A)
    (body : A -> M unit) :
  (forall x, renders (f x) c (body x)) ->
  renders (flat_map f xs) (List.length xs * c) (for_each xs body).
Proof.
  intros H. induction xs as [|x xs IH]; simpl.
  - now apply renders_silent.
  - apply renders_bind; [apply H | intros _; exact IH].
Qed.

Lemma renders_when (evs : list fs_event) (n : nat) (b : bool) (m : M unit) :
  renders evs n m ->
  renders (if b then evs else []) (if b then n else 0%nat) (when b m).
Proof. destruct b; simpl; [auto | intros _; now apply renders_silent]. Qed.

Lemma renders_log_message (message level : string) :
  renders [] 0 (log_message message level).
Proof. apply renders_silent. intros w. apply log_message_rest. Qed.

Lemma renders_render_variant (rt : Runtime) (img : Image) (folder base_name
    target_format : string) (compressed : bool) (size_label : string)
    (base_width density : Z) :
  renders (variant_event rt img folder base_name target_format compressed
                         size_label base_width density) 1
          (render_variant rt img folder base_name target_format
                          (infix_of compressed) (tier_quality rt compressed)
                          size_label base_width density).
Proof.
  intros w a. unfold render_variant, bind, lift, variant_event.
  destruct (scaled_height (height img) (base_width * density) (width img))
    as [new_height|e]; cbn [fst snd]; [| discriminate].
  destruct (resize_effect rt img (base_width * density) new_height w)
    as [Hw Him].
  destruct (resize rt img (base_width * density) new_height w)
    as [[im|e] w']; cbn [fst snd] in *; [subst w' | discriminate].
  rewrite (Him im eq_refl). unfold dict_index.
  destruct (dict_get target_format FORMAT_MAPPING) as [format|];
    cbn [fst snd]; [| discriminate].
  unfold save. destruct (save_error rt _); cbn [fst snd]; [discriminate|].
  intros _. split; reflexivity.
Qed.

Lemma renders_render_sizes (rt : Runtime) (img : Image) (folder base_name
    target_format : string) (compressed : bool) (sizes_to_process : dict Z)
    (densities : list Z) :
  renders (resized_events rt img folder base_name target_format compressed
                          sizes_to_process densities)
          (List.length sizes_to_process * List.length densities)
          (render_sizes rt img folder base_name target_format
                        (infix_of compressed) (tier_quality rt compressed)
                        sizes_to_process densities).
Proof.
  unfold render_sizes, resized_events.
  eapply renders_eq.
  - apply (renders_for_each
             (fun kv =>
                flat_map (fun density =>
                            variant_event rt img folder base_name
                              target_format compressed (fst kv) (snd kv)
                              density) densities)
             (List.length densities * 1)).
    intros kv.
    apply (renders_for_each
             (fun density =>
                variant_event rt img folder base_name target_format
                              compressed (fst kv) (snd kv) density) 1).
    intros density. apply renders_render_variant.
  - reflexivity.
  - now rewrite Nat.mul_1_r.
Qed.

Lemma renders_render_full_size (rt : Runtime) (img : Image) (folder
    base_name target_format : string) (compressed : bool) :
  renders (full_size_event rt img folder base_name target_format compressed)
          1
          (render_full_size rt img folder base_name target_format
                            (infix_of compressed)
                            (tier_quality rt compressed)).
Proof.
  intros w a. unfold render_full_size, bind, lift, full_size_event, dict_index.
  destruct (dict_get target_format FORMAT_MAPPING) as [format|];
    cbn [fst snd]; [| discriminate].
  unfold save. destruct (save_error rt _); cbn [fst snd]; [discriminate|].
  intros _. split; reflexivity.
Qed.

Lemma renders_then (evs : list fs_event) (n : nat) (m k : M unit) :
  renders evs n m -> renders [] 0 k -> renders evs n (m ;;; k).
Proof.
  intros Hm Hk. eapply renders_eq.
  - apply renders_bind; [exact Hm | intros _; exact Hk].
  - apply app_nil_r.
  - apply Nat.add_0_r.
Qed.

(** One tier, as [render_image] writes it. *)
Lemma renders_tier (rt : Runtime) (img : Image) (folder base_name
    target_format : string) (compressed : bool) (sizes_to_process : dict Z)
    (densities : list Z) (include_full_size : bool)
    (sizes_part full_part : M unit) {A} (rest : M A) (evs : list fs_event)
    (n : nat) :
  renders (resized_events rt img folder base_name target_format compressed
                          sizes_to_process densities)
          (List.length sizes_to_process * List.length densities) sizes_part ->
  renders (full_size_event rt img folder base_name target_format compressed)
          1 full_part ->
  renders evs n rest ->
  renders (tier_events rt img folder base_name target_format compressed
                       sizes_to_process densities include_full_size ++ evs)
          (List.length sizes_to_process * List.length densities
           + (if include_full_size then 1 else 0) + n)
          (when (nonempty sizes_to_process) sizes_part ;;;
           when include_full_size full_part ;;;
           rest).
Proof.
  intros Hs Hf Hrest. unfold tier_events.
  rewrite <- app_assoc, <- Nat.add_assoc.
  apply renders_bind; [| intros _; apply renders_bind; [| intros _; exact Hrest]].
  - destruct sizes_to_process as [|kv rest'].
    + now apply renders_silent.
    + exact Hs.
  - destruct include_full_size; [exact Hf | now apply renders_silent].
Qed.

Lemma renders_render_image_max (rt : Runtime) (img : Image) (folder base_name
    target_format : string) (sizes_to_process : dict Z) (densities : list Z)
    (include_full_size : bool) :
  let n := (List.length sizes_to_process * List.length densities
            + (if include_full_size then 1 else 0))%nat in
  renders (Mkdir folder
           :: tier_events rt img folder base_name target_format false
                sizes_to_process densities include_full_size
           ++ tier_events rt img folder base_name target_format true
                sizes_to_process densities include_full_size)
          (1 + (n + n))
          (render_image rt img folder base_name target_format
                        "max_compression" sizes_to_process densities
                        include_full_size).
Proof.
  intros n. unfold render_image. cbv zeta.
  change (String.eqb "max_compression" "max_compression") with true.
  cbn [when].
  assert (Hmk : renders [Mkdir folder] 1 (mkdir rt folder)).
  { intros w a. unfold mkdir. destruct (mkdir_error rt folder);
      cbn [fst snd]; [discriminate|]. intros _. split; reflexivity. }
  eapply renders_eq.
  - apply renders_bind; [exact Hmk | intros _].
    apply (renders_tier rt img folder base_name target_format false).
    + apply renders_then; [| apply renders_log_message].
      apply (renders_render_sizes rt img folder base_name target_format
               false).
    + apply renders_then; [| apply renders_log_message].
      apply (renders_render_full_size rt img folder base_name target_format
               false).
    + apply renders_bind; [apply renders_log_message | intros _].
      apply (renders_tier rt img folder base_name target_format true).
      * apply (renders_render_sizes rt img folder base_name target_format
                 true).
      * apply (renders_render_full_size rt img folder base_name
                 target_format true).
      * apply renders_log_message.
  - cbn [app]. now rewrite !app_nil_r.
  - subst n. lia.
Qed.

Lemma tier_events_length (rt : Runtime) (img : Image) (folder base_name
    target_format : string) (compressed : bool) (sizes_to_process : dict Z)
    (densities : list Z) (include_full_size : bool) :
  (List.length (tier_events rt img folder base_name target_format compressed
                            sizes_to_process densities include_full_size)
   <= List.length sizes_to_process * List.length densities
      + (if include_full_size then 1 else 0))%nat.
Proof.
  unfold tier_events, resized_events. rewrite length_app.
  apply Nat.add_le_mono.
  - induction sizes_to_process as [|kv rest IH]; [apply Nat.le_refl|].
    cbn [flat_map List.length]. rewrite length_app.
    apply Nat.add_le_mono; [| exact IH].
    clear IH. induction densities as [|d ds IH]; [apply Nat.le_refl|].
    cbn [flat_map List.length]. rewrite length_app.
    apply (Nat.add_le_mono _ 1); [| exact IH].
    unfold variant_event.
    destruct (scaled_height _ _ _); [| apply Nat.le_0_l].
    destruct (dict_get _ _); [apply Nat.le_refl | apply Nat.le_0_l].
  - destruct include_full_size; [| apply Nat.le_refl].
    unfold full_size_event.
    destruct (dict_get _ _); [apply Nat.le_refl | apply Nat.le_0_l].
Qed.

Lemma tier_events_compressed_names (rt : Runtime) (img : Image) (folder
    base_name target_format : string) (sizes_to_process : dict Z)
    (densities : list Z) (include_full_size : bool) :
  Forall (fun ev =>
            exists front im format,
              ev = Saved (path_join folder
                            (front ++ "_compressed." ++ target_format))
                         im format
                         (params_for target_format
                            (get_default (image_max_quality (config rt)) 75)))
         (tier_events rt img folder base_name target_format true
                      sizes_to_process densities include_full_size).
Proof.
  unfold tier_events, resized_events. apply Forall_app. split.
  - apply Forall_flat_map, Forall_forall. intros kv _.
    apply Forall_flat_map, Forall_forall. intros density _.
    unfold variant_event.
    destruct (scaled_height _ _ _) as [h|]; [| constructor].
    destruct (dict_get _ _) as [format|]; [| constructor].
    constructor; [| constructor].
    destruct (compressed_name_shape base_name target_format
                (Resized (fst kv) density true) eq_refl) as [front Hfront].
    simpl in Hfront. eexists front, _, format.
    unfold infix_of, tier_quality. now rewrite Hfront.
  - destruct include_full_size; [| constructor].
    unfold full_size_event.
    destruct (dict_get _ _) as [format|]; [| constructor].
    constructor; [| constructor].
    destruct (compressed_name_shape base_name target_format
                (FullSize true) eq_refl) as [front Hfront].
    simpl in Hfront. exists front, img, format.
    unfold infix_of, tier_quality. now rewrite Hfront.
Qed.

(** C8: with [max_compression], a render that ends normally has written
    the folder, the standard tier and then the compressed tier, one file
    for every size and density and one for full size if selected.  Each
    resized file of the compressed tier holds the decoded bitmap [img]
    resampled once, to the width asked for and the height computed from
    the dimensions of [img]; the full-size file holds [img] itself; all
    carry [_compressed] before the extension and the quality of the tier.
    Run alone, from any world, the compressed loops write the same
    files: whether the standard tier ran first makes no difference. *)
Theorem compressed_variants_resample_original (rt : Runtime) (img : Image)
    (folder base_name target_format : string) (sizes_to_process : dict Z)
    (densities : list Z) (include_full_size : bool) (w : World) :
  fst (render_image rt img folder base_name target_format "max_compression"
         sizes_to_process densities include_full_size w) = Ret tt ->
  let compressed :=
    tier_events rt img folder base_name target_format true sizes_to_process
                densities include_full_size in
  fs (snd (render_image rt img folder base_name target_format
             "max_compression" sizes_to_process densities include_full_size
             w))
  = (fs w ++ Mkdir folder
          :: tier_events rt img folder base_name target_format false
               sizes_to_process densities include_full_size
          ++ compressed)%list
  /\ List.length compressed
     = (List.length sizes_to_process * List.length densities
        + (if include_full_size then 1 else 0))%nat
  /\ Forall (fun ev =>
               exists front im format,
                 ev = Saved (path_join folder
                               (front ++ "_compressed." ++ target_format))
                            im format
                            (params_for target_format
                               (get_default (image_max_quality (config rt))
                                            75)))
            compressed
  /\ (forall w',
        fst (render_sizes rt img folder base_name target_format
               "_compressed" (get_default (image_max_quality (config rt)) 75)
               sizes_to_process densities w') = Ret tt ->
        fs (snd (render_sizes rt img folder base_name target_format
                   "_compressed"
                   (get_default (image_max_quality (config rt)) 75)
                   sizes_to_process densities w'))
        = (fs w' ++ resized_events rt img folder base_name target_format
                      true sizes_to_process densities)%list)
  /\ (forall w',
        fst (render_full_size rt img folder base_name target_format
               "_compressed" (get_default (image_max_quality (config rt)) 75)
               w') = Ret tt ->
        fs (snd (render_full_size rt img folder base_name target_format
                   "_compressed"
                   (get_default (image_max_quality (config rt)) 75) w'))
        = (fs w' ++ full_size_event rt img folder base_name target_format
                      true)%list).
Proof.
  intros Hret compressed.
  destruct (renders_render_image_max rt img folder base_name target_format
              sizes_to_process densities include_full_size w tt Hret)
    as [Hfs Hlen].
  fold compressed in Hfs, Hlen.
  split; [exact Hfs|]. split; [| split; [| split]].
  - pose proof (tier_events_length rt img folder base_name target_format
                  false sizes_to_process densities include_full_size) as Hs.
    pose proof (tier_events_length rt img folder base_name target_format
                  true sizes_to_process densities include_full_size) as Hc.
    fold compressed in Hc.
    cbn [List.length] in Hlen. rewrite length_app in Hlen.
    revert Hs Hc Hlen.
    generalize (List.length sizes_to_process * List.length densities
                + (if include_full_size then 1 else 0))%nat.
    intros n. lia.
  - apply tier_events_compressed_names.
  - intros w' H.
    apply (renders_render_sizes rt img folder base_name target_format true
             sizes_to_process densities w' tt H).
  - intros w' H.
    apply (renders_render_full_size rt img folder base_name target_format
             true w' tt H).
Qed.

(** C2 (amended): a resized variant is [base_width * density] wide and
    its height is [int(source_height * (base_width * density /
    source_width))], the product computed in double precision and cut
    toward zero; a full-size variant keeps the source's size.  For a 1000
    by 500 source and width 200 the height is 100. *)
Theorem resized_variant_dimensions (rt : Runtime) (img : Image)
    (folder base_name target_format compression_mode : string)
    (sizes_to_process : dict Z) (densities : list Z)
    (include_full_size : bool) (w : World) :
  (exists evs,
     fs (snd (render_image rt img folder base_name target_format
                compression_mode sizes_to_process densities
                include_full_size w)) = (fs w ++ evs)%list
     /\ Forall (fun ev =>
          match ev with
          | Saved path im format params =>
              exists v,
                path = path_join folder
                         (artifact_name base_name target_format v)
                /\ match v with
                   | Resized size_label density _ =>
                       exists base_width,
                         In (size_label, base_width) sizes_to_process
                         /\ In density densities
                         /\ width im = base_width * density
                         /\ scaled_height (height img) (base_width * density)
                                          (width img) = Ret (height im)
                   | FullSize _ =>
                       width im = width img /\ height im = height img
                   end
          | _ => True
          end) evs)
  /\ scaled_height 500 (200 * 1) 1000 = Ret 100.
Proof.
  split; [| reflexivity].
  destruct (emits_render_image rt img folder base_name target_format
              sizes_to_process densities compression_mode include_full_size w)
    as (evs & Hf & Ha).
  exists evs. split; [exact Hf|]. eapply Forall_impl; [| exact Ha].
  intros [path | path im format params | path]; simpl; auto.
  intros (v & Hp & _ & _ & Hv). exists v. split; [exact Hp|].
  destruct v as [size_label density c | c].
  - destruct Hv as (bw & nh & Hs & Hd & Hh & ->). exists bw. simpl. auto.
  - subst im. auto.
Qed.

(** ** A source that does not decode *)

Lemma run_command_quiet (rt : Runtime) (cmd : command) (log_prefix : string)
    (w : World) :
  fs (snd (run_command rt cmd log_prefix w)) = fs w
  /\ exists added,
       processing_log (snd (run_command rt cmd log_prefix w))
       = (processing_log w ++ added)%list.
Proof.
  destruct cmd as [|c0 args].
  - simpl. split; [reflexivity|]. exists []. now rewrite app_nil_r.
  - unfold run_command, subprocess_run_checked, bind, record_invocation, ret.
    simpl.
    destruct (subprocess_run rt (invocations w) _) as [out err | e]; simpl.
    + split; [reflexivity|]. eexists. reflexivity.
    + destruct (exn_cls e); simpl; unfold raise, lift;
        try destruct (last_diagnostic (exn_stderr e)); simpl;
        (split; [reflexivity|]);
        first [ now (exists []; rewrite app_nil_r)
              | eexists; reflexivity ].
Qed.

Lemma with_block_undecodable (rt : Runtime) (file_path : FilePath)
    (folder target_format compression_mode : string) (sizes : dict Z)
    (densities : list Z) (full : bool) (path : string) (e : exn) (w : World) :
  decoded rt path (if String.eqb target_format "png" then "RGBA" else "RGB")
  = Raise e ->
  with_block rt file_path folder target_format compression_mode sizes
             densities full path w
  = match exn_cls e with
    | UnidentifiedImageError =>
        (Ret false,
         snd (log_message ("🚨 Error: Unable to recognize '"
                           ++ name file_path ++ "'.") info w))
    | _ => (Raise e, w)
    end.
Proof.
  intros H. unfold with_block, bind, try_except.
  rewrite open_and_convert_decoded, H.
  destruct (exn_cls e); reflexivity.
Qed.

Lemma only_unlinks_none (l : list fs_event) :
  exists evs, l = (l ++ evs)%list
              /\ Forall (fun ev => exists p, ev = Unlinked p) evs.
Proof. exists []. rewrite app_nil_r. split; [reflexivity | constructor]. Qed.

Lemma only_unlinks_one (l : list fs_event) (p : string) :
  exists evs, (l ++ [Unlinked p])%list = (l ++ evs)%list
              /\ Forall (fun ev => exists p, ev = Unlinked p) evs.
Proof.
  exists [Unlinked p]. split; [reflexivity|]. repeat constructor. eauto.
Qed.

Lemma prepare_image_path_undecodable (rt : Runtime) (file_path : FilePath)
    (folder target_format compression_mode : string) (sizes : dict Z)
    (densities : list Z) (full : bool) (e : exn) (w : World) :
  decoded rt (image_to_process rt file_path)
          (if String.eqb target_format "png" then "RGBA" else "RGB")
  = Raise e ->
  let r := prepare_image_path rt file_path
             (with_block rt file_path folder target_format compression_mode
                         sizes densities full) w in
  fst r <> Ret true
  /\ (exists evs, fs (snd r) = (fs w ++ evs)%list
                  /\ Forall (fun ev => exists p, ev = Unlinked p) evs)
  /\ (exists added,
        processing_log (snd r) = (processing_log w ++ added)%list
        /\ (fst r = Ret false ->
            exists pre line, added = (pre ++ [line])%list
                             /\ is_error_line line = true)).
Proof.
  intros H r.
  assert (Hr : r = prepare_image_path rt file_path
                     (with_block rt file_path folder target_format
                                 compression_mode sizes densities full) w)
    by reflexivity.
  clearbody r. unfold prepare_image_path, image_to_process in *.
  destruct (String.eqb (py_lower (suffix file_path)) ".heic" && darwin rt).
  - unfold bind at 1 in Hr. rewrite log_message_info in Hr.
    unfold try_finally, bind in Hr.
    match type of Hr with
    | context [run_command rt ?c ?p ?w0] =>
        destruct (run_command_quiet rt c p w0) as (Hf & l1 & Hl);
        destruct (run_command rt c p w0) as [[out|e1] w1]
    end; simpl in Hf, Hl.
    + rewrite (with_block_undecodable _ _ _ _ _ _ _ _ _ _ _ H) in Hr.
      destruct (exn_cls e); simpl in Hr;
        destruct (path_exists rt _ _); simpl in Hr; subst r; simpl;
        (split; [discriminate|]); rewrite ?Hf, ?Hl;
        (split;
         [ first [ apply only_unlinks_none | apply only_unlinks_one ]
         | eexists; rewrite <- !app_assoc; split; [reflexivity|];
           first [ discriminate
                 | intros _; eexists (_ :: l1)%list, _; split; reflexivity ]
         ]).
    + destruct (path_exists rt _ _); simpl in Hr; subst r; simpl;
        (split; [discriminate|]); rewrite ?Hf, ?Hl;
        (split;
         [ first [ apply only_unlinks_none | apply only_unlinks_one ]
         | eexists; rewrite <- !app_assoc; split;
           [reflexivity | discriminate] ]).
  - rewrite (with_block_undecodable _ _ _ _ _ _ _ _ _ _ _ H) in Hr.
    destruct (exn_cls e); simpl in Hr; subst r; simpl;
      (split; [discriminate|]);
      (split; [apply only_unlinks_none |]);
      first [ now (exists []; rewrite app_nil_r; split;
                   [reflexivity | discriminate])
            | eexists; split; [reflexivity|]; intros _;
              eexists [], _; split; reflexivity ].
Qed.

(** C3: when the source of an image asset does not decode -- the decoder
    does not recognise it, or fails in any other way -- the job logs an
    error as its last line, writes no file and creates no folder (at most
    it removes the temporary conversion of a HEIC source), and returns
    without raising, so nothing reaches the scheduler. *)
Theorem process_image_undecodable (rt : Runtime) (file_path : FilePath)
    (profile : Profile) (settings : Settings) (w : World) (e : exn) :
  decoded rt (image_to_process rt file_path) (decode_mode settings)
  = Raise e ->
  let r := process_image rt file_path profile settings w in
  fst r = Ret tt
  /\ (exists evs, fs (snd r) = (fs w ++ evs)%list
                  /\ Forall (fun ev => exists p, ev = Unlinked p) evs)
  /\ (exists added line,
        processing_log (snd r) = (processing_log w ++ added ++ [line])%list
        /\ is_error_line line = true).
Proof.
  intros H r.
  assert (Hr : r = process_image rt file_path profile settings w)
    by reflexivity.
  clearbody r. unfold process_image in Hr.
  destruct (OUTPUT_DIR rt) as [output_dir|].
  2: { rewrite log_message_info in Hr. subst r. simpl.
       split; [reflexivity|]. split; [apply only_unlinks_none|].
       eexists [], _. split; reflexivity. }
  unfold try_except, process_image_body in Hr. unfold bind at 1 in Hr.
  pose proof (get_custom_sizes_value rt (custom_sizes settings) w) as Hv.
  destruct (get_custom_sizes_world rt (custom_sizes settings) w)
    as (Hf1 & _ & _ & Hl1).
  assert (Hl1' : exists l1,
            processing_log (snd (get_custom_sizes rt (custom_sizes settings) w))
            = (processing_log w ++ l1)%list).
  { destruct (forallb _ _) in Hl1.
    - exists []. now rewrite app_nil_r.
    - eexists. exact Hl1. }
  clear Hl1. destruct Hl1' as [l1 Hl1].
  destruct (get_custom_sizes rt (custom_sizes settings) w) as [r1 w1].
  simpl in Hv, Hf1, Hl1. subst r1.
  unfold bind at 1 in Hr. rewrite log_message_info in Hr.
  unfold bind at 1 in Hr. rewrite log_message_info in Hr.
  unfold bind at 1 in Hr.
  match type of Hr with
  | context [prepare_image_path rt file_path ?b ?w0] =>
      destruct (prepare_image_path_undecodable rt file_path
                  (path_join output_dir (stem file_path))
                  (image_format settings) (compression_mode settings)
                  (dict_update
                     (dict_select (sizes_to_process settings) (sizes profile))
                     (custom_sizes_dict rt (custom_sizes settings)))
                  (if include_retina settings then [1; 2] else [1])
                  (in_list "full_size" (sizes_to_process settings))
                  e w0 H) as (Hne & (evs & Hf2 & Ha2) & (l2 & Hl2 & Hlast));
      destruct (prepare_image_path rt file_path b w0) as [[b0|e0] w2]
  end; simpl in Hne, Hf2, Hl2, Hlast.
  - destruct b0; [congruence|]. simpl in Hr. subst r. simpl.
    split; [reflexivity|]. split.
    + exists evs. rewrite Hf2, Hf1. auto.
    + destruct (Hlast eq_refl) as (pre & line & -> & Herr).
      eexists (l1 ++ _ :: _ :: pre)%list, line. split; [| exact Herr].
      rewrite Hl2, Hl1, <- !app_assoc. reflexivity.
  - assert (Hh : exists line,
              is_error_line line = true
              /\ fst r = Ret tt /\ fs (snd r) = fs w2
              /\ processing_log (snd r) = (processing_log w2 ++ [line])%list).
    { destruct (exn_cls e0); subst r; try unfold bind;
        rewrite log_message_info;
        try rewrite log_message_debug; simpl; eexists;
        (split; [| split; [reflexivity | split; reflexivity]]); reflexivity. }
    destruct Hh as (line & Herr & R1 & R2 & R3).
    split; [exact R1|]. split.
    + exists evs. rewrite R2, Hf2, Hf1. auto.
    + eexists (l1 ++ _ :: _ :: l2)%list, line. split; [| exact Herr].
      rewrite R3, Hl2, Hl1, <- !app_assoc. reflexivity.
Qed.

(** A file the decoder does not recognise. *)
Lemma process_image_undecodable_witness :
  fst (process_image (sample_runtime tool_ok open_unidentified) sample_photo
         (image_profile sample_config)
         (sample_settings ["thumb"; "full_size"] "50" "max_compression")
         empty_world) = Ret tt
  /\ fs (snd (process_image (sample_runtime tool_ok open_unidentified)
                sample_photo (image_profile sample_config)
                (sample_settings ["thumb"; "full_size"] "50"
                                 "max_compression")
                empty_world)) = [].
Proof.
  destruct (process_image_undecodable
              (sample_runtime tool_ok open_unidentified) sample_photo
              (image_profile sample_config)
              (sample_settings ["thumb"; "full_size"] "50" "max_compression")
              empty_world
              (mk_exn UnidentifiedImageError
                 ("cannot identify image file " ++ py_repr "source/photo.png"))
              eq_refl) as (H1 & _ & _).
  split; [exact H1 | reflexivity].
Defined.

(** The compressed tier of a 1000 by 500 source at width 200. *)
Lemma compressed_variants_resample_original_witness :
  fs (snd (render_image working_runtime sample_image "output/photo" "photo"
             "jpg" "max_compression" [("custom_200px", 200)] [1] true
             empty_world))
  = ([] ++ [Mkdir "output/photo";
            Saved "output/photo/photo_custom_200px@1x.jpg"
                  (resampled sample_image 200 100) "JPEG" (Quality 85);
            Saved "output/photo/photo_full_size.jpg" sample_image "JPEG"
                  (Quality 85);
            Saved "output/photo/photo_custom_200px@1x_compressed.jpg"
                  (resampled sample_image 200 100) "JPEG" (Quality 75);
            Saved "output/photo/photo_full_size_compressed.jpg" sample_image
                  "JPEG" (Quality 75)])%list.
Proof.
  refine (proj1 (compressed_variants_resample_original working_runtime
                   sample_image "output/photo" "photo" "jpg"
                   [("custom_200px", 200)] [1] true empty_world _)).
  vm_compute. reflexivity.
Defined.

(** A 1000 by 500 source at width 200 and density 1. *)
Lemma resized_variant_dimensions_witness :
  scaled_height 500 (200 * 1) 1000 = Ret 100.
Proof.
  exact (proj2 (resized_variant_dimensions working_runtime sample_image
                  "output/photo" "photo" "jpg" "standard"
                  [("custom_200px", 200)] [1] false empty_world)).
Defined.

(** The whole job on that source: one file, 200 by 100. *)
Example process_image_1000x500_at_200 :
  fs (snd (process_image working_runtime sample_photo
             (image_profile sample_config)
             (sample_settings [] "200" "standard") empty_world))
  = [Mkdir "output/photo";
     Saved "output/photo/photo_custom_200px@1x.jpg"
           {| width := 200; height := 100; mode := "RGB";
              content := Lanczos 200 100
                           (Converted "RGB" (Decoded "source/photo.png")) |}
           "JPEG" (Quality 85)].
Proof. reflexivity. Qed.

(** C2 as stated fails: a 3 by 2 source rendered at width 4 comes out 2
    pixels high, where the rounded quotient [2 * 4 / 3] is 3. *)
Lemma resized_height_is_cut_not_rounded :
  fs (snd (process_image small_source_runtime sample_photo
             (image_profile sample_config)
             (sample_settings [] "4" "standard") empty_world))
  = [Mkdir "output/photo";
     Saved "output/photo/photo_custom_4px@1x.jpg"
           {| width := 4; height := 2; mode := "RGB";
              content := Lanczos 4 2
                           (Converted "RGB" (Decoded "source/photo.png")) |}
           "JPEG" (Quality 85)]
  /\ spec_rounded_height 2 (4 * 1) 3 = 3.
Proof. split; reflexivity. Qed.

(* ================================================================== *)
(** * Further properties: failures stay inside a job *)

Lemma two_logs_return (a b : string) (w : World) :
  fst ((log_message a info ;;; log_message b debug) w) = Ret tt.
Proof. reflexivity. Qed.

Lemma process_image_returns (rt : Runtime) (file_path : FilePath)
    (profile : Profile) (settings : Settings) (w : World) :
  fst (process_image rt file_path profile settings w) = Ret tt.
Proof.
  unfold process_image. destruct (OUTPUT_DIR rt); [| reflexivity].
  unfold try_except.
  destruct (process_image_body rt _ _ _ _ w) as [[[]|e] w1];
    [reflexivity|].
  destruct (exn_cls e); reflexivity.
Qed.

Lemma process_video_returns (rt : Runtime) (file_path : FilePath)
    (profile : Profile) (settings : Settings) (w : World) :
  fst (process_video rt file_path profile settings w) = Ret tt.
Proof.
  unfold process_video. destruct (OUTPUT_DIR rt); [| reflexivity].
  unfold try_except.
  destruct (process_video_body rt _ _ _ _ w) as [[[]|e] w1]; reflexivity.
Qed.

Lemma process_audio_only_returns (rt : Runtime) (file_path : FilePath)
    (settings : Settings) (w : World) :
  fst (process_audio_only rt file_path settings w) = Ret tt.
Proof.
  unfold process_audio_only, try_except.
  match goal with
  | |- fst (match ?m with _ => _ end) = _ => destruct m as [[[]|e] w1]
  end; reflexivity.
Qed.

(** Whatever the tools, the decoder, the file system and the
    configuration do, a producer ends by returning: every statement that
    can fail stands inside its [try], and no handler raises. *)
Theorem producers_never_raise (rt : Runtime) (file_path : FilePath)
    (profile : Profile) (settings : Settings) (w : World) :
  fst (process_image rt file_path profile settings w) = Ret tt
  /\ fst (process_video rt file_path profile settings w) = Ret tt
  /\ fst (process_audio_only rt file_path settings w) = Ret tt.
Proof.
  split; [apply process_image_returns|].
  split; [apply process_video_returns | apply process_audio_only_returns].
Qed.

(** With no output directory configured none of the producers runs a
    command or touches the file system; each one logs an error and
    returns. *)
Theorem unconfigured_output_dir_stops_producers (rt : Runtime)
    (file_path : FilePath) (profile : Profile) (settings : Settings)
    (w : World) :
  OUTPUT_DIR rt = None ->
  Forall (fun r : result unit * World =>
            fst r = Ret tt
            /\ invocations (snd r) = invocations w
            /\ fs (snd r) = fs w
            /\ exists pre line,
                 processing_log (snd r)
                 = (processing_log w ++ pre ++ [line])%list
                 /\ is_error_line line = true)
         [process_image rt file_path profile settings w;
          process_video rt file_path profile settings w;
          process_audio_only rt file_path settings w].
Proof.
  intros H. repeat constructor;
    unfold process_image, process_video, process_audio_only;
    rewrite H; try reflexivity.
  - eexists [], _. split; reflexivity.
  - eexists [], _. split; reflexivity.
  - simpl. rewrite <- app_assoc. eexists [_], _. split; reflexivity.
Qed.

Lemma unconfigured_output_dir_stops_producers_witness :
  invocations
    (snd (process_audio_only
            (sample_runtime_without_output tool_ok) sample_audio
            video_settings empty_world)) = [].
Proof.
  pose proof (unconfigured_output_dir_stops_producers
                (sample_runtime_without_output tool_ok) sample_audio
                (video_profile sample_config) video_settings empty_world
                eq_refl) as H.
  inversion H as [|? ? _ Hv]. inversion Hv as [|? ? _ Ha].
  inversion Ha as [|? ? Hr _]. exact (proj1 (proj2 Hr)).
Defined.

(** An audio job closes its log with the completion line exactly when the
    transcoder completed, and with the audio error line when it failed. *)
Theorem process_audio_only_reports_outcome (rt : Runtime)
    (output_dir : string) (file_path : FilePath) (settings : Settings)
    (w : World) :
  OUTPUT_DIR rt = Some output_dir ->
  mkdir_error rt (path_join output_dir (stem file_path)) = None ->
  let cmd := with_loglevel rt (audio_cmd rt file_path output_dir "libmp3lame") in
  let r := process_audio_only rt file_path settings w in
  match subprocess_run rt (invocations w) cmd with
  | Completed _ _ =>
      exists pre,
        processing_log (snd r) = (pre ++ [audio_done_line file_path])%list
  | Failed _ =>
      exists pre e,
        processing_log (snd r) = (pre ++ [audio_error_line file_path e])%list
  end.
Proof.
  intros Hout Hmk cmd r. subst r cmd.
  unfold process_audio_only, try_except, bind.
  rewrite Hout, log_message_info. unfold mkdir. rewrite Hmk. simpl.
  unfold audio_cmd.
  match goal with
  | |- context [run_command rt (?c0 :: ?args) ?p ?w0] =>
      destruct (run_command_effect rt c0 args p w0) as (_ & _ & _ & Hr)
  end.
  simpl in Hr.
  destruct (subprocess_run rt (invocations w) _) as [out err | e0].
  - destruct Hr as [Hr _].
    destruct (run_command rt _ _ _) as [[out'|e] w1]; simpl in *;
      [| discriminate].
    eexists. reflexivity.
  - destruct Hr as [e' Hr].
    destruct (run_command rt _ _ _) as [[out'|e] w1]; simpl in *;
      [discriminate|].
    eexists _, e. reflexivity.
Qed.

Lemma process_audio_only_reports_outcome_witness :
  exists pre,
    processing_log
      (snd (process_audio_only working_runtime sample_audio video_settings
              empty_world))
    = (pre ++ [audio_done_line sample_audio])%list.
Proof.
  exact (process_audio_only_reports_outcome working_runtime "output"
           sample_audio video_settings empty_world eq_refl eq_refl).
Defined.

(* ================================================================== *)
(** * Further properties: the tool invoker *)

Lemma linebreak_is_space (c : ascii) :
  py_islinebreak_char c = true -> py_isspace_char c = true.
Proof.
  unfold py_islinebreak_char, py_isspace_char.
  generalize (code c). intros n H.
  repeat rewrite ?orb_true_iff, ?andb_true_iff, ?N.leb_le, ?N.eqb_eq in *.
  lia.
Qed.

Lemma str_last_rstrip (s : string) :
  match str_last (py_rstrip s) with
  | Some c => py_isspace_char c = false
  | None => True
  end.
Proof.
  induction s as [|c s IH]; simpl; [exact I|].
  destruct (py_rstrip s) as [|c' t] eqn:E.
  - destruct (py_isspace_char c) eqn:Sp; simpl; [exact I | exact Sp].
  - simpl in *. destruct (str_last t); exact IH.
Qed.

Lemma last_line_no_break (s : string) :
  str_existsb py_islinebreak_char (last_line s) = false.
Proof.
  induction s as [|c s IH]; simpl; [reflexivity|].
  destruct (str_existsb py_islinebreak_char s) eqn:E; [exact IH|].
  destruct (py_islinebreak_char c) eqn:B; [exact E|].
  simpl. now rewrite B, E.
Qed.

Lemma last_line_suffix (s : string) : exists front, s = front ++ last_line s.
Proof.
  induction s as [|c s IH]; simpl.
  - now exists EmptyString.
  - destruct (str_existsb py_islinebreak_char s).
    + destruct IH as [front IH]. exists (String c front). simpl. congruence.
    + destruct (py_islinebreak_char c).
      * now exists (String c EmptyString).
      * now exists EmptyString.
Qed.

Lemma last_line_nonempty (s : string) (c : ascii) :
  str_last s = Some c -> py_islinebreak_char c = false ->
  str_nonempty (last_line s) = true.
Proof.
  induction s as [|x s IH]; simpl; [discriminate|].
  intros Hl Hc.
  destruct (str_existsb py_islinebreak_char s) eqn:E.
  - destruct (str_last s) as [c'|] eqn:L.
    + injection Hl as ->. now apply IH.
    + destruct s; [discriminate E | simpl in L].
      destruct (str_last s); discriminate.
  - destruct (py_islinebreak_char x) eqn:B; [| reflexivity].
    destruct s as [|y s]; [| reflexivity].
    simpl in Hl. injection Hl as ->. congruence.
Qed.

(** The line [run_command] logs for a non-zero exit status: [Unknown
    error] when the tool wrote nothing to its diagnostic stream; otherwise
    the last line of what it wrote, which is not empty and holds no line
    break.  When the stream holds white space only, nothing is logged and
    an [IndexError] replaces the process error. *)
Theorem run_command_reports_last_diagnostic_line (rt : Runtime)
    (c0 : string) (args : list string) (log_prefix : string) (w : World)
    (e : exn) :
  subprocess_run rt (invocations w) (with_loglevel rt (c0 :: args))
  = Failed e ->
  exn_cls e = CalledProcessError ->
  let r := run_command rt (c0 :: args) log_prefix w in
  if negb (str_nonempty (exn_stderr e)) then
    fst r = Raise e
    /\ processing_log (snd r)
       = (processing_log w ++ [diagnostic_line log_prefix "Unknown error"])%list
  else if str_nonempty (py_strip (exn_stderr e)) then
    let d := last_line (py_strip (exn_stderr e)) in
    fst r = Raise e
    /\ processing_log (snd r)
       = (processing_log w ++ [diagnostic_line log_prefix d])%list
    /\ str_nonempty d = true
    /\ str_existsb py_islinebreak_char d = false
    /\ exists front, py_strip (exn_stderr e) = front ++ d
  else
    (exists ie, fst r = Raise ie /\ exn_cls ie = IndexError)
    /\ processing_log (snd r) = processing_log w.
Proof.
  intros Hrun Hcls r. subst r.
  unfold with_loglevel in Hrun.
  unfold run_command, subprocess_run_checked, bind, record_invocation, ret.
  cbv zeta. set (c := if String.eqb c0 (FFMPEG_CMD rt) then _ else _) in *.
  simpl. rewrite Hrun. simpl. rewrite Hcls.
  unfold lift, last_diagnostic, bind.
  destruct (str_nonempty (exn_stderr e)) eqn:N; simpl; [| auto].
  destruct (str_nonempty (py_strip (exn_stderr e))) eqn:S; simpl.
  - repeat split; auto.
    + pose proof (str_last_rstrip (py_lstrip (exn_stderr e))) as L.
      fold (py_strip (exn_stderr e)) in L.
      destruct (str_last (py_strip (exn_stderr e))) as [ch|] eqn:E.
      * apply (last_line_nonempty _ ch E).
        destruct (py_islinebreak_char ch) eqn:B; [| reflexivity].
        apply linebreak_is_space in B. congruence.
      * destruct (py_strip (exn_stderr e)); [discriminate S|].
        simpl in E. destruct (str_last s); discriminate.
    + apply last_line_no_break.
    + apply last_line_suffix.
  - split; [| reflexivity]. eexists. split; reflexivity.
Qed.

(** A tool that fails with two lines on its diagnostic stream. *)
Lemma run_command_reports_last_diagnostic_line_witness :
  processing_log
    (snd (run_command two_line_runtime ["bin/ffmpeg"; "-i"; "in.mp4"] "  >"
            empty_world))
  = ["  > 🚨 ERROR: in.mp4: Invalid data"].
Proof.
  exact (proj1 (proj2 (run_command_reports_last_diagnostic_line
                         two_line_runtime "bin/ffmpeg" ["-i"; "in.mp4"] "  >"
                         empty_world _ eq_refl eq_refl))).
Defined.

(* ================================================================== *)
(** * Further properties: the HEIC intermediate *)

Lemma finally_unlinks {A : Type} (rt : Runtime) (m : M A) (p : string)
    (w : World) :
  let r := try_finally m
             (fun w => if path_exists rt (invocations w) p
                       then record_fs (Unlinked p) w else (Ret tt, w)) w in
  path_exists rt (invocations (snd r)) p = true ->
  exists pre, fs (snd r) = (pre ++ [Unlinked p])%list.
Proof.
  unfold try_finally. destruct (m w) as [r0 w'].
  destruct (path_exists rt (invocations w') p) eqn:E; simpl.
  - intros _. destruct w'. eexists. reflexivity.
  - intros H. congruence.
Qed.

(** For a HEIC source on macOS, whatever the block does with the
    intermediate PNG: if that file exists when the block is left, normally
    or by an exception, removing it is the last thing done.  When the
    conversion fails the block is not entered and the failure reaches the
    caller. *)
Theorem prepare_image_path_cleans_up {A : Type} (rt : Runtime)
    (file_path : FilePath) (body body' : string -> M A) (w : World) :
  converts_heic rt file_path = true ->
  let r := prepare_image_path rt file_path body w in
  (path_exists rt (invocations (snd r)) (temp_png file_path) = true ->
   exists pre, fs (snd r) = (pre ++ [Unlinked (temp_png file_path)])%list)
  /\ (forall e,
        subprocess_run rt (invocations w) (with_loglevel rt (sips_cmd file_path))
        = Failed e ->
        (exists e', fst r = Raise e')
        /\ prepare_image_path rt file_path body' w = r).
Proof.
  intros Hc r. subst r. unfold converts_heic in Hc.
  unfold prepare_image_path. rewrite Hc. unfold temp_png, sips_cmd.
  split.
  - unfold bind at 1. rewrite log_message_info. apply finally_unlinks.
  - intros e He. unfold try_finally, bind. rewrite !log_message_info.
    match goal with
    | |- context [run_command rt (?c0 :: ?args) ?p ?w0] =>
        destruct (run_command_effect rt c0 args p w0) as (_ & _ & _ & Hr)
    end.
    unfold temp_png in He. cbn [invocations set_processing_log set_console] in Hr. rewrite He in Hr. destruct Hr as [e' Hr].
    destruct (run_command rt _ _ _) as [[out|e1] w1]; simpl in Hr;
      [discriminate|].
    split; [| reflexivity].
    destruct (path_exists rt (invocations w1) _); simpl; eauto.
Qed.

(** A HEIC photograph whose block fails after a successful conversion. *)
Lemma prepare_image_path_cleans_up_witness :
  exists pre,
    fs (snd (prepare_image_path (A := unit) (mac_runtime tool_ok) sample_heic
               (fun _ => raise (mk_exn OSError "cannot write"))
               empty_world))
    = (pre ++ [Unlinked "source/IMG_0001.temp.png"])%list.
Proof.
  exact (proj1 (prepare_image_path_cleans_up (A := unit) (mac_runtime tool_ok)
                  sample_heic
                  (fun _ => raise (mk_exn OSError "cannot write"))
                  (fun _ => ret tt) empty_world eq_refl) eq_refl).
Defined.

(* ================================================================== *)
(** * Further properties: a video job that succeeds *)

Lemma closes_bind (line : string) {A B} (m : M A) (k : A -> M B) :
  (forall a, closes line (k a)) -> closes line (bind m k).
Proof.
  intros H w b. unfold bind. destruct (m w) as [[a|e] w1]; simpl.
  - apply H.
  - discriminate.
Qed.

Lemma closes_log (line : string) : closes line (log_message line info).
Proof. intros w a _. rewrite log_message_info. simpl. eauto. Qed.

Lemma closes_process_video_body (rt : Runtime) (output_dir : string)
    (file_path : FilePath) (profile : Profile) (settings : Settings) :
  closes (video_done_line file_path)
         (process_video_body rt output_dir file_path profile settings).
Proof.
  unfold process_video_body. cbv zeta.
  repeat (apply closes_bind; intros). apply closes_log.
Qed.




(* ================================================================== *)
(** * Further properties: what an image job leaves on disk *)

Lemma emits_weaken (E E' : fs_event -> Prop) {A} (m : M A) :
  (forall ev, E ev -> E' ev) -> emits E m -> emits E' m.
Proof.
  intros H Hm w. destruct (Hm w) as (evs & Hf & Ha). exists evs.
  split; [exact Hf|]. eapply Forall_impl; eauto.
Qed.

Lemma emits_try_except (E : fs_event -> Prop) {A} (m : M A)
    (h : exn -> M A) :
  emits E m -> (forall e, emits E (h e)) -> emits E (try_except m h).
Proof.
  intros Hm Hh w. unfold try_except. destruct (Hm w) as (evs & Hf & Ha).
  destruct (m w) as [[a|e] w']; simpl in *.
  - exists evs. auto.
  - destruct (Hh e w') as (evs' & Hf' & Ha'). exists (evs ++ evs')%list.
    rewrite Hf', Hf, app_assoc. split; [reflexivity|].
    apply Forall_app. auto.
Qed.

Lemma emits_try_finally (E : fs_event -> Prop) {A} (m : M A)
    (fin : M unit) :
  emits E m -> emits E fin -> emits E (try_finally m fin).
Proof.
  intros Hm Hfin w. unfold try_finally. destruct (Hm w) as (evs & Hf & Ha).
  destruct (m w) as [r w']; simpl in *.
  destruct (Hfin w') as (evs' & Hf' & Ha').
  exists (evs ++ evs')%list.
  destruct (fin w') as [[[]|e] w'']; simpl in *;
    (rewrite Hf', Hf, app_assoc; split; [reflexivity|];
     apply Forall_app; auto).
Qed.

Lemma emits_run_command (E : fs_event -> Prop) (rt : Runtime)
    (cmd : command) (log_prefix : string) :
  emits E (run_command rt cmd log_prefix).
Proof.
  apply emits_silent. intros w. apply (run_command_quiet rt cmd log_prefix w).
Qed.

Lemma emits_get_custom_sizes (E : fs_event -> Prop) (rt : Runtime)
    (custom_sizes_str : string) :
  emits E (get_custom_sizes rt custom_sizes_str).
Proof.
  apply emits_silent. intros w.
  apply (get_custom_sizes_world rt custom_sizes_str w).
Qed.

Lemma rendering_confined (rt : Runtime) (img : Image)
    (folder temp base_name target_format : string) (sizes_to_process : dict Z)
    (densities : list Z) (ev : fs_event) :
  is_rendering rt img folder base_name target_format sizes_to_process
               densities ev ->
  confined folder temp target_format ev.
Proof.
  destruct ev as [path | path im format params | path]; simpl.
  - auto.
  - intros (v & Hp & Hf & _). split; [eauto | exact Hf].
  - intros [].
Qed.

Lemma emits_with_block (E : fs_event -> Prop) (rt : Runtime)
    (file_path : FilePath) (folder target_format compression_mode : string)
    (sizes_to_process : dict Z) (densities : list Z)
    (include_full_size : bool) (path : string) :
  (forall img ev,
     decoded rt path (if String.eqb target_format "png" then "RGBA" else "RGB")
     = Ret img ->
     is_rendering rt img folder (stem file_path) target_format
                  sizes_to_process densities ev ->
     E ev) ->
  emits E (with_block rt file_path folder target_format compression_mode
                      sizes_to_process densities include_full_size path).
Proof.
  intros H w. unfold with_block, bind, try_except.
  rewrite open_and_convert_decoded.
  destruct (decoded rt path _) as [img|e] eqn:Hd; cbn [fst snd].
  - unfold ret. cbv beta iota.
    destruct (emits_render_image rt img folder (stem file_path) target_format
                sizes_to_process densities compression_mode include_full_size
                w) as (evs & Hf & Ha).
    exists evs.
    destruct (render_image rt img folder (stem file_path) target_format
                compression_mode sizes_to_process densities include_full_size
                w) as [[[]|e] w1]; cbn [fst snd] in *;
      (split; [exact Hf|]; eapply Forall_impl; [| exact Ha];
       intros ev; apply (H img ev eq_refl)).
  - exists []. rewrite app_nil_r. split; [| constructor].
    destruct (exn_cls e); reflexivity.
Qed.

(** Every file-system event of an image job. *)
Lemma emits_process_image (E : fs_event -> Prop) (rt : Runtime)
    (output_dir : string) (file_path : FilePath) (profile : Profile)
    (settings : Settings) :
  OUTPUT_DIR rt = Some output_dir ->
  E (Unlinked (temp_png file_path)) ->
  (forall img path sizes_to_process densities ev,
     decoded rt path (decode_mode settings) = Ret img ->
     is_rendering rt img (path_join output_dir (stem file_path))
                  (stem file_path) (image_format settings) sizes_to_process
                  densities ev ->
     E ev) ->
  emits E (process_image rt file_path profile settings).
Proof.
  intros Hout Hun Hren. unfold process_image. rewrite Hout.
  apply emits_try_except.
  - unfold process_image_body. cbv zeta.
    apply emits_bind; [apply emits_get_custom_sizes | intros custom].
    apply emits_bind; [apply emits_log_message | intros _].
    apply emits_bind; [apply emits_log_message | intros _].
    apply emits_bind.
    + unfold prepare_image_path.
      destruct (String.eqb (py_lower (suffix file_path)) ".heic"
                && darwin rt).
      * apply emits_bind; [apply emits_log_message | intros _].
        apply emits_try_finally.
        -- apply emits_bind; [apply emits_run_command | intros _].
           apply emits_with_block. intros img ev. apply Hren.
        -- intros w0. destruct (path_exists rt (invocations w0) _); simpl.
           ++ eexists [_]. split; [reflexivity|].
              repeat constructor. exact Hun.
           ++ exists []. rewrite app_nil_r. split; [reflexivity|constructor].
      * apply emits_with_block. intros img ev. apply Hren.
    + intros finished. apply emits_when. apply emits_log_message.
  - intros e. destruct (exn_cls e);
      try (apply emits_bind; [apply emits_log_message | intros _]);
      apply emits_log_message.
Qed.

(** An image job touches the file system inside the folder of its asset
    only: it creates that folder, saves files in it, each in the library
    format of the target format, and removes nothing but the intermediate
    PNG of a HEIC source.  With a target format outside [FORMAT_MAPPING]
    it therefore saves no file. *)
Theorem process_image_stays_in_asset_folder (rt : Runtime)
    (output_dir : string) (file_path : FilePath) (profile : Profile)
    (settings : Settings) (w : World) :
  OUTPUT_DIR rt = Some output_dir ->
  exists evs,
    fs (snd (process_image rt file_path profile settings w))
    = (fs w ++ evs)%list
    /\ Forall (confined (path_join output_dir (stem file_path))
                        (temp_png file_path) (image_format settings)) evs
    /\ (dict_get (image_format settings) FORMAT_MAPPING = None ->
        flat_map written evs = []).
Proof.
  intros Hout.
  destruct (emits_process_image
              (confined (path_join output_dir (stem file_path))
                        (temp_png file_path) (image_format settings))
              rt output_dir file_path profile settings Hout eq_refl) with
    (w := w) as (evs & Hf & Ha).
  { intros img path sizes densities ev _. apply rendering_confined. }
  exists evs. split; [exact Hf|]. split; [exact Ha|].
  intros Hnone. clear Hf. induction Ha as [|ev evs Hev _ IH]; [reflexivity|].
  simpl. rewrite IH. destruct ev; simpl in *; try reflexivity.
  destruct Hev as [_ Hev]. congruence.
Qed.

Lemma process_image_stays_in_asset_folder_witness :
  exists evs,
    fs (snd (process_image working_runtime sample_photo
               (image_profile sample_config)
               (sample_settings ["thumb"; "full_size"] "50" "max_compression")
               empty_world))
    = ([] ++ evs)%list
    /\ Forall (confined "output/photo" "source/photo.temp.png" "jpg") evs
    /\ (dict_get "jpg" FORMAT_MAPPING = None -> flat_map written evs = []).
Proof.
  exact (process_image_stays_in_asset_folder working_runtime "output"
           sample_photo (image_profile sample_config)
           (sample_settings ["thumb"; "full_size"] "50" "max_compression")
           empty_world eq_refl).
Defined.

(** ** The outcome of an image job, read off its last log line *)

Lemma with_block_outcome (rt : Runtime) (file_path : FilePath)
    (folder target_format compression_mode : string) (sizes : dict Z)
    (densities : list Z) (full : bool) (path : string) (w : World) :
  match fst (with_block rt file_path folder target_format compression_mode
                        sizes densities full path w) with
  | Ret true =>
      exists img,
        decoded rt path
                (if String.eqb target_format "png" then "RGBA" else "RGB")
        = Ret img
        /\ fst (render_image rt img folder (stem file_path) target_format
                  compression_mode sizes densities full w) = Ret tt
        /\ snd (with_block rt file_path folder target_format compression_mode
                           sizes densities full path w)
           = snd (render_image rt img folder (stem file_path) target_format
                    compression_mode sizes densities full w)
  | Ret false =>
      exists pre line,
        processing_log
          (snd (with_block rt file_path folder target_format compression_mode
                           sizes densities full path w))
        = (pre ++ [line])%list
        /\ is_error_line line = true
  | Raise _ => True
  end.
Proof.
  unfold with_block, bind, try_except. rewrite open_and_convert_decoded.
  destruct (decoded rt path _) as [img|e]; simpl.
  - destruct (render_image rt img folder (stem file_path) target_format
                compression_mode sizes densities full w) as [[[]|e] w1] eqn:R;
      simpl; [| exact I].
    exists img. rewrite R. repeat split; reflexivity.
  - destruct (exn_cls e); simpl; trivial.
    eexists _, _. split; reflexivity.
Qed.

Lemma prepare_image_path_outcome (rt : Runtime) (file_path : FilePath)
    (folder target_format compression_mode : string) (sizes : dict Z)
    (densities : list Z) (full : bool) (w : World)
    (r : result bool * World) :
  prepare_image_path rt file_path
    (with_block rt file_path folder target_format compression_mode
                sizes densities full) w = r ->
  match fst r with
  | Ret true =>
      exists img w0 tail,
        decoded rt (image_to_process rt file_path)
                (if String.eqb target_format "png" then "RGBA" else "RGB")
        = Ret img
        /\ fs w0 = fs w
        /\ fst (render_image rt img folder (stem file_path) target_format
                  compression_mode sizes densities full w0) = Ret tt
        /\ fs (snd r)
           = (fs (snd (render_image rt img folder (stem file_path)
                         target_format compression_mode sizes densities full
                         w0)) ++ tail)%list
        /\ flat_map written tail = []
  | Ret false =>
      exists pre line,
        processing_log (snd r) = (pre ++ [line])%list
        /\ is_error_line line = true
  | Raise _ => True
  end.
Proof.
  unfold prepare_image_path, image_to_process.
  destruct (String.eqb (py_lower (suffix file_path)) ".heic" && darwin rt).
  - unfold bind at 1. rewrite log_message_info. unfold try_finally, bind.
    match goal with
    | |- context [run_command rt (?c0 :: ?args) ?p ?w0] =>
        destruct (run_command_effect rt c0 args p w0) as (_ & Hfs & _ & _);
        destruct (run_command rt (c0 :: args) p w0) as [[out|e] w1]
    end; cbn [fst snd fs set_processing_log set_console] in Hfs.
    + pose proof (with_block_outcome rt file_path folder target_format
                    compression_mode sizes densities full
                    (path_str (with_suffix file_path ".temp.png")) w1) as Hb.
      destruct (with_block rt file_path folder target_format compression_mode
                  sizes densities full _ w1) as [[[|]|e] w2];
        cbn [fst snd] in Hb;
        destruct (path_exists rt (invocations w2) _); cbn [fst snd record_fs];
        intros <-; cbn [fst snd]; trivial.
      * destruct Hb as (img & Hd & Hr & Hw). exists img, w1,
          [Unlinked (path_str (with_suffix file_path ".temp.png"))].
        subst w2. destruct (snd (render_image _ _ _ _ _ _ _ _ _ _)).
        repeat split; auto.
      * destruct Hb as (img & Hd & Hr & Hw). exists img, w1, [].
        subst w2. rewrite app_nil_r. repeat split; auto.
    + destruct (path_exists rt (invocations w1) _); intros <-; simpl; trivial.
  - pose proof (with_block_outcome rt file_path folder target_format
                  compression_mode sizes densities full (path_str file_path) w)
      as Hb.
    destruct (with_block rt file_path folder target_format compression_mode
                sizes densities full _ w) as [[[|]|e] w2];
      intros <-; cbn [fst snd] in *; trivial.
    destruct Hb as (img & Hd & Hr & Hw). exists img, w, []. subst w2.
    rewrite app_nil_r. repeat split; auto.
Qed.

Lemma process_image_outcome (rt : Runtime) (output_dir : string)
    (file_path : FilePath) (profile : Profile) (settings : Settings)
    (w : World) (r : result unit * World) :
  OUTPUT_DIR rt = Some output_dir ->
  process_image rt file_path profile settings w = r ->
  exists pre line,
    processing_log (snd r) = (pre ++ [line])%list
    /\ (is_error_line line = true
        \/ line = image_done_line file_path
           /\ exists img w0 tail,
                decoded rt (image_to_process rt file_path)
                        (decode_mode settings) = Ret img
                /\ fs w0 = fs w
                /\ fst (render_image rt img
                          (path_join output_dir (stem file_path))
                          (stem file_path) (image_format settings)
                          (compression_mode settings)
                          (image_sizes rt profile settings)
                          (image_densities settings)
                          (in_list "full_size" (sizes_to_process settings))
                          w0) = Ret tt
                /\ fs (snd r)
                   = (fs (snd (render_image rt img
                                 (path_join output_dir (stem file_path))
                                 (stem file_path) (image_format settings)
                                 (compression_mode settings)
                                 (image_sizes rt profile settings)
                                 (image_densities settings)
                                 (in_list "full_size"
                                          (sizes_to_process settings))
                                 w0)) ++ tail)%list
                /\ flat_map written tail = []).
Proof.
  intros Hout. unfold process_image. rewrite Hout.
  unfold try_except, process_image_body. cbv zeta. unfold bind at 1.
  pose proof (get_custom_sizes_value rt (custom_sizes settings) w) as Hv.
  destruct (get_custom_sizes_world rt (custom_sizes settings) w)
    as (Hfs & _).
  destruct (get_custom_sizes rt (custom_sizes settings) w) as [rc w1].
  cbn [fst snd] in Hv, Hfs. subst rc.
  unfold bind at 1. rewrite log_message_info.
  unfold bind at 1. rewrite log_message_info.
  unfold bind at 1.
  fold (image_sizes rt profile settings). fold (image_densities settings).
  match goal with
  | |- context [prepare_image_path rt file_path ?b ?w0] =>
      pose proof (prepare_image_path_outcome rt file_path
                    (path_join output_dir (stem file_path))
                    (image_format settings) (compression_mode settings)
                    (image_sizes rt profile settings)
                    (image_densities settings)
                    (in_list "full_size" (sizes_to_process settings))
                    w0 _ eq_refl) as Hp;
      destruct (prepare_image_path rt file_path b w0) as [[[|]|e] w3]
  end; cbn [fst snd] in Hp.
  - intros <-. cbn [when]. rewrite log_message_info. cbn [fst snd].
    exists (processing_log w3), (image_done_line file_path).
    split; [reflexivity|]. right. split; [reflexivity|].
    destruct Hp as (img & w0 & tail & Hd & Hw & Hr & Hf & Ht).
    exists img, w0, tail. cbn [fs set_processing_log set_console] in *.
    repeat split; auto. congruence.
  - intros <-. cbn [when fst snd]. unfold ret. cbn [fst snd].
    destruct Hp as (pre & line & Hl & He). exists pre, line. auto.
  - intros <-.
    destruct (exn_cls e); unfold bind;
      rewrite ?log_message_info, ?log_message_debug; cbn [fst snd];
      eexists _, _; (split; [reflexivity | left; reflexivity]).
Qed.

(** ** The files a finished job has written *)

Section Saves.

Variable rt : Runtime.

Lemma saves_silent {A} (m : M A) :
  (forall w, fs (snd (m w)) = fs w) -> saves [] m.
Proof.
  intros H w a _. exists []. rewrite app_nil_r. split; [apply H | reflexivity].
Qed.

Lemma saves_bind {A B} (p1 p2 : list string) (m : M A) (k : A -> M B) :
  saves p1 m -> (forall a, saves p2 (k a)) -> saves (p1 ++ p2) (bind m k).
Proof.
  intros Hm Hk w b. unfold bind. specialize (Hm w).
  destruct (m w) as [[a|e] w1]; cbn [fst snd] in *; [| discriminate].
  intros Hb. destruct (Hm a eq_refl) as (evs1 & Hf1 & Hw1).
  destruct (Hk a w1 b Hb) as (evs2 & Hf2 & Hw2).
  exists (evs1 ++ evs2)%list. rewrite Hf2, Hf1, app_assoc.
  split; [reflexivity|]. now rewrite flat_map_app, Hw1, Hw2.
Qed.

Lemma saves_for_each {A} (f : A -> list string) (xs : list A)
    (body : A -> M unit) :
  (forall x, saves (f x) (body x)) -> saves (flat_map f xs) (for_each xs body).
Proof.
  intros H. induction xs as [|x xs IH]; simpl.
  - now apply saves_silent.
  - apply saves_bind; [apply H | intros _; exact IH].
Qed.

Lemma saves_when (paths : list string) (b : bool) (m : M unit) :
  saves paths m -> saves (if b then paths else []) (when b m).
Proof. destruct b; simpl; [auto | intros _; now apply saves_silent]. Qed.

Lemma saves_log_message (message level : string) :
  saves [] (log_message message level).
Proof. apply saves_silent. intros w. apply log_message_rest. Qed.

Lemma saves_save (img : Image) (path format : string) (params : save_params) :
  saves [path] (save rt img path format params).
Proof.
  intros w a. unfold save. destruct (save_error rt path); simpl;
    [discriminate|].
  intros _. eexists [_]. split; reflexivity.
Qed.

Lemma saves_render_variant (img : Image) (folder base_name target_format
    infix : string) (quality : Z) (size_label : string)
    (base_width density : Z) :
  saves [path_join folder
           (variant_name base_name size_label density infix target_format)]
        (render_variant rt img folder base_name target_format infix quality
                        size_label base_width density).
Proof.
  intros w a. unfold render_variant, bind, lift.
  destruct (scaled_height (height img) (base_width * density) (width img))
    as [new_height|e]; cbn [fst snd]; [| discriminate].
  destruct (resize_effect rt img (base_width * density) new_height w)
    as [Hw _].
  destruct (resize rt img (base_width * density) new_height w)
    as [[im|e] w']; cbn [fst snd] in *; [subst w' | discriminate].
  destruct (dict_index FORMAT_MAPPING target_format) as [format|e];
    cbn [fst snd]; [| discriminate].
  apply saves_save.
Qed.

Lemma flat_map_singleton {A B} (f : A -> B) (l : list A) :
  flat_map (fun x => [f x]) l = map f l.
Proof. induction l as [|x l IH]; simpl; congruence. Qed.

Lemma saves_render_sizes (img : Image) (folder base_name target_format
    infix : string) (quality : Z) (sizes_to_process : dict Z)
    (densities : list Z) :
  saves (tier_paths folder base_name target_format infix sizes_to_process
                    densities false)
        (render_sizes rt img folder base_name target_format infix quality
                      sizes_to_process densities).
Proof.
  unfold tier_paths, render_sizes. rewrite app_nil_r.
  apply (saves_for_each
           (fun kv =>
              map (fun density =>
                     path_join folder
                       (variant_name base_name (fst kv) density infix
                                     target_format)) densities)).
  intros kv. rewrite <- flat_map_singleton.
  apply (saves_for_each
           (fun density =>
              [path_join folder
                 (variant_name base_name (fst kv) density infix
                               target_format)])).
  intros density. apply saves_render_variant.
Qed.

Lemma saves_render_full_size (img : Image) (folder base_name target_format
    infix : string) (quality : Z) :
  saves [path_join folder (full_size_name base_name infix target_format)]
        (render_full_size rt img folder base_name target_format infix
                          quality).
Proof.
  intros w a. unfold render_full_size, bind, lift.
  destruct (dict_index FORMAT_MAPPING target_format) as [format|e];
    cbn [fst snd]; [| discriminate].
  apply saves_save.
Qed.

Lemma saves_render_image (img : Image) (folder base_name target_format
    compression_mode : string) (sizes_to_process : dict Z)
    (densities : list Z) (include_full_size : bool) :
  saves (image_paths folder base_name target_format compression_mode
                     sizes_to_process densities include_full_size)
        (render_image rt img folder base_name target_format compression_mode
                      sizes_to_process densities include_full_size).
Proof.
  unfold render_image, image_paths. cbv zeta.
  change (tier_paths folder base_name target_format EmptyString
            sizes_to_process densities include_full_size
          ++ (if String.eqb compression_mode "max_compression"
              then tier_paths folder base_name target_format "_compressed"
                     sizes_to_process densities include_full_size
              else []))%list
    with ([] ++ (tier_paths folder base_name target_format EmptyString
                   sizes_to_process densities include_full_size
          ++ (if String.eqb compression_mode "max_compression"
              then tier_paths folder base_name target_format "_compressed"
                     sizes_to_process densities include_full_size
              else [])))%list.
  apply saves_bind; [| intros _].
  { intros w a. unfold mkdir. destruct (mkdir_error rt folder); simpl;
      [discriminate|]. intros _. eexists [_]. split; reflexivity. }
  unfold tier_paths at 1. rewrite <- app_assoc.
  apply saves_bind; [| intros _].
  { pose proof (saves_render_sizes img folder base_name target_format
                  EmptyString
                  (get_default (image_standard_quality (config rt)) 85)
                  sizes_to_process densities) as H.
    unfold tier_paths in H. rewrite app_nil_r in H.
    destruct sizes_to_process as [|kv rest].
    - simpl. now apply saves_silent.
    - cbn [nonempty when]. rewrite <- (app_nil_r (flat_map _ _)).
      apply saves_bind; [exact H | intros _; apply saves_log_message]. }
  apply saves_bind; [| intros _].
  { pose proof (saves_when _ include_full_size _
                  (saves_bind _ _ _ _
                     (saves_render_full_size img folder base_name
                        target_format EmptyString
                        (get_default (image_standard_quality (config rt)) 85))
                     (fun _ => saves_log_message
                                 ("  ✓ Created: "
                                  ++ full_size_name base_name EmptyString
                                       target_format) info))) as H.
    cbn [app] in H. exact H. }
  apply saves_when.
  rewrite <- (app_nil_l (tier_paths _ _ _ _ _ _ _)).
  apply saves_bind; [apply saves_log_message | intros _].
  unfold tier_paths. apply saves_bind; [| intros _].
  { pose proof (saves_render_sizes img folder base_name target_format
                  "_compressed"
                  (get_default (image_max_quality (config rt)) 75)
                  sizes_to_process densities) as H.
    unfold tier_paths in H. rewrite app_nil_r in H.
    destruct sizes_to_process as [|kv rest].
    - simpl. now apply saves_silent.
    - exact H. }
  rewrite <- (app_nil_r (if include_full_size then _ else _)).
  apply saves_bind; [| intros _; apply saves_log_message].
  apply saves_when. apply saves_render_full_size.
Qed.

End Saves.

(** An image job whose log ends with its completion line has written,
    since it started, exactly the files of its plan and in the order of
    the plan: per tier, one file for every size and density, then the
    full-size file if it was selected. *)
Theorem process_image_done_manifest (rt : Runtime) (output_dir : string)
    (file_path : FilePath) (profile : Profile) (settings : Settings)
    (w : World) :
  OUTPUT_DIR rt = Some output_dir ->
  (exists pre,
     processing_log (snd (process_image rt file_path profile settings w))
     = (pre ++ [image_done_line file_path])%list) ->
  exists evs,
    fs (snd (process_image rt file_path profile settings w))
    = (fs w ++ evs)%list
    /\ flat_map written evs
       = image_paths (path_join output_dir (stem file_path)) (stem file_path)
           (image_format settings) (compression_mode settings)
           (image_sizes rt profile settings) (image_densities settings)
           (in_list "full_size" (sizes_to_process settings)).
Proof.
  intros Hout [pre Hdone].
  destruct (process_image_outcome rt output_dir file_path profile settings w
              _ Hout eq_refl) as (pre' & line & Hl & [He | [_ Hk]]).
  - rewrite Hdone in Hl. apply app_inj_tail in Hl. destruct Hl as [_ <-].
    discriminate He.
  - destruct Hk as (img & w0 & tail & _ & Hw & Hr & Hf & Ht).
    destruct (saves_render_image rt img _ _ _ _ _ _ _ w0 tt Hr)
      as (evs & Hfs & Hwr).
    exists (evs ++ tail)%list. split.
    + rewrite Hf, Hfs, Hw, app_assoc. reflexivity.
    + rewrite flat_map_app, Ht, app_nil_r. exact Hwr.
Qed.

Lemma process_image_done_manifest_witness :
  exists evs,
    fs (snd (process_image working_runtime sample_photo
               (image_profile sample_config)
               (sample_settings ["thumb"; "full_size"] "50" "max_compression")
               empty_world))
    = ([] ++ evs)%list
    /\ flat_map written evs
       = ["output/photo/photo_thumb@1x.jpg";
          "output/photo/photo_custom_50px@1x.jpg";
          "output/photo/photo_full_size.jpg";
          "output/photo/photo_thumb@1x_compressed.jpg";
          "output/photo/photo_custom_50px@1x_compressed.jpg";
          "output/photo/photo_full_size_compressed.jpg"].
Proof.
  apply (process_image_done_manifest working_runtime "output" sample_photo
           (image_profile sample_config)
           (sample_settings ["thumb"; "full_size"] "50" "max_compression")
           empty_world eq_refl).
  exists (removelast
            (processing_log
               (snd (process_image working_runtime sample_photo
                       (image_profile sample_config)
                       (sample_settings ["thumb"; "full_size"] "50"
                                        "max_compression")
                       empty_world)))).
  vm_compute. reflexivity.
Defined.

(** ** A size that cannot be rendered *)

Lemma never_bind_l {A B} (m : M A) (k : A -> M B) :
  never_returns m -> never_returns (bind m k).
Proof.
  intros H w. unfold bind. destruct (H w) as [e He].
  destruct (m w) as [[a|e'] w1]; cbn [fst] in *; [discriminate | eauto].
Qed.

Lemma never_bind_r {A B} (m : M A) (k : A -> M B) :
  (forall a, never_returns (k a)) -> never_returns (bind m k).
Proof.
  intros H w. unfold bind. destruct (m w) as [[a|e] w1]; cbn [fst].
  - apply H.
  - eauto.
Qed.

Lemma never_for_each {A} (x : A) (xs : list A) (body : A -> M unit) :
  In x xs -> never_returns (body x) -> never_returns (for_each xs body).
Proof.
  intros Hin Hx. induction xs as [|y ys IH]; [destruct Hin|].
  simpl. destruct Hin as [-> | Hin].
  - now apply never_bind_l.
  - apply never_bind_r. intros _. now apply IH.
Qed.

Lemma never_render_variant (rt : Runtime) (img : Image) (folder base_name
    target_format infix : string) (quality : Z) (size_label : string)
    (base_width density : Z) :
  base_width * density <= 0 ->
  never_returns (render_variant rt img folder base_name target_format infix
                                quality size_label base_width density).
Proof.
  intros Hle w. unfold render_variant, bind, lift.
  destruct (scaled_height (height img) (base_width * density) (width img))
    as [new_height|e]; cbn [fst snd]; [| eauto].
  unfold resize.
  assert (Hlt : (base_width * density <? 1) = true) by (apply Z.ltb_lt; lia).
  rewrite Hlt. simpl. eauto.
Qed.

Lemma never_render_image (rt : Runtime) (img : Image) (folder base_name
    target_format compression_mode : string) (sizes_to_process : dict Z)
    (densities : list Z) (include_full_size : bool) (size_label : string)
    (base_width : Z) :
  In (size_label, base_width) sizes_to_process -> In 1 densities ->
  base_width <= 0 ->
  never_returns (render_image rt img folder base_name target_format
                   compression_mode sizes_to_process densities
                   include_full_size).
Proof.
  intros Hs Hd Hle. unfold render_image. cbv zeta.
  apply never_bind_r. intros _. apply never_bind_l.
  destruct sizes_to_process as [|kv rest]; [destruct Hs|].
  cbn [nonempty when]. apply never_bind_l. unfold render_sizes.
  apply (never_for_each (size_label, base_width)); [exact Hs|].
  apply (never_for_each 1); [exact Hd|].
  apply never_render_variant. cbn [snd]. lia.
Qed.

(** A width of zero or less among the sizes to render, as the custom size
    [0] gives, makes the image job fail: the last line of its log is an
    error line, never the completion line. *)
Theorem process_image_nonpositive_width_fails (rt : Runtime)
    (output_dir : string) (file_path : FilePath) (profile : Profile)
    (settings : Settings) (w : World) (size_label : string) (base_width : Z) :
  OUTPUT_DIR rt = Some output_dir ->
  In (size_label, base_width) (image_sizes rt profile settings) ->
  base_width <= 0 ->
  exists pre line,
    processing_log (snd (process_image rt file_path profile settings w))
    = (pre ++ [line])%list
    /\ is_error_line line = true
    /\ line <> image_done_line file_path.
Proof.
  intros Hout Hin Hle.
  destruct (process_image_outcome rt output_dir file_path profile settings w
              _ Hout eq_refl) as (pre & line & Hl & [He | [_ Hk]]).
  - exists pre, line. repeat split; auto. intros ->. discriminate He.
  - destruct Hk as (img & w0 & tail & _ & _ & Hr & _).
    destruct (never_render_image rt img
                (path_join output_dir (stem file_path)) (stem file_path)
                (image_format settings) (compression_mode settings)
                (image_sizes rt profile settings) (image_densities settings)
                (in_list "full_size" (sizes_to_process settings))
                size_label base_width Hin) with (w := w0) as [e He]; auto.
    + unfold image_densities. destruct (include_retina settings); now left.
    + congruence.
Qed.

Lemma process_image_nonpositive_width_fails_witness :
  exists pre line,
    processing_log
      (snd (process_image working_runtime sample_photo
              (image_profile sample_config)
              (sample_settings ["thumb"] "0" "standard") empty_world))
    = (pre ++ [line])%list
    /\ is_error_line line = true
    /\ line <> image_done_line sample_photo.
Proof.
  exact (process_image_nonpositive_width_fails working_runtime "output"
           sample_photo (image_profile sample_config)
           (sample_settings ["thumb"] "0" "standard") empty_world
           "custom_0px" 0 eq_refl (or_intror (or_introl eq_refl))
           (Z.le_refl 0)).
Defined.

(* ================================================================== *)
(** * Further properties: audio and video jobs stay in their folder *)

Section Invocations.

Variable rt : Runtime.
Variable P : command * proc_outcome -> Prop.

Lemma invokes_silent {A} (m : M A) :
  (forall w, invocations (snd (m w)) = invocations w) -> invokes P m.
Proof.
  intros H w. exists []. rewrite app_nil_r. split; [apply H | constructor].
Qed.

Lemma invokes_bind {A B} (m : M A) (k : A -> M B) :
  invokes P m -> (forall a, invokes P (k a)) -> invokes P (bind m k).
Proof.
  intros Hm Hk w. unfold bind. destruct (Hm w) as (tr & Hi & Ha).
  destruct (m w) as [[a|e] w']; cbn [fst snd] in *.
  - destruct (Hk a w') as (tr' & Hi' & Ha'). exists (tr ++ tr')%list.
    rewrite Hi', Hi, app_assoc. split; [reflexivity|].
    apply Forall_app. auto.
  - exists tr. auto.
Qed.

Lemma invokes_try_except {A} (m : M A) (h : exn -> M A) :
  invokes P m -> (forall e, invokes P (h e)) -> invokes P (try_except m h).
Proof.
  intros Hm Hh w. unfold try_except. destruct (Hm w) as (tr & Hi & Ha).
  destruct (m w) as [[a|e] w']; cbn [fst snd] in *.
  - exists tr. auto.
  - destruct (Hh e w') as (tr' & Hi' & Ha'). exists (tr ++ tr')%list.
    rewrite Hi', Hi, app_assoc. split; [reflexivity|].
    apply Forall_app. auto.
Qed.

Lemma invokes_for_each {A} (xs : list A) (body : A -> M unit) :
  (forall x, invokes P (body x)) -> invokes P (for_each xs body).
Proof.
  intros H. induction xs as [|x xs IH]; simpl.
  - now apply invokes_silent.
  - apply invokes_bind; [apply H | intros _; exact IH].
Qed.

Lemma invokes_when (b : bool) (m : M unit) :
  invokes P m -> invokes P (when b m).
Proof. destruct b; simpl; [auto | intros _; now apply invokes_silent]. Qed.

Lemma invokes_log_message (message level : string) :
  invokes P (log_message message level).
Proof. apply invokes_silent. intros w. apply log_message_rest. Qed.

Lemma invokes_mkdir (path : string) : invokes P (mkdir rt path).
Proof.
  apply invokes_silent. intros w. unfold mkdir.
  destruct (mkdir_error rt path); reflexivity.
Qed.

Lemma invokes_get_custom_sizes (custom_sizes_str : string) :
  invokes P (get_custom_sizes rt custom_sizes_str).
Proof.
  apply invokes_silent. intros w.
  apply (get_custom_sizes_world rt custom_sizes_str w).
Qed.

Lemma invokes_run_command (c0 : string) (args : list string)
    (log_prefix : string) :
  (forall o, P (with_loglevel rt (c0 :: args), o)) ->
  invokes P (run_command rt (c0 :: args) log_prefix).
Proof.
  intros H w.
  destruct (run_command_effect rt c0 args log_prefix w) as (Hi & _).
  eexists [_]. split; [exact Hi|]. repeat constructor. apply H.
Qed.

End Invocations.

Lemma emits_process_video_body (E : fs_event -> Prop) (rt : Runtime)
    (output_dir : string) (file_path : FilePath) (profile : Profile)
    (settings : Settings) :
  E (Mkdir (path_join output_dir (stem file_path))) ->
  emits E (process_video_body rt output_dir file_path profile settings).
Proof.
  intros HE. unfold process_video_body, render_video_tier. cbv zeta.
  repeat first
    [ apply emits_log_message
    | apply emits_run_command
    | apply emits_get_custom_sizes
    | apply emits_mkdir; exact HE
    | apply emits_when
    | apply emits_for_each; intros ? _
    | now apply emits_silent
    | apply emits_bind; [| intros ?] ].
Qed.

Lemma invokes_bind_value {A B} (P : command * proc_outcome -> Prop)
    (m : M A) (k : A -> M B) (v : A) :
  (forall w, fst (m w) = Ret v) -> invokes P m -> invokes P (k v) ->
  invokes P (bind m k).
Proof.
  intros Hv Hm Hk w. unfold bind. specialize (Hv w).
  destruct (Hm w) as (tr & Hi & Ha).
  destruct (m w) as [r w1]; cbn [fst snd] in *. subst r.
  destruct (Hk w1) as (tr' & Hi' & Ha'). exists (tr ++ tr')%list.
  rewrite Hi', Hi, app_assoc. split; [reflexivity|].
  apply Forall_app. auto.
Qed.

Lemma invokes_for_each_in {A} (P : command * proc_outcome -> Prop)
    (xs : list A) (body : A -> M unit) :
  (forall x, In x xs -> invokes P (body x)) -> invokes P (for_each xs body).
Proof.
  induction xs as [|x xs IH]; simpl; intros H.
  - now apply invokes_silent.
  - apply invokes_bind; [apply H; now left |].
    intros _. apply IH. intros y Hy. apply H. now right.
Qed.

Lemma separator_free_app (a b : string) :
  separator_free (a ++ b) = separator_free a && separator_free b.
Proof.
  unfold separator_free. induction a as [|c a IH]; [reflexivity|].
  cbn [append str_existsb].
  destruct (Ascii.eqb "/" c); cbn [orb negb andb]; [reflexivity | exact IH].
Qed.

Lemma digits_separator_free (t : string) :
  py_isdigit t = true -> separator_free t = true.
Proof.
  unfold py_isdigit, separator_free. intros H.
  apply andb_true_iff in H. destruct H as [_ H].
  induction t as [|c t IH]; [reflexivity|].
  cbn [str_forallb str_existsb] in *.
  apply andb_true_iff in H. destruct H as [Hc H].
  destruct (Ascii.eqb_spec "/" c) as [<- | _]; [discriminate Hc|].
  cbn [orb]. now apply IH.
Qed.

Lemma dict_get_of_key {V} (k : string) (d : dict V) :
  In k (dict_keys d) -> exists v, dict_get k d = Some v.
Proof.
  unfold dict_keys. induction d as [|[k' v'] d IH]; simpl; [intros []|].
  intros [-> | H].
  - rewrite String.eqb_refl. eauto.
  - destruct (String.eqb k' k); eauto.
Qed.

Lemma custom_labels_separator_free (rt : Runtime) (custom_sizes_str : string)
    (k : string) :
  In k (dict_keys (custom_sizes_dict rt custom_sizes_str)) ->
  separator_free k = true.
Proof.
  unfold custom_sizes_dict.
  destruct (str_nonempty custom_sizes_str); [| intros []].
  destruct (custom_sizes_of rt (py_split "," custom_sizes_str) []) as [d|e]
    eqn:E; [| intros []].
  intros Hk. apply dict_get_of_key in Hk. destruct Hk as [v Hv].
  destruct (custom_sizes_of_entries rt (py_split "," custom_sizes_str) [] d)
    as (_ & _ & _ & H); [intros t v' Hd; discriminate Hd | exact E |].
  destruct (H k v Hv) as [Hd | (t & Ht & -> & _)]; [discriminate Hd|].
  apply filter_In in Ht. destruct Ht as [_ Ht].
  unfold custom_label. rewrite !separator_free_app.
  now rewrite (digits_separator_free t Ht).
Qed.

Lemma dict_update_keys {V} (k : string) (d other : dict V) :
  In k (dict_keys (dict_update d other)) ->
  In k (dict_keys d) \/ In k (dict_keys other).
Proof.
  unfold dict_update. revert d.
  induction other as [|[k' v'] other IH]; intros d H; [now left|].
  cbn [fold_left fst snd] in H. apply IH in H.
  destruct H as [H | H]; [| right; now right].
  rewrite dict_keys_set in H.
  destruct (in_list k' (dict_keys d)); [now left|].
  apply in_app_or in H. destruct H as [H | [<- | []]];
    [now left | right; now left].
Qed.

Lemma video_labels_separator_free (rt : Runtime) (profile : Profile)
    (settings : Settings) (kv : string * Z) :
  forallb separator_free (dict_keys (heights_map profile)) = true ->
  In kv (video_heights rt profile settings) ->
  separator_free (fst kv) = true.
Proof.
  intros Hkeys Hin.
  assert (Hk : In (fst kv) (dict_keys (video_heights rt profile settings)))
    by (apply in_map; exact Hin).
  unfold video_heights in Hk. apply dict_update_keys in Hk.
  destruct Hk as [Hk | Hk].
  - rewrite forallb_forall in Hkeys. apply Hkeys.
    unfold dict_keys, dict_select in *. apply in_map_iff in Hk.
    destruct Hk as (x & Hx & Hf). apply filter_In in Hf.
    apply in_map_iff. exists x. tauto.
  - eapply custom_labels_separator_free. exact Hk.
Qed.

Lemma invokes_process_video_body (rt : Runtime) (output_dir : string)
    (file_path : FilePath) (profile : Profile) (settings : Settings) :
  separator_free (stem file_path) = true ->
  separator_free (video_format settings) = true ->
  forallb separator_free (dict_keys (heights_map profile)) = true ->
  invokes (writes_into (path_join output_dir (stem file_path)))
          (process_video_body rt output_dir file_path profile settings).
Proof.
  intros Hstem Hfmt Hkeys.
  assert (Hlab : forall kv, In kv (video_heights rt profile settings) ->
                            separator_free (fst kv) = true)
    by (intros kv; now apply video_labels_separator_free).
  unfold process_video_body, render_video_tier. cbv zeta.
  apply (invokes_bind_value _ _ _
           (custom_sizes_dict rt (custom_sizes settings)));
    [ intros w; apply get_custom_sizes_value
    | apply invokes_get_custom_sizes |].
  fold (video_heights rt profile settings).
  repeat first
    [ apply invokes_log_message
    | apply invokes_mkdir
    | apply invokes_when
    | apply invokes_for_each_in; intros kv Hkv
    | now apply invokes_silent
    | apply invokes_run_command; intros o; unfold with_loglevel;
      rewrite String.eqb_refl; eexists; split; [reflexivity|];
      rewrite !separator_free_app, ?Hstem, ?Hfmt, ?(Hlab _ Hkv); reflexivity
    | apply invokes_bind; [| intros ?] ].
Qed.

(** An audio or a video job touches the file system itself in one way
    only, by creating the folder of its asset, and every tool invocation
    it makes writes a file of that folder: the output is the folder joined
    with one path component.  This needs the base name of the asset, the
    requested video format and the height labels of the profile to hold
    no path separator; the labels of custom sizes never hold one. *)
Theorem av_jobs_stay_in_asset_folder (rt : Runtime) (output_dir : string)
    (file_path : FilePath) (profile : Profile) (settings : Settings)
    (w : World) :
  OUTPUT_DIR rt = Some output_dir ->
  separator_free (stem file_path) = true ->
  separator_free (video_format settings) = true ->
  forallb separator_free (dict_keys (heights_map profile)) = true ->
  let folder := path_join output_dir (stem file_path) in
  Forall (fun r : result unit * World =>
            (exists evs, fs (snd r) = (fs w ++ evs)%list
                         /\ Forall (fun ev => ev = Mkdir folder) evs)
            /\ exists tr,
                 invocations (snd r) = (invocations w ++ tr)%list
                 /\ Forall (writes_into folder) tr)
         [process_video rt file_path profile settings w;
          process_audio_only rt file_path settings w].
Proof.
  intros Hout Hstem Hfmt Hkeys folder.
  assert (Hh : forall (E : fs_event -> Prop) (line : string) (e : exn),
             emits E (log_message line info ;;;
                      log_message (format_exc rt e) debug)).
  { intros E line e. apply emits_bind; [| intros _]; apply emits_log_message. }
  assert (Hi : forall (line : string) (e : exn),
             invokes (writes_into folder)
                     (log_message line info ;;;
                      log_message (format_exc rt e) debug)).
  { intros line e.
    apply invokes_bind; [| intros _]; apply invokes_log_message. }
  assert (Ev : emits (fun ev => ev = Mkdir folder)
                     (process_video rt file_path profile settings)).
  { unfold process_video. rewrite Hout.
    apply emits_try_except; [| intros e; apply Hh].
    now apply emits_process_video_body. }
  assert (Iv : invokes (writes_into folder)
                       (process_video rt file_path profile settings)).
  { unfold process_video. rewrite Hout.
    apply invokes_try_except; [| intros e; apply Hi].
    now apply invokes_process_video_body. }
  assert (Ea : emits (fun ev => ev = Mkdir folder)
                     (process_audio_only rt file_path settings)).
  { unfold process_audio_only. rewrite Hout.
    apply emits_try_except; [| intros e; apply Hh].
    repeat first
      [ apply emits_log_message
      | apply emits_run_command
      | apply emits_mkdir; reflexivity
      | apply emits_bind; [| intros ?]
      | now apply emits_silent ]. }
  assert (Ia : invokes (writes_into folder)
                       (process_audio_only rt file_path settings)).
  { unfold process_audio_only. rewrite Hout.
    apply invokes_try_except; [| intros e; apply Hi].
    unfold audio_cmd. cbv zeta.
    repeat first
      [ apply invokes_log_message
      | apply invokes_mkdir
      | apply invokes_run_command; intros o; unfold with_loglevel;
        rewrite String.eqb_refl; eexists; split; [reflexivity|];
        rewrite !separator_free_app, ?Hstem; reflexivity
      | apply invokes_bind; [| intros ?]
      | now apply invokes_silent ]. }
  repeat constructor; [apply Ev | apply Iv | apply Ea | apply Ia].
Qed.

Lemma av_jobs_stay_in_asset_folder_witness :
  Forall (fun r : result unit * World =>
            (exists evs, fs (snd r) = ([] ++ evs)%list
                         /\ Forall (fun ev => ev = Mkdir "output/clip") evs)
            /\ exists tr,
                 invocations (snd r) = ([] ++ tr)%list
                 /\ Forall (writes_into "output/clip") tr)
         [process_video working_runtime sample_video
            (video_profile sample_config) video_settings empty_world;
          process_audio_only working_runtime sample_video video_settings
            empty_world].
Proof.
  exact (av_jobs_stay_in_asset_folder working_runtime "output" sample_video
           (video_profile sample_config) video_settings empty_world eq_refl
           eq_refl eq_refl eq_refl).
Defined.

(* ================================================================== *)
(** * Further properties: the last line of a job *)

(** Whatever happens in a producer, the line it leaves last in the log
    tells the outcome: the completion line of the producer, or an error
    line. *)
Theorem producers_close_their_log (rt : Runtime) (file_path : FilePath)
    (profile : Profile) (settings : Settings) (w : World) :
  Forall (fun rl : (result unit * World) * string =>
            exists pre line,
              processing_log (snd (fst rl)) = (pre ++ [line])%list
              /\ (line = snd rl \/ is_error_line line = true))
         [(process_image rt file_path profile settings w,
           image_done_line file_path);
          (process_video rt file_path profile settings w,
           video_done_line file_path);
          (process_audio_only rt file_path settings w,
           audio_done_line file_path)].
Proof.
  repeat constructor; cbn [fst snd].
  - destruct (OUTPUT_DIR rt) as [output_dir|] eqn:Hout.
    + destruct (process_image_outcome rt output_dir file_path profile
                  settings w _ Hout eq_refl)
        as (pre & line & Hl & [He | [Hd _]]);
        exists pre, line; auto.
    + unfold process_image. rewrite Hout, log_message_info.
      eexists _, _. split; [reflexivity | right; reflexivity].
  - unfold process_video. destruct (OUTPUT_DIR rt) as [output_dir|].
    + unfold try_except.
      pose proof (closes_process_video_body rt output_dir file_path profile
                    settings w tt) as Hc.
      destruct (process_video_body rt output_dir file_path profile settings w)
        as [[[]|e] w1]; cbn [fst snd] in *.
      * destruct (Hc eq_refl) as [pre Hp].
        exists pre, (video_done_line file_path). auto.
      * unfold bind. rewrite log_message_info, log_message_debug.
        eexists _, _. split; [reflexivity | right; reflexivity].
    + rewrite log_message_info.
      eexists _, _. split; [reflexivity | right; reflexivity].
  - unfold process_audio_only. cbv zeta. unfold try_except.
    destruct (OUTPUT_DIR rt) as [output_dir|].
    + match goal with
      | |- context [match ?body w with _ => _ end] =>
          assert (Hc : closes (audio_done_line file_path) body)
            by (repeat (apply closes_bind; intros); apply closes_log);
          specialize (Hc w tt);
          destruct (body w) as [[[]|e] w1]; cbn [fst snd] in *
      end.
      * destruct (Hc eq_refl) as [pre Hp].
        exists pre, (audio_done_line file_path). auto.
      * unfold bind. rewrite log_message_info, log_message_debug.
        eexists _, _. split; [reflexivity | right; reflexivity].
    + unfold bind. rewrite !log_message_info. unfold raise.
      rewrite log_message_info, log_message_debug.
      eexists _, _. split; [reflexivity | right; reflexivity].
Qed.

(* ================================================================== *)
(** * Further properties: polling and the log over time *)

Lemma in_flight_idem (d : dict Future) : in_flight (in_flight d) = in_flight d.
Proof.
  unfold in_flight. rewrite filter_filter. apply filter_ext.
  intros kv. now destruct (done (snd kv)).
Qed.

Lemma reaped_errors_in_flight (d : dict Future) :
  reaped_errors (in_flight d) = [].
Proof.
  unfold reaped_errors, in_flight. induction d as [|kv d IH]; [reflexivity|].
  simpl. destruct (done (snd kv)) eqn:E; simpl; [exact IH|].
  rewrite E. exact IH.
Qed.

(** Polling twice in a row: the second poll reports the same number of
    active jobs as the first, removes no job and logs nothing. *)
Theorem processing_status_twice (w : World) :
  NoDup (dict_keys (active_futures w)) ->
  let first := processing_status w in
  let second := processing_status (snd first) in
  fst second = fst first
  /\ active_futures (snd second) = active_futures (snd first)
  /\ processing_log (snd second) = processing_log (snd first).
Proof.
  intros Hnd first second.
  destruct (processing_status_effect w Hnd) as (Hv & Ha & Hl).
  fold first in Hv, Ha, Hl.
  assert (Hnd' : NoDup (dict_keys (active_futures (snd first)))).
  { rewrite Ha. now apply in_flight_NoDup. }
  destruct (processing_status_effect (snd first) Hnd') as (Hv' & Ha' & Hl').
  fold second in Hv', Ha', Hl'.
  rewrite Hv', Ha', Hl', Hv, Ha.
  rewrite in_flight_idem, reaped_errors_in_flight, app_nil_r. auto.
Qed.

Lemma processing_status_twice_witness :
  fst (processing_status (snd (processing_status sample_pool)))
  = fst (processing_status sample_pool).
Proof.
  refine (proj1 (processing_status_twice sample_pool _)).
  repeat constructor; simpl; intuition discriminate.
Defined.

Lemma run_log_calls_app (cs1 cs2 : list log_call) (w : World) :
  run_log_calls (cs1 ++ cs2) w = run_log_calls cs2 (run_log_calls cs1 w).
Proof.
  revert w. induction cs1 as [|c cs1 IH]; intros w; simpl; [reflexivity|].
  apply IH.
Qed.

Lemma run_log_calls_no_clear (cs : list log_call) (w : World) :
  existsb is_clear cs = false ->
  processing_log (run_log_calls cs w)
  = (processing_log w ++ info_messages cs)%list.
Proof.
  revert w. induction cs as [|c cs IH]; intros w H; simpl.
  - now rewrite app_nil_r.
  - simpl in H. apply orb_false_iff in H. destruct H as [Hc H].
    destruct c as [message level|]; [| discriminate].
    rewrite (IH _ H). simpl. rewrite log_message_log.
    destruct (String.eqb level info) eqn:E.
    + change (String.eqb level "info") with (String.eqb level info).
      rewrite E, <- app_assoc. reflexivity.
    + change (String.eqb level "info") with (String.eqb level info).
      rewrite E. reflexivity.
Qed.

(** The log is what was logged at the [info] level, in order, since the
    log was last cleared: after [clear_log] it starts again from the
    session line, and everything logged before is gone. *)
Theorem log_restarts_at_clear_log (before after : list log_call)
    (w : World) :
  existsb is_clear after = false ->
  processing_log (run_log_calls (before ++ ClearLog :: after) w)
  = session_sentinel :: info_messages after
  /\ processing_log (run_log_calls after w)
     = (processing_log w ++ info_messages after)%list.
Proof.
  intros H. split; [| now apply run_log_calls_no_clear].
  rewrite run_log_calls_app. simpl.
  now rewrite run_log_calls_no_clear.
Qed.

Lemma log_restarts_at_clear_log_witness :
  processing_log
    (run_log_calls ([LogMessage "first" info]
                    ++ ClearLog :: [LogMessage "second" info;
                                    LogMessage "third" debug])
                   empty_world)
  = session_sentinel :: info_messages [LogMessage "second" info;
                                       LogMessage "third" debug].
Proof.
  exact (proj1 (log_restarts_at_clear_log [LogMessage "first" info]
                  [LogMessage "second" info; LogMessage "third" debug]
                  empty_world eq_refl)).
Defined.

(* ================================================================== *)
(** * Further properties: the sizes a job works on *)

Lemma dict_get_update {V} (k : string) (d other : dict V) :
  NoDup (dict_keys other) ->
  dict_get k (dict_update d other)
  = match dict_get k other with
    | Some v => Some v
    | None => dict_get k d
    end.
Proof.
  unfold dict_update, dict_keys. revert d.
  induction other as [|[k' v'] other IH]; intros d Hnd; [reflexivity|].
  inversion Hnd as [|? ? Hnotin Hnd']; subst. cbn [fold_left fst snd].
  rewrite (IH _ Hnd'), dict_get_set. cbn [dict_get].
  destruct (String.eqb k' k) eqn:E; [| reflexivity].
  apply String.eqb_eq in E. subst k'.
  now rewrite (dict_get_absent k other Hnotin).
Qed.

Lemma dict_get_select {V} (k : string) (selected : list string)
    (d : dict V) :
  dict_get k (dict_select selected d)
  = if in_list k selected then dict_get k d else None.
Proof.
  unfold dict_select. induction d as [|[k' v'] d IH]; simpl.
  - now destruct (in_list k selected).
  - destruct (String.eqb k' k) eqn:E.
    + apply String.eqb_eq in E. subst k'.
      destruct (in_list k selected); simpl; [| exact IH].
      now rewrite String.eqb_refl.
    + destruct (in_list k' selected); simpl; [| exact IH].
      now rewrite E.
Qed.

Lemma dict_select_NoDup {V} (selected : list string) (d : dict V) :
  NoDup (dict_keys d) -> NoDup (dict_keys (dict_select selected d)).
Proof.
  unfold dict_select, dict_keys. induction d as [|kv d IH]; simpl; intros H.
  - constructor.
  - inversion H as [|? ? Hnotin H']; subst.
    destruct (in_list (fst kv) selected); simpl; [| now apply IH].
    constructor; [| now apply IH].
    intros Hin. apply Hnotin. apply in_map_iff in Hin.
    destruct Hin as (x & Hx & Hin). apply filter_In in Hin.
    apply in_map_iff. exists x. tauto.
Qed.

Lemma dict_update_NoDup {V} (d other : dict V) :
  NoDup (dict_keys d) -> NoDup (dict_keys (dict_update d other)).
Proof.
  unfold dict_update. revert d.
  induction other as [|kv other IH]; intros d H; simpl; [exact H|].
  apply IH. now apply dict_set_NoDup.
Qed.

Lemma custom_sizes_dict_NoDup (rt : Runtime) (custom_sizes_str : string) :
  NoDup (dict_keys (custom_sizes_dict rt custom_sizes_str)).
Proof.
  unfold custom_sizes_dict.
  destruct (str_nonempty custom_sizes_str); [| constructor].
  destruct (custom_sizes_of rt (py_split "," custom_sizes_str) []) as [d|e]
    eqn:E; [| constructor].
  apply (custom_sizes_of_NoDup rt (py_split "," custom_sizes_str) [] d);
    [constructor | exact E].
Qed.

(** How the presets and the custom sizes are merged, for images and for
    videos alike: a custom size wins over a preset of the same label;
    a preset counts only if it was selected; a selected name the profile
    does not know is ignored; and no label comes twice. *)
Theorem merged_sizes_lookup (rt : Runtime) (profile : Profile)
    (settings : Settings) :
  let merged (presets : dict Z) (k : string) :=
    match dict_get k (custom_sizes_dict rt (custom_sizes settings)) with
    | Some v => Some v
    | None => if in_list k (sizes_to_process settings)
              then dict_get k presets else None
    end in
  (forall k, dict_get k (image_sizes rt profile settings)
             = merged (sizes profile) k)
  /\ (forall k, dict_get k (video_heights rt profile settings)
                = merged (heights_map profile) k)
  /\ (NoDup (dict_keys (sizes profile)) ->
      NoDup (dict_keys (image_sizes rt profile settings)))
  /\ (NoDup (dict_keys (heights_map profile)) ->
      NoDup (dict_keys (video_heights rt profile settings))).
Proof.
  intros merged. subst merged. unfold image_sizes, video_heights.
  repeat split.
  - intros k. rewrite dict_get_update by apply custom_sizes_dict_NoDup.
    now rewrite dict_get_select.
  - intros k. rewrite dict_get_update by apply custom_sizes_dict_NoDup.
    now rewrite dict_get_select.
  - intros H. apply dict_update_NoDup. now apply dict_select_NoDup.
  - intros H. apply dict_update_NoDup. now apply dict_select_NoDup.
Qed.

(* ================================================================== *)
(** * Further properties: the tools an image job calls *)

Lemma invokes_nothing {A} (m : M A) (w : World) :
  invokes (fun _ => False) m -> invocations (snd (m w)) = invocations w.
Proof.
  intros H. destruct (H w) as (tr & Hi & Ha). rewrite Hi.
  destruct Ha as [|co tr []]. apply app_nil_r.
Qed.

Lemma invokes_with_block (P : command * proc_outcome -> Prop) (rt : Runtime)
    (file_path : FilePath) (folder target_format compression_mode : string)
    (sizes_to_process : dict Z) (densities : list Z)
    (include_full_size : bool) (path : string) :
  invokes P (with_block rt file_path folder target_format compression_mode
                        sizes_to_process densities include_full_size path).
Proof.
  assert (Hsave : forall img p format params,
             invokes P (save rt img p format params)).
  { intros img p format params. apply invokes_silent. intros w. unfold save.
    destruct (save_error rt p); reflexivity. }
  assert (Hresize : forall img a b, invokes P (resize rt img a b)).
  { intros img a b. apply invokes_silent. intros w.
    now rewrite (proj1 (resize_effect rt img a b w)). }
  assert (Hlift : forall A (r : result A), invokes P (lift r)).
  { intros A r. now apply invokes_silent. }
  unfold with_block. apply invokes_bind.
  - apply invokes_try_except.
    + apply invokes_silent. intros w. unfold bind.
      rewrite open_and_convert_decoded. now destruct (decoded rt path _).
    + intros e. destruct (exn_cls e); now apply invokes_silent.
  - intros [img|]; [| now apply invokes_silent].
    unfold render_image, render_sizes, render_full_size, render_variant.
    cbv zeta.
    repeat first
      [ apply invokes_log_message
      | apply invokes_mkdir
      | apply Hsave
      | apply Hresize
      | apply Hlift
      | apply invokes_when
      | apply invokes_for_each; intros ?
      | apply invokes_bind; [| intros ?]
      | now apply invokes_silent ].
Qed.

Lemma prepare_image_path_invocations {A} (rt : Runtime)
    (file_path : FilePath) (body : string -> M A) (w : World)
    (r : result A * World) :
  (forall path, invokes (fun _ => False) (body path)) ->
  prepare_image_path rt file_path body w = r ->
  let c := with_loglevel rt (sips_cmd file_path) in
  invocations (snd r)
  = (invocations w
     ++ if converts_heic rt file_path
        then [(c, subprocess_run rt (invocations w) c)] else [])%list.
Proof.
  intros Hq. unfold prepare_image_path, converts_heic, sips_cmd, temp_png.
  destruct (String.eqb (py_lower (suffix file_path)) ".heic" && darwin rt).
  - unfold bind at 1. rewrite log_message_info. unfold try_finally, bind.
    match goal with
    | |- context [run_command rt (?c0 :: ?args) ?p ?w0] =>
        destruct (run_command_effect rt c0 args p w0) as (Hi & _);
        destruct (run_command rt (c0 :: args) p w0) as [[out|e] w1]
    end; cbn [fst snd invocations set_processing_log set_console] in Hi.
    + pose proof (invokes_nothing
                    (body (path_str (with_suffix file_path ".temp.png"))) w1
                    (Hq _)) as Hb.
      destruct (body (path_str (with_suffix file_path ".temp.png")) w1)
        as [rb w2]; cbn [fst snd] in Hb.
      destruct (path_exists rt (invocations w2) _); intros <-;
        cbn [fst snd record_fs]; destruct w2; cbn in *; congruence.
    + destruct (path_exists rt (invocations w1) _); intros <-;
        cbn [fst snd record_fs]; destruct w1; cbn in *; congruence.
  - intros <-. rewrite app_nil_r. apply invokes_nothing, Hq.
Qed.

(** An image job calls no external tool, except for a HEIC source on
    macOS, where it calls the converter once, before anything else is
    done with the file. *)
Theorem process_image_invokes_converter_only (rt : Runtime)
    (file_path : FilePath) (profile : Profile) (settings : Settings)
    (w : World) :
  let c := with_loglevel rt (sips_cmd file_path) in
  invocations (snd (process_image rt file_path profile settings w))
  = (invocations w
     ++ match OUTPUT_DIR rt with
        | Some _ =>
            if converts_heic rt file_path
            then [(c, subprocess_run rt (invocations w) c)] else []
        | None => []
        end)%list.
Proof.
  intros c. unfold process_image.
  destruct (OUTPUT_DIR rt) as [output_dir|];
    [| rewrite log_message_info, app_nil_r; reflexivity].
  assert (Hbody :
    invocations (snd (process_image_body rt output_dir file_path profile
                        settings w))
    = (invocations w
       ++ if converts_heic rt file_path
          then [(c, subprocess_run rt (invocations w) c)] else [])%list).
  { unfold process_image_body. cbv zeta. unfold bind at 1.
    pose proof (get_custom_sizes_value rt (custom_sizes settings) w) as Hv.
    destruct (get_custom_sizes_world rt (custom_sizes settings) w)
      as (_ & Hinv & _).
    destruct (get_custom_sizes rt (custom_sizes settings) w) as [rc w1].
    cbn [fst snd] in Hv, Hinv. subst rc.
    unfold bind at 1. rewrite log_message_info.
    unfold bind at 1. rewrite log_message_info.
    unfold bind at 1.
    match goal with
    | |- context [prepare_image_path rt file_path ?b ?w0] =>
        pose proof (prepare_image_path_invocations rt file_path b w0 _
                      (invokes_with_block _ rt file_path _ _ _ _ _ _)
                      eq_refl) as Hp;
        destruct (prepare_image_path rt file_path b w0) as [[[|]|e] w3]
    end;
      cbn [fst snd invocations set_processing_log set_console when] in *;
      unfold ret; rewrite ?log_message_info;
      cbn [fst snd invocations set_processing_log set_console] in *;
      rewrite Hp, Hinv; reflexivity. }
  unfold try_except.
  destruct (process_image_body rt output_dir file_path profile settings w)
    as [[[]|e] w1]; cbn [fst snd] in *; [exact Hbody|].
  destruct (exn_cls e); unfold bind;
    rewrite ?log_message_info, ?log_message_debug;
    cbn [fst snd invocations set_processing_log set_console];
    exact Hbody.
Qed.

Lemma run_command_exit_status (rt : Runtime) (c0 : string)
    (args : list string) (log_prefix : string) (w : World) (e : exn)
    (d : string) :
  subprocess_run rt (invocations w) (with_loglevel rt (c0 :: args))
  = Failed e ->
  exn_cls e = CalledProcessError ->
  last_diagnostic (exn_stderr e) = Ret d ->
  let r := run_command rt (c0 :: args) log_prefix w in
  fst r = Raise e
  /\ processing_log (snd r)
     = (processing_log w ++ [diagnostic_line log_prefix d])%list
  /\ fs (snd r) = fs w.
Proof.
  intros Hrun Hcls Hd. unfold with_loglevel in Hrun.
  unfold run_command, subprocess_run_checked, bind, record_invocation, ret.
  cbv zeta. set (c := if String.eqb c0 (FFMPEG_CMD rt) then _ else _) in *.
  simpl. rewrite Hrun. simpl. rewrite Hcls. unfold lift, bind. rewrite Hd.
  simpl. auto.
Qed.

(** When the converter rejects a HEIC source, the image job ends there:
    it logs the converter's diagnostic and the conversion error line,
    decodes and saves nothing, does not even create the asset's folder,
    and only removes the intermediate file if the converter left one. *)
Theorem process_image_conversion_failure (rt : Runtime)
    (output_dir : string) (file_path : FilePath) (profile : Profile)
    (settings : Settings) (w : World) (e : exn) (d : string) :
  OUTPUT_DIR rt = Some output_dir ->
  converts_heic rt file_path = true ->
  subprocess_run rt (invocations w) (with_loglevel rt (sips_cmd file_path))
  = Failed e ->
  exn_cls e = CalledProcessError ->
  last_diagnostic (exn_stderr e) = Ret d ->
  (exists pre,
     processing_log (snd (process_image rt file_path profile settings w))
     = (pre ++ [heic_start_line file_path; diagnostic_line "    " d;
                heic_failed_line file_path])%list)
  /\ exists evs,
       fs (snd (process_image rt file_path profile settings w))
       = (fs w ++ evs)%list
       /\ Forall (fun ev => ev = Unlinked (temp_png file_path)) evs.
Proof.
  intros Hout Hc Hrun Hcls Hd.
  set (r := process_image rt file_path profile settings w).
  assert (Hr : r = process_image rt file_path profile settings w)
    by reflexivity.
  clearbody r. unfold process_image in Hr. rewrite Hout in Hr.
  unfold try_except, process_image_body in Hr. cbv zeta in Hr.
  unfold bind at 1 in Hr.
  destruct (get_custom_sizes_world rt (custom_sizes settings) w)
    as (Hfs & Hinv & _).
  pose proof (get_custom_sizes_value rt (custom_sizes settings) w) as Hv.
  destruct (get_custom_sizes rt (custom_sizes settings) w) as [rc w1].
  cbn [fst snd] in Hv, Hfs, Hinv. subst rc.
  unfold bind at 1 in Hr. rewrite log_message_info in Hr.
  unfold bind at 1 in Hr. rewrite log_message_info in Hr.
  unfold bind at 1 in Hr. unfold prepare_image_path in Hr.
  unfold converts_heic in Hc. rewrite Hc in Hr.
  unfold bind at 1 in Hr. rewrite log_message_info in Hr.
  unfold try_finally in Hr. unfold bind at 1 in Hr.
  unfold sips_cmd, temp_png in *.
  match type of Hr with
  | context [run_command rt (?c0 :: ?args) ?p ?w0] =>
      destruct (run_command_exit_status rt c0 args p w0 e d)
        as (Hres & Hl & Hf);
      [ cbn [invocations set_processing_log set_console]; rewrite Hinv;
        exact Hrun
      | exact Hcls | exact Hd |];
      destruct (run_command rt (c0 :: args) p w0) as [rr w2]
  end.
  cbn [fst snd processing_log fs set_processing_log set_console]
    in Hres, Hl, Hf.
  subst rr.
  destruct (path_exists rt (invocations w2) _);
    cbn [fst snd record_fs] in Hr; rewrite Hcls, log_message_info in Hr;
    subst r;
    cbn [fst snd processing_log fs set_processing_log set_console set_fs].
  - split.
    + rewrite Hl.
      match goal with
      | |- exists pre, (((?X ++ [?h]) ++ [?l1]) ++ [?l2])%list = _ =>
          exists X; rewrite <- !app_assoc; reflexivity
      end.
    + eexists [_]. rewrite Hf, Hfs. split; [reflexivity|].
      repeat constructor.
  - split.
    + rewrite Hl.
      match goal with
      | |- exists pre, (((?X ++ [?h]) ++ [?l1]) ++ [?l2])%list = _ =>
          exists X; rewrite <- !app_assoc; reflexivity
      end.
    + exists []. rewrite Hf, Hfs, app_nil_r. split; [reflexivity|constructor].
Qed.

Lemma process_image_conversion_failure_witness :
  exists pre,
    processing_log
      (snd (process_image (mac_runtime sips_fails) sample_heic
              (image_profile sample_config)
              (sample_settings ["thumb"] EmptyString "standard") empty_world))
    = (pre ++ [heic_start_line sample_heic;
               diagnostic_line "    " "Error: Cannot extract image from file.";
               heic_failed_line sample_heic])%list.
Proof.
  exact (proj1 (process_image_conversion_failure (mac_runtime sips_fails)
                  "output" sample_heic (image_profile sample_config)
                  (sample_settings ["thumb"] EmptyString "standard")
                  empty_world _ _ eq_refl eq_refl eq_refl eq_refl eq_refl)).
Defined.
